(** * Scroll Video Generator: cutout detection, scroll arithmetic and job
      lifecycle of [server.js], embedded and verified.

    Definitions, in the order of the source file:
    - [Js]         the JavaScript number operations the server relies on
                   (binary64 rounding, [Math.round], [Math.floor],
                   [Math.max], [||] on numbers, number formatting);
    - [Detector]   [detectTransparentCutout];
    - [Render]     [performJobCleanup] and the [POST /render] handler, as a
                   state-and-exception monad over an explicit world (file
                   system, response, listeners, timer);
    - [Protocol]   predicates on handler computations (what is written to
                   the response, which files are safe) and the milestones
                   of a job;
    - [Emergency]  the sweep of the [uncaughtException] handler;
    - [Scenarios], [Incidents]  concrete frames, pages, requests and
                   failures.

    Then the lemmas ([JsFacts], [DetectorFacts], [CleanupFacts],
    [RenderFacts]) and the properties of the specification, followed by
    further properties of the code, each with the lemmas it needs:
    detection and scroll arithmetic, cleanup, the response protocol, how a
    job ends, the files of other jobs, and the emergency sweep.

    What is taken from outside the source file is a parameter of the model
    ([Render.Env]): the clock, the decoded images, which file, image and
    encoder operations fail, and which events (client disconnect, timeout,
    response error) arrive at which suspension point. *)

From Stdlib Require Import ZArith QArith Qround Lia Lqa List Bool String Ascii.
From Stdlib Require Import DecimalString DecimalPos DecimalZ.
From stdpp Require Import base decidable option list gmap strings.

Local Open Scope Z_scope.

(* ===================================================================== *)
(** ** JavaScript numbers *)
(* ===================================================================== *)

Module Js.

(** A JavaScript number is a binary64 value.  Finite values are carried as
    the rational they denote; every arithmetic operation computes the exact
    rational result and rounds it to the nearest value with a 53-bit
    significand, ties to even ([rnd]).  A product that rounds to [2^1024]
    or beyond is an infinity ([bounded]); the subnormal range is not
    modelled: the magnitudes handled by the server (pixel counts, durations
    and rates of at least 1) do not reach it.  Signed zero is identified
    with zero. *)
Inductive num : Type :=
| NaN
| PInf
| NInf
| Fin (q : Q).

(** Scale [n/d] by [2^s] and return numerator and denominator of the scaled
    fraction as integers. *)
Definition scaled (n d s : Z) : Z * Z :=
  if 0 <=? s then (n * 2 ^ s, d) else (n, d * 2 ^ (- s)).

(** [m * 2^(-s)] as a rational. *)
Definition unscaled (m s : Z) : Q :=
  if 0 <=? s then m # (Z.to_pos (2 ^ s)) else inject_Z (m * 2 ^ (- s)).

(** The binary exponent [k] of [n/d] (with [n, d > 0]):
    [2^k <= n/d < 2^(k+1)]. *)
Definition exponent (n d : Z) : Z :=
  let e := Z.log2 n - Z.log2 d in
  let '(N, D) := scaled n d (- e) in
  if D <=? N then e else e - 1.

(** Round-to-nearest, ties-to-even, on a positive fraction. *)
Definition rnd_pos (n d : Z) : Q :=
  let s := 52 - exponent n d in
  let '(N, D) := scaled n d s in
  let m := N / D in
  let r := N mod D in
  let m' := if (D <? 2 * r) || ((D =? 2 * r) && Z.odd m) then m + 1 else m in
  unscaled m' s.

Definition rnd (q : Q) : Q :=
  match Qnum q with
  | Z0 => 0%Q
  | Zpos n => rnd_pos (Zpos n) (Zpos (Qden q))
  | Zneg n => Qopp (rnd_pos (Zpos n) (Zpos (Qden q)))
  end.

(** Arithmetic on numbers.  Only the cases the server reaches are refined;
    an undetermined form ([Infinity - Infinity], [0 * Infinity]) is [NaN]. *)
Definition is_zero (q : Q) : bool := Qeq_bool q 0.
Definition is_neg (q : Q) : bool := negb (Qle_bool 0 q).

(** The largest finite value is [(2 - 2^-52) * 2^1023]: a result that
    rounds to [2^1024] or beyond overflows to an infinity. *)
Definition huge : Q := inject_Z (2 ^ 1024).

Definition bounded (r : Q) : num :=
  if Qle_bool huge r then PInf
  else if Qle_bool r (- huge) then NInf
  else Fin r.

Definition mul (a b : num) : num :=
  match a, b with
  | NaN, _ | _, NaN => NaN
  | Fin p, Fin q => bounded (rnd (p * q))
  | Fin p, PInf | PInf, Fin p =>
      if is_zero p then NaN else if is_neg p then NInf else PInf
  | Fin p, NInf | NInf, Fin p =>
      if is_zero p then NaN else if is_neg p then PInf else NInf
  | PInf, PInf | NInf, NInf => PInf
  | PInf, NInf | NInf, PInf => NInf
  end.

(** [x || d] on numbers: [NaN] and zero are falsy. *)
Definition truthy (a : num) : bool :=
  match a with
  | NaN => false
  | Fin q => negb (is_zero q)
  | PInf | NInf => true
  end.

Definition or_else (a d : num) : num := if truthy a then a else d.

Definition Math_max (a b : num) : num :=
  match a, b with
  | NaN, _ | _, NaN => NaN
  | PInf, _ | _, PInf => PInf
  | NInf, c | c, NInf => c
  | Fin p, Fin q => Fin (if Qle_bool p q then q else p)
  end.

(** [Math.round]: nearest integer, ties towards positive infinity.  The
    result is integral; integers are carried as [Z] and their arithmetic is
    exact (they stay below 2^53). *)
Definition round_fin (q : Q) : Z := Qfloor (q + (1 # 2)).

Inductive integral : Type :=
| INaN
| IPInf
| INInf
| Int (z : Z).

Definition Math_round (a : num) : integral :=
  match a with
  | NaN => INaN
  | PInf => IPInf
  | NInf => INInf
  | Fin q => Int (round_fin q)
  end.

(** [Math.floor (n * pct)] for an integer [n] and a finite [pct]. *)
Definition floor_mul (n : Z) (pct : Q) : Z := Qfloor (rnd (inject_Z n * pct)).

(** [a / b] and [a * b] on finite numbers, [b] non-zero for the division. *)
Definition fdiv (a b : Q) : Q := rnd (a / b).
Definition fmul (a b : Q) : Q := rnd (a * b).

(** A numeric literal denotes the nearest binary64 value. *)
Definition lit (q : Q) : Q := rnd q.

(** [Number(v)] for a form field: an absent field is [undefined], whose
    numeric value is [NaN]; a present field carries the value [Number]
    gives its text ([NaN] when the text is not numeric). *)
Definition Number (field : option num) : num :=
  match field with
  | Some v => v
  | None => NaN
  end.

(** Number to string for integers, as in template literals. *)
Definition show (z : Z) : string :=
  DecimalString.NilZero.string_of_int (Z.to_int z).

(** [String.prototype.padStart] with a one-character filler. *)
Fixpoint pad_left (k : nat) (c : ascii) (s : string) : string :=
  match k with
  | O => s
  | S k' => String c (pad_left k' c s)
  end.

Definition padStart (s : string) (target : nat) (c : ascii) : string :=
  pad_left (target - String.length s) c s.

End Js.

(* ===================================================================== *)
(** ** Cutout detection: [detectTransparentCutout] *)
(* ===================================================================== *)

(** The cutout rectangle [{x, y, width, height}] returned to the handler. *)
Module Rect.
Record t : Type := mk { x : Z; y : Z; width : Z; height : Z }.
End Rect.

Module Detector.
Import Js.

(** What [sharp] hands to the detector: the metadata fields the function
    destructures and the raw interleaved pixel buffer. *)
Record Image : Type := {
  width : Z;
  height : Z;
  channels : Z;
  data : list Z
}.

(** Outcome of an [async] function that can throw. *)
Inductive result (A : Type) : Type :=
| Ok (a : A)
| Err (message : string).
Arguments Ok {A} a.
Arguments Err {A} message.

(** [data[i]]: [undefined] outside the buffer. *)
Definition buffer_get (buf : list Z) (i : Z) : option Z :=
  if i <? 0 then None else buf !! Z.to_nat i.

(** [for (let v = 0; v < n; v++)]: the values the loop variable takes. *)
Definition upto (n : Z) : list Z := map Z.of_nat (seq 0 (Z.to_nat n)).

Section WithImage.
Variable img : Image.

Definition isTransparent (x y : Z) : bool :=
  let pixelIndex := (y * width img + x) * channels img in
  match buffer_get (data img) (pixelIndex + 3) with
  | Some a => a =? 0
  | None => false
  end.

(** The running bounds [(minX, maxX, minY, maxY)] of the first scan. *)
Definition bounds : Type := Z * Z * Z * Z.

Definition scan_pixel (y : Z) (b : bounds) (x : Z) : bounds :=
  let '(minX, maxX, minY, maxY) := b in
  if isTransparent x y
  then (Z.min minX x, Z.max maxX x, Z.min minY y, Z.max maxY y)
  else b.

Definition scan_row (b : bounds) (y : Z) : bounds :=
  fold_left (scan_pixel y) (upto (width img)) b.

Definition scan : bounds :=
  fold_left scan_row (upto (height img)) (width img, -1, height img, -1).

(** [n % 2 === 0 ? n : n - 1] *)
Definition even_down (n : Z) : Z := if Z.rem n 2 =? 0 then n else n - 1.

Definition corners (b : bounds) : list (Z * Z) :=
  let '(minX, maxX, minY, maxY) := b in
  [(minX, minY); (maxX, minY); (minX, maxY); (maxX, maxY)].

(** The corner test: the loop leaves at the first opaque corner. *)
Definition isRectangularFrame (b : bounds) : bool :=
  forallb (fun c : Z * Z => isTransparent (fst c) (snd c)) (corners b).

(** [isRectangleValid]: both loops return [false] at the first pixel of the
    perimeter that is not fully transparent. *)
Definition isRectangleValid (x y w h : Z) : bool :=
  forallb (fun i => isTransparent (x + i) y && isTransparent (x + i) (y + h - 1))
          (upto w)
  && forallb (fun i => isTransparent x (y + i) && isTransparent (x + w - 1) (y + i))
             (upto h).

Definition testPercentages : list Q :=
  map lit [5 # 10; 55 # 100; 6 # 10; 65 # 100; 7 # 10;
           75 # 100; 8 # 10; 85 # 100; 9 # 10; 95 # 100].

(** The rectangle tested for one percentage. *)
Definition candidate (b : bounds) (pct : Q) : Rect.t :=
  let '(minX, maxX, minY, maxY) := b in
  let boundingWidth := maxX - minX + 1 in
  let boundingHeight := maxY - minY + 1 in
  let centerX := (minX + maxX) / 2 in
  let centerY := (minY + maxY) / 2 in
  let testWidth := floor_mul boundingWidth pct in
  let testHeight := floor_mul boundingHeight pct in
  let testX := centerX - testWidth / 2 in
  let testY := centerY - testHeight / 2 in
  Rect.mk testX testY testWidth testHeight.

Definition within_bounds (b : bounds) (r : Rect.t) : bool :=
  let '(minX, maxX, minY, maxY) := b in
  (minX <=? Rect.x r) && (minY <=? Rect.y r)
  && (Rect.x r + Rect.width r <=? maxX + 1)
  && (Rect.y r + Rect.height r <=? maxY + 1).

Definition rect_valid (r : Rect.t) : bool :=
  isRectangleValid (Rect.x r) (Rect.y r) (Rect.width r) (Rect.height r).

(** The loop over [testPercentages]; [best] is
    [{bestX, bestY, bestWidth, bestHeight}].  An out-of-bounds candidate
    falls through to the next percentage, an invalid one breaks. *)
Fixpoint search (b : bounds) (pcts : list Q) (best : Rect.t) : Rect.t :=
  match pcts with
  | [] => best
  | pct :: rest =>
      let r := candidate b pct in
      if within_bounds b r then
        if rect_valid r then search b rest r else best
      else search b rest best
  end.

Definition detect_body : result Rect.t :=
  if channels img <? 4 then
    Err "Frame image must have an alpha channel (RGBA)"
  else
    let '(minX, maxX, minY, maxY) := scan in
    if maxX =? -1 then Ok (Rect.mk 0 0 0 0)
    else
      let boundingWidth := maxX - minX + 1 in
      let boundingHeight := maxY - minY + 1 in
      if isRectangularFrame (minX, maxX, minY, maxY) then
        Ok (Rect.mk minX minY (even_down boundingWidth) (even_down boundingHeight))
      else
        let best :=
          search (minX, maxX, minY, maxY) testPercentages (Rect.mk minX minY 0 0) in
        Ok (Rect.mk (Rect.x best) (Rect.y best)
                    (even_down (Rect.width best)) (even_down (Rect.height best))).

(** The surrounding [try]/[catch] rethrows with a prefixed message. *)
Definition detectTransparentCutout : result Rect.t :=
  match detect_body with
  | Ok r => Ok r
  | Err message => Err ("Failed to detect transparent cutout: " ++ message)
  end.

(** *** What the first scan is meant to compute *)

Definition in_image (x y : Z) : Prop :=
  0 <= x < width img /\ 0 <= y < height img.

(** A pixel of the image whose alpha sample is exactly 0. *)
Definition transparent_at (x y : Z) : Prop :=
  in_image x y /\ isTransparent x y = true.

(** [(minX, maxX, minY, maxY)] is the bounding box of the fully
    transparent pixels: it contains them all and touches one on each side. *)
Definition is_bounding_box (b : bounds) : Prop :=
  let '(minX, maxX, minY, maxY) := b in
  (forall x y, transparent_at x y -> minX <= x <= maxX /\ minY <= y <= maxY)
  /\ (exists y, transparent_at minX y) /\ (exists y, transparent_at maxX y)
  /\ (exists x, transparent_at x minY) /\ (exists x, transparent_at x maxY).

(** Pixels already visited when the scan is at column [j] of row [k]. *)
Definition visited (k j x y : Z) : Prop :=
  in_image x y /\ (y < k \/ (y = k /\ x < j)).

Definition scan_inv (k j : Z) (b : bounds) : Prop :=
  let '(minX, maxX, minY, maxY) := b in
  (forall x y, visited k j x y -> isTransparent x y = true ->
               minX <= x <= maxX /\ minY <= y <= maxY)
  /\ (minX = width img \/ exists y, transparent_at minX y)
  /\ (maxX = -1 \/ exists y, transparent_at maxX y)
  /\ (minY = height img \/ exists x, transparent_at x minY)
  /\ (maxY = -1 \/ exists x, transparent_at x maxY).

(** Every pixel on the four edges of [r] is fully transparent. *)
Definition perimeter_transparent (r : Rect.t) : Prop :=
  (forall i, 0 <= i < Rect.width r ->
     isTransparent (Rect.x r + i) (Rect.y r) = true
     /\ isTransparent (Rect.x r + i) (Rect.y r + Rect.height r - 1) = true)
  /\ (forall i, 0 <= i < Rect.height r ->
     isTransparent (Rect.x r) (Rect.y r + i) = true
     /\ isTransparent (Rect.x r + Rect.width r - 1) (Rect.y r + i) = true).

End WithImage.

(** A rectangle with non-negative sides inside the bounding box. *)
Definition fits (b : bounds) (r : Rect.t) : Prop :=
  let '(minX, maxX, minY, maxY) := b in
  minX <= Rect.x r /\ minY <= Rect.y r
  /\ Rect.x r + Rect.width r <= maxX + 1 /\ Rect.y r + Rect.height r <= maxY + 1
  /\ 0 <= Rect.width r /\ 0 <= Rect.height r.

(** An RGBA buffer built from an alpha function, row by row. *)
Definition rgba (w h : Z) (alpha : Z -> Z -> Z) : Image :=
  {| width := w; height := h; channels := 4;
     data := flat_map (fun y => flat_map (fun x => [0; 0; 0; alpha x y]) (upto w))
                      (upto h) |}.

Definition inside (x0 y0 x1 y1 x y : Z) : bool :=
  (x0 <=? x) && (x <=? x1) && (y0 <=? y) && (y <=? y1).

(** An opaque frame with a rectangular punch-out from [(x0, y0)] to
    [(x1, y1)], both included. *)
Definition punched (w h x0 y0 x1 y1 : Z) : Image :=
  rgba w h (fun x y => if inside x0 y0 x1 y1 x y then 0 else 255).

End Detector.

(* ===================================================================== *)
(** ** The job: world, effects, cleanup and the [POST /render] handler *)
(* ===================================================================== *)

Module Render.
Import Js Detector.

Definition BATCH_SIZE : Z := 4.
Definition MAX_DIMENSION : Z := 4096.
Definition DEFAULT_FRAME : string := "defaultFrame.png".

(** [path.join] on two plain segments. *)
Definition path_join (a b : string) : string := a ++ "/" ++ b.

(** [p] is [dir] itself or lies below it. *)
Definition under (dir p : string) : bool :=
  String.eqb dir p || String.prefix (dir ++ "/") p.

(** The suspension points of the handler, in program order.  [Batch k] is
    the [Promise.all] of the [k]-th window of frames. *)
Inductive stage : Type :=
| EnsureTmp | Mkdir | PageMetadata | Detect | OriginalPageMetadata | Resize
| FrameRead | FrameMetadata | Batch (k : nat) | Encode | OutputRead.

(** What the outside world can do while the handler is suspended. *)
Inductive event : Type :=
| ClientClose      (* the connection closes: ['close'] on the response *)
| TimeoutFires     (* the five-minute timer elapses *)
| ResponseError.   (* ['error'] on the response *)

(** An entry of [cleanupData.uploadedFiles]. *)
Record Upload : Type := { path : string; type : string }.

Record CleanupData : Type := {
  sessionDir : option string;
  timestamp : Z;
  uploadedFiles : list Upload
}.

Inductive Payload : Type :=
| Json (fields : list (string * string))
| Video (file : string).

Record Response : Type := { status : Z; payload : Payload }.

(** One composite image written by the frame loop. *)
Record Frame : Type := {
  index : Z;
  file : string;
  crop_left : Z;
  crop_top : Z;
  crop_width : Z;
  crop_height : Z;
  offset_left : Z;
  offset_top : Z;
  canvas_width : Z;
  canvas_height : Z
}.

Inductive FsOp : Type :=
| RimrafOp (dir : string)
| UnlinkOp (p : string).

Inductive resEvent : Type := OnClose | OnFinish | OnError.

(** The closures registered on the response; each captures the job's
    [cleanupData]. *)
Inductive listener : Type :=
| EarlyClose (cd : CleanupData)
| ClearTimeout
| SuccessCleanup (cd : CleanupData)
| ResponseErrorCleanup (cd : CleanupData)
| LateClose (cd : CleanupData).

Record World : Type := {
  fs : gset string;                       (* paths that exist *)
  headersSent : bool;
  writableEnded : bool;
  closed : bool;                          (* the connection is gone *)
  isRequestCancelled : bool;
  timer : option CleanupData;             (* pending [cleanupTimeout] *)
  listeners : list (resEvent * listener);
  sent : list Response;                   (* responses that reached the client *)
  cleanups : list (string * bool);        (* [performJobCleanup] calls: reason, result *)
  trace : list FsOp;                      (* removals attempted by cleanup *)
  frames : list Frame                     (* frame images written *)
}.

Definition with_fs (f : gset string -> gset string) (w : World) : World :=
  {| fs := f (fs w); headersSent := headersSent w; writableEnded := writableEnded w;
     closed := closed w; isRequestCancelled := isRequestCancelled w; timer := timer w;
     listeners := listeners w; sent := sent w; cleanups := cleanups w;
     trace := trace w; frames := frames w |}.

Definition with_response (r : Response) (w : World) : World :=
  {| fs := fs w; headersSent := true; writableEnded := true;
     closed := closed w; isRequestCancelled := isRequestCancelled w; timer := timer w;
     listeners := listeners w;
     sent := if closed w then sent w else sent w ++ [r];
     cleanups := cleanups w; trace := trace w; frames := frames w |}.

Definition with_closed (w : World) : World :=
  {| fs := fs w; headersSent := headersSent w; writableEnded := writableEnded w;
     closed := true; isRequestCancelled := isRequestCancelled w; timer := timer w;
     listeners := listeners w; sent := sent w; cleanups := cleanups w;
     trace := trace w; frames := frames w |}.

Definition with_cancelled (w : World) : World :=
  {| fs := fs w; headersSent := headersSent w; writableEnded := writableEnded w;
     closed := closed w; isRequestCancelled := true; timer := timer w;
     listeners := listeners w; sent := sent w; cleanups := cleanups w;
     trace := trace w; frames := frames w |}.

Definition with_timer (t : option CleanupData) (w : World) : World :=
  {| fs := fs w; headersSent := headersSent w; writableEnded := writableEnded w;
     closed := closed w; isRequestCancelled := isRequestCancelled w; timer := t;
     listeners := listeners w; sent := sent w; cleanups := cleanups w;
     trace := trace w; frames := frames w |}.

Definition with_listener (ev : resEvent) (l : listener) (w : World) : World :=
  {| fs := fs w; headersSent := headersSent w; writableEnded := writableEnded w;
     closed := closed w; isRequestCancelled := isRequestCancelled w; timer := timer w;
     listeners := listeners w ++ [(ev, l)]; sent := sent w; cleanups := cleanups w;
     trace := trace w; frames := frames w |}.

Definition with_cleanup (reason : string) (ok : bool) (w : World) : World :=
  {| fs := fs w; headersSent := headersSent w; writableEnded := writableEnded w;
     closed := closed w; isRequestCancelled := isRequestCancelled w; timer := timer w;
     listeners := listeners w; sent := sent w; cleanups := cleanups w ++ [(reason, ok)];
     trace := trace w; frames := frames w |}.

Definition with_op (op : FsOp) (w : World) : World :=
  {| fs := fs w; headersSent := headersSent w; writableEnded := writableEnded w;
     closed := closed w; isRequestCancelled := isRequestCancelled w; timer := timer w;
     listeners := listeners w; sent := sent w; cleanups := cleanups w;
     trace := trace w ++ [op]; frames := frames w |}.

Definition with_frames (fr : list Frame) (w : World) : World :=
  {| fs := fs w ∪ list_to_set (map file fr);
     headersSent := headersSent w; writableEnded := writableEnded w;
     closed := closed w; isRequestCancelled := isRequestCancelled w; timer := timer w;
     listeners := listeners w; sent := sent w; cleanups := cleanups w;
     trace := trace w; frames := frames w ++ fr |}.

(** A world that differs from [w] in the file system and the removal
    trace only. *)
Definition with_fs_trace (s : gset string) (t : list FsOp) (w : World) : World :=
  {| fs := s; headersSent := headersSent w; writableEnded := writableEnded w;
     closed := closed w; isRequestCancelled := isRequestCancelled w; timer := timer w;
     listeners := listeners w; sent := sent w; cleanups := cleanups w;
     trace := t; frames := frames w |}.

(** *** The handler monad: state, exceptions and early [return] *)

(** What can be thrown: an [Error] with its message, or the plain object
    [{err, stdout, stderr}] that [runFFmpeg] rejects with. *)
Inductive exn : Type :=
| Error (message : string)
| Rejection.

(** [error.message] and [String(error)] *)
Definition message_of (e : exn) : string :=
  match e with
  | Error message => message
  | Rejection => "undefined"
  end.

Definition String_of (e : exn) : string :=
  match e with
  | Error message => "Error: " ++ message
  | Rejection => "[object Object]"
  end.

Inductive outcome (A : Type) : Type :=
| Value (a : A)
| Returned                 (* the handler executed [return] *)
| Thrown (e : exn)
| Diverged.                (* the frame loop did not end within the fuel *)
Arguments Value {A} a.
Arguments Returned {A}.
Arguments Thrown {A} e.
Arguments Diverged {A}.

Definition M (A : Type) : Type := World -> outcome A * World.

Definition ret {A : Type} (a : A) : M A := fun w => (Value a, w).

Definition bind {A B : Type} (m : M A) (k : A -> M B) : M B :=
  fun w =>
    match m w with
    | (Value a, w') => k a w'
    | (Returned, w') => (Returned, w')
    | (Thrown e, w') => (Thrown e, w')
    | (Diverged, w') => (Diverged, w')
    end.

Definition throw {A : Type} (e : exn) : M A := fun w => (Thrown e, w).
Definition return_ {A : Type} : M A := fun w => (Returned, w).
Definition diverge {A : Type} : M A := fun w => (Diverged, w).
Definition get : M World := fun w => (Value w, w).
Definition modify (f : World -> World) : M unit := fun w => (Value tt, f w).

Definition try_catch {A : Type} (m : M A) (handler : exn -> M A) : M A :=
  fun w =>
    match m w with
    | (Thrown e, w') => handler e w'
    | other => other
    end.

Declare Scope job_scope.
Delimit Scope job_scope with job.
Notation "x <- m ;; k" := (bind m (fun x => k))
  (at level 100, m at next level, right associativity) : job_scope.
Notation "m ;; k" := (bind m (fun _ => k))
  (at level 100, right associativity) : job_scope.
Local Open Scope job_scope.

(** Everything the handler gets from outside: the clock, the decoded
    images, and which external operations fail or are interrupted. *)
Record Env : Type := {
  dirname : string;                         (* [__dirname] *)
  now : Z;                                  (* [Date.now()] at job start *)
  page_meta : Z * Z;                        (* width and height of the uploaded page *)
  frame_image : Image;                      (* the decoded frame file *)
  failure : stage -> option string;         (* the operation rejects with this message *)
  events : stage -> list event;             (* events delivered during the suspension *)
  rimraf_error : string -> option string;
  unlink_error : string -> option string;
  delivered : bool                          (* ['finish'] fires on a written response *)
}.

(** No external operation fails and nothing happens while the handler is
    suspended. *)
Definition quiet (env : Env) : Prop :=
  (forall s, failure env s = None) /\ (forall s, events env s = []).

Section WithEnv.
Variable env : Env.

Definition tmpRoot : string := path_join (dirname env) "tmp".

(** [rimraf(dir)].  Whether the removal of a path fails is the
    environment's, the same at every attempt; a removal that fails is taken
    to have removed nothing. *)
Definition rimraf (dir : string) : M unit :=
  modify (with_op (RimrafOp dir)) ;;
  match rimraf_error env dir with
  | Some e => throw (Error e)
  | None => modify (with_fs (filter (fun p => under dir p = false)))
  end.

(** [fs.unlink(p)]; a missing file rejects with [ENOENT]. *)
Definition unlink (p : string) : M unit :=
  modify (with_op (UnlinkOp p)) ;;
  w <- get ;;
  match unlink_error env p with
  | Some e => throw (Error e)
  | None =>
      if decide (p ∈ fs w) then modify (with_fs (fun s => s ∖ {[p]}))
      else throw (Error "ENOENT")
  end.

(** [for (const file of uploadedFiles || []) await fs.unlink(file.path).catch(() => {})] *)
Fixpoint unlink_all (files : list Upload) : M unit :=
  match files with
  | [] => ret tt
  | f :: rest =>
      try_catch (unlink (path f)) (fun _ => ret tt) ;;
      unlink_all rest
  end.

Definition performJobCleanup (cleanupData : CleanupData) (reason : string) : M bool :=
  b <- try_catch
         (match sessionDir cleanupData with
          | Some dir => rimraf dir
          | None => ret tt
          end ;;
          unlink_all (uploadedFiles cleanupData) ;;
          ret true)
         (fun _ => ret false) ;;
  modify (with_cleanup reason b) ;;
  ret b.

(** The world after one [fs.unlink(p).catch(() => {})] and after the whole
    loop over the uploaded files. *)
Definition after_unlink (w : World) (p : string) : World :=
  let w1 := with_op (UnlinkOp p) w in
  match unlink_error env p with
  | Some _ => w1
  | None => if decide (p ∈ fs w1) then with_fs (fun s => s ∖ {[p]}) w1 else w1
  end.

Definition after_unlinks (files : list Upload) (w : World) : World :=
  fold_left after_unlink (map path files) w.

(** *** Response events *)

Definition resEvent_eqb (a b : resEvent) : bool :=
  match a, b with
  | OnClose, OnClose | OnFinish, OnFinish | OnError, OnError => true
  | _, _ => false
  end.

Definition run_listener (l : listener) (w : World) : World :=
  match l with
  | EarlyClose cd =>
      if negb (headersSent w) && negb (isRequestCancelled w)
      then snd (performJobCleanup cd "client-disconnect-early" (with_cancelled w))
      else w
  | ClearTimeout => with_timer None w
  | SuccessCleanup cd =>
      if negb (isRequestCancelled w)
      then snd (performJobCleanup cd "success" w)
      else w
  | ResponseErrorCleanup cd =>
      if negb (isRequestCancelled w)
      then snd (performJobCleanup cd "response-error" w)
      else w
  | LateClose cd =>
      if negb (writableEnded w) && negb (isRequestCancelled w)
      then snd (performJobCleanup cd "client-disconnect" w)
      else w
  end.

(** [res.emit(ev)]: the listeners registered for [ev], in registration
    order. *)
Definition emit (ev : resEvent) (w : World) : World :=
  fold_left (fun w' l => run_listener l w')
            (map snd (List.filter (fun p => resEvent_eqb ev (fst p)) (listeners w)))
            w.

(** The callback of [setTimeout(..., 300000)]. *)
Definition run_timeout (cd : CleanupData) (w : World) : World :=
  if negb (headersSent w) && negb (isRequestCancelled w)
  then snd (performJobCleanup cd "timeout" (with_cancelled w))
  else w.

Definition deliver (w : World) (e : event) : World :=
  match e with
  | ClientClose => emit OnClose (with_closed w)
  | TimeoutFires =>
      match timer w with
      | Some cd => run_timeout cd (with_timer None w)
      | None => w
      end
  | ResponseError => emit OnError w
  end.

Definition create (p : string) : World -> World := with_fs (fun s => s ∪ {[p]}).

(** [await op]: the operation takes effect, or rejects and leaves none; the
    events that arrive during the suspension are handled before the handler
    resumes.  A listener's own cleanup is taken as one step after the
    operation.  In the program it starts while the operation is in flight:
    the removal can then fail ([rimraf_error]) and the operation can lose
    its directory and reject ([failure]); which of these happens is the
    environment's, and the file system of such a run is not the model's. *)
Definition await (s : stage) (effect : World -> World) : M unit :=
  fun w =>
    match failure env s with
    | Some e => (Thrown (Error e), fold_left deliver (events env s) w)
    | None => (Value tt, fold_left deliver (events env s) (effect w))
    end.

(** [runFFmpeg(args)]: a failing encoder rejects with a plain object. *)
Definition runFFmpeg (outputPath : string) : M unit :=
  try_catch (await Encode (create outputPath)) (fun _ => throw Rejection).

(** [res.status(code).json(fields)] and [res.send(file)] *)
Definition send (code : Z) (body : Payload) : M unit :=
  modify (with_response {| status := code; payload := body |}).

Definition on (ev : resEvent) (l : listener) : M unit := modify (with_listener ev l).

(** *** The request *)

Record Request : Type := {
  frame : option string;     (* [req.files['frame'][0].path] *)
  page : option string;      (* [req.files['page'][0].path] *)
  duration : option num;     (* [req.body.duration] *)
  fps : option num           (* [req.body.fps] *)
}.

Definition uploads_of (req : Request) : list Upload :=
  match frame req with
  | Some p => [{| path := p; type := "frame" |}]
  | None => []
  end ++
  match page req with
  | Some p => [{| path := p; type := "page" |}]
  | None => []
  end.

Definition effective_duration (req : Request) : num :=
  Math_max (Fin 1) (or_else (Number (duration req)) (Fin 8)).

Definition effective_fps (req : Request) : num :=
  Math_max (Fin 12) (or_else (Number (fps req)) (Fin 30)).

(** *** Animation parameters *)

(** [Math.round(duration * fps)] *)
Definition totalFrames_of (duration fps : num) : integral :=
  Math_round (mul duration fps).

(** [batchStart < totalFrames] *)
Definition below (z : Z) (n : integral) : bool :=
  match n with
  | Int t => z <? t
  | IPInf => true
  | INaN | INInf => false
  end.

(** [Math.min(z, totalFrames)], an index of the frame loop. *)
Definition min_index (z : Z) (n : integral) : Z :=
  match n with
  | Int t => Z.min z t
  | _ => z
  end.

(** [totalFrames > 1 ? (endY - startY) / (totalFrames - 1) : 0] with
    [startY = 0] and [endY = maxScroll]. *)
Definition step_of (maxScroll : Z) (totalFrames : integral) : Q :=
  match totalFrames with
  | Int t =>
      if 1 <? t
      then fdiv (inject_Z (maxScroll - 0)) (inject_Z (t - 1))
      else 0
  | IPInf => 0      (* a finite number divided by [Infinity] *)
  | INaN | INInf => 0
  end.

(** [startY + step * i]: adding the zero [startY] is exact. *)
Definition offset_of (step : Q) (i : Z) : Z :=
  round_fin (fmul step (inject_Z i)).

Section Frames.
Variables (sessionDir : string) (cutout : Rect.t) (pageHeight : Z).
Variables (duration fps : num).

Definition totalFrames : integral := totalFrames_of duration fps.
Definition maxScroll : Z := Z.max 0 (pageHeight - Rect.height cutout).
Definition step : Q := step_of maxScroll totalFrames.

(** [String(i + 1).padStart(5, '0')]; the sum is the program's for an
    index below [2^53 - 1], where it is exact. *)
Definition frame_file (i : Z) : string :=
  path_join sessionDir ("frame_" ++ padStart (show (i + 1)) 5 "0" ++ ".png").

Definition frame_at (i : Z) : Frame :=
  let y := offset_of step i in
  {| index := i;
     file := frame_file i;
     crop_left := 0;
     crop_top := Z.max 0 (Z.min y (pageHeight - Rect.height cutout));
     crop_width := Rect.width cutout;
     crop_height := Rect.height cutout;
     offset_left := Rect.x cutout;
     offset_top := Rect.y cutout;
     canvas_width := width (frame_image env);
     canvas_height := height (frame_image env) |}.

(** [for (let i = batchStart; i < batchEnd; i++)] *)
Definition window (batchStart batchEnd : Z) : list Z :=
  map (fun j => batchStart + j) (upto (batchEnd - batchStart)).

(** The batch loop; [k] counts the windows. *)
Fixpoint batches (fuel : nat) (k : nat) (batchStart : Z) : M unit :=
  match fuel with
  | O => diverge
  | S fuel' =>
      if below batchStart totalFrames then
        let batchEnd := min_index (batchStart + BATCH_SIZE) totalFrames in
        await (Batch k) (with_frames (map frame_at (window batchStart batchEnd))) ;;
        w <- get ;;
        if isRequestCancelled w then return_
        else batches fuel' (S k) (batchStart + BATCH_SIZE)
      else ret tt
  end.

End Frames.

(** *** Detection and page resize (the inner [try]) *)

Definition detect_and_resize (sessionDir pageFile : string) (pageHeight : Z)
  : M (Rect.t * string * Z) :=
  try_catch
    (try_catch (await Detect id)
       (fun e => throw (Error ("Failed to detect transparent cutout: " ++ message_of e))) ;;
     cutout <- match detectTransparentCutout (frame_image env) with
               | Ok c => ret c
               | Err message => throw (Error message)
               end ;;
     let screenWidth := Rect.width cutout in
     let screenHeight := Rect.height cutout in
     if (screenWidth =? 0) || (screenHeight =? 0) then
       send 400 (Json [("error", "Could not detect a transparent cutout in the frame image.")]) ;;
       return_
     else
       w <- get ;;
       if isRequestCancelled w then return_
       else
         await OriginalPageMetadata id ;;
         let '(originalPageWidth, originalPageHeight) := page_meta env in
         let originalAspectRatio :=
           fdiv (inject_Z originalPageWidth) (inject_Z originalPageHeight) in
         if negb (screenWidth =? originalPageWidth) then
           let newPageHeight :=
             round_fin (fdiv (inject_Z screenWidth) originalAspectRatio) in
           let resizedPagePath := path_join sessionDir "resized_page.png" in
           await Resize (create resizedPagePath) ;;
           ret (cutout, resizedPagePath, newPageHeight)
         else ret (cutout, pageFile, pageHeight))
    (fun error =>
       send 400 (Json [("error", ("Auto-detection failed: " ++ message_of error)%string)]) ;;
       return_).

(** *** The handler *)

Definition render (fuel : nat) (req : Request) : M unit :=
  await EnsureTmp (fun w => create (path_join tmpRoot "uploads") (create tmpRoot w)) ;;
  let timestamp := now env in
  let sessionDir := path_join tmpRoot ("job_" ++ show timestamp) in
  try_catch
    (match page req with
     | None =>
         send 400 (Json [("error", "Please upload a page (long screenshot).")]) ;;
         return_
     | Some pageUpload =>
         let cleanupData :=
           {| sessionDir := Some sessionDir; timestamp := timestamp;
              uploadedFiles := uploads_of req |} in
         on OnClose (EarlyClose cleanupData) ;;
         modify (with_timer (Some cleanupData)) ;;
         on OnFinish ClearTimeout ;;
         on OnError ClearTimeout ;;
         let frameFile :=
           match frame req with
           | Some p => p
           | None => path_join (dirname env) DEFAULT_FRAME
           end in
         let pageFile := pageUpload in
         let duration := effective_duration req in
         let fps := effective_fps req in
         let outputName := ("output_" ++ show timestamp ++ ".mp4")%string in
         await Mkdir (create sessionDir) ;;
         await PageMetadata id ;;
         let '(pageWidth, pageHeight) := page_meta env in
         if (MAX_DIMENSION <? pageWidth) || (MAX_DIMENSION <? pageHeight) then
           send 400
             (Json [("error", ("Image dimensions too large. Maximum allowed: "
                               ++ show MAX_DIMENSION ++ "x" ++ show MAX_DIMENSION ++ "px")%string);
                    ("current", (show pageWidth ++ "x" ++ show pageHeight ++ "px")%string)]) ;;
           return_
         else
           r <- detect_and_resize sessionDir pageFile pageHeight ;;
           let '(cutout, pageFile, pageHeight) := r in
           await FrameRead id ;;
           await FrameMetadata id ;;
           batches sessionDir cutout pageHeight duration fps fuel 0 0 ;;
           w <- get ;;
           if isRequestCancelled w then return_
           else
             let outputPath := path_join sessionDir outputName in
             runFFmpeg outputPath ;;
             on OnFinish (SuccessCleanup cleanupData) ;;
             on OnError (ResponseErrorCleanup cleanupData) ;;
             on OnClose (LateClose cleanupData) ;;
             await OutputRead id ;;
             send 200 (Video outputPath)
     end)
    (fun err =>
       let errorCleanupData :=
         {| sessionDir := Some sessionDir; timestamp := timestamp;
            uploadedFiles := uploads_of req |} in
       performJobCleanup errorCleanupData "render-error" ;;
       send 500 (Json [("error", "Render failed");
                       ("details", String_of err);
                       ("jobId", ("job_" ++ show timestamp)%string);
                       ("message", "All temporary files have been cleaned up")])).

(** After the handler: a response that was written is handed to the socket
    (['finish']), then the connection closes; a timer that is still pending
    elapses.  Node emits ['finish'] once the last of the response has gone
    to the operating system, also when the client has stopped reading; the
    runs with [delivered env = false], in which the socket is destroyed
    before that, are kept for the statements that hold either way. *)
Definition settle (w : World) : World :=
  let w1 :=
    if writableEnded w && negb (closed w) then
      emit OnClose (with_closed (if delivered env then emit OnFinish w else w))
    else w in
  deliver w1 TimeoutFires.

(** The world when the handler starts: multer has stored the uploads. *)
Definition initial (req : Request) : World :=
  {| fs := list_to_set (map path (uploads_of req));
     headersSent := false; writableEnded := false; closed := false;
     isRequestCancelled := false; timer := None; listeners := [];
     sent := []; cleanups := []; trace := []; frames := [] |}.

Definition run (fuel : nat) (req : Request) : outcome unit * World :=
  let '(o, w) := render fuel req (initial req) in
  match o with
  | Diverged => (o, w)      (* the handler is still in the frame loop *)
  | _ => (o, settle w)
  end.

End WithEnv.
End Render.

(* ===================================================================== *)
(** ** What a computation does to the response *)
(* ===================================================================== *)

Module Protocol.
Import Js Detector Render.

(** The cleanup log only grows. *)
Definition grows (w w' : World) : Prop :=
  exists l, cleanups w' = cleanups w ++ l.

(** The computation writes no response. *)
Definition background {A : Type} (m : M A) : Prop :=
  forall w, grows w (snd (m w)) /\ sent (snd (m w)) = sent w.

(** The computation writes no response, or writes a 400 and makes the
    handler return. *)
Definition rejects {A : Type} (m : M A) : Prop :=
  forall w,
    grows w (snd (m w))
    /\ (sent (snd (m w)) = sent w
        \/ exists r, sent (snd (m w)) = sent w ++ [r]
                     /\ fst (m w) = Returned /\ status r = 400).

(** As [rejects], or the computation ends normally with a 200. *)
Definition completes (m : M unit) : Prop :=
  forall w,
    grows w (snd (m w))
    /\ (sent (snd (m w)) = sent w
        \/ exists r, sent (snd (m w)) = sent w ++ [r]
                     /\ ((fst (m w) = Returned /\ status r = 400)
                         \/ (fst (m w) = Value tt /\ status r = 200))).

(** Nothing fails and nothing happens while the handler waits at [s]. *)
Definition calm_at (env : Env) (s : stage) : Prop :=
  failure env s = None /\ events env s = [].

(** The listeners of a job that has not yet written its response, and of
    one that is about to send the video. *)
Definition early_listeners (cd : CleanupData) : list (resEvent * listener) :=
  [(OnClose, EarlyClose cd); (OnFinish, ClearTimeout); (OnError, ClearTimeout)].

Definition late_listeners (cd : CleanupData) : list (resEvent * listener) :=
  early_listeners cd
  ++ [(OnFinish, SuccessCleanup cd); (OnError, ResponseErrorCleanup cd);
      (OnClose, LateClose cd)].

(** The job's working directory and its [cleanupData]. *)
Definition job_path (env : Env) : string :=
  path_join (tmpRoot env) ("job_" ++ show (now env)).

Definition job_data (env : Env) (req : Request) : CleanupData :=
  {| sessionDir := Some (job_path env); timestamp := now env;
     uploadedFiles := uploads_of req |}.

(** The world when the handler has registered its early listeners and
    created the working directory. *)
Definition started (env : Env) (req : Request) : World :=
  create (job_path env)
    (with_listener OnError ClearTimeout
       (with_listener OnFinish ClearTimeout
          (with_timer (Some (job_data env req))
             (with_listener OnClose (EarlyClose (job_data env req))
                (create (path_join (tmpRoot env) "uploads")
                   (create (tmpRoot env) (initial req))))))).

(** The page height the frame loop works with, and the world after the
    detection phase: the page is resized when its width differs from the
    cutout's. *)
Definition page_height (cut : Rect.t) (pw ph : Z) : Z :=
  if Rect.width cut =? pw then ph
  else round_fin (fdiv (inject_Z (Rect.width cut)) (fdiv (inject_Z pw) (inject_Z ph))).

Definition prepared (env : Env) (req : Request) (cut : Rect.t) (pw : Z) : World :=
  if Rect.width cut =? pw then started env req
  else create (path_join (job_path env) "resized_page.png") (started env req).

(** The first [n] frames of the job, and the world once they are written. *)
Definition job_frames (env : Env) (req : Request) (cut : Rect.t) (pw ph : Z) (n : Z)
  : list Frame :=
  map (frame_at env (job_path env) cut (page_height cut pw ph)
                (effective_duration req) (effective_fps req))
      (upto n).

Definition rendered (env : Env) (req : Request) (cut : Rect.t) (pw ph : Z) (n : Z) : World :=
  with_frames (job_frames env req cut pw ph n) (prepared env req cut pw).

(** The output video, and the world when the video is about to be sent. *)
Definition output_path (env : Env) : string :=
  path_join (job_path env) ("output_" ++ show (now env) ++ ".mp4").

Definition encoded (env : Env) (req : Request) (cut : Rect.t) (pw ph : Z) (n : Z) : World :=
  with_listener OnClose (LateClose (job_data env req))
    (with_listener OnError (ResponseErrorCleanup (job_data env req))
       (with_listener OnFinish (SuccessCleanup (job_data env req))
          (create (output_path env) (rendered env req cut pw ph n)))).

(** What the outer [catch] answers, and the reason a cancelling event gives
    to its cleanup. *)
Definition render_failed (env : Env) (err : exn) : Response :=
  {| status := 500;
     payload := Json [("error", "Render failed");
                      ("details", String_of err);
                      ("jobId", ("job_" ++ show (now env))%string);
                      ("message", "All temporary files have been cleaned up")] |}.

Definition cancel_reason (e : event) : string :=
  match e with
  | ClientClose => "client-disconnect-early"
  | _ => "timeout"
  end.

(** *** Files a job must not touch *)

(** The [cleanupData] a listener closes over. *)
Definition data_of (l : listener) : option CleanupData :=
  match l with
  | EarlyClose cd | SuccessCleanup cd | ResponseErrorCleanup cd | LateClose cd => Some cd
  | ClearTimeout => None
  end.

(** [p] is not among the files that a cleanup of [cd] removes. *)
Definition spares (p : string) (cd : CleanupData) : Prop :=
  (forall dir, sessionDir cd = Some dir -> under dir p = false)
  /\ ~ In p (map path (uploadedFiles cd)).

(** [p] exists, and no pending listener or timer would remove it. *)
Definition safe_for (p : string) (w : World) : Prop :=
  p ∈ fs w
  /\ (forall ev l cd, In (ev, l) (listeners w) -> data_of l = Some cd -> spares p cd)
  /\ (forall cd, timer w = Some cd -> spares p cd).

(** The computation maintains [P]. *)
Definition keeps (P : World -> Prop) {A : Type} (m : M A) : Prop :=
  forall w, P w -> P (snd (m w)).

End Protocol.
(* ===================================================================== *)
(** ** The sweep on an uncaught exception *)
(* ===================================================================== *)

Module Emergency.
Import Js Render.
Local Open Scope job_scope.

(** The rest of [s] after the prefix [pre]. *)
Fixpoint strip_prefix (pre s : string) : option string :=
  match pre, s with
  | EmptyString, _ => Some s
  | String a pre', String b s' => if Ascii.eqb a b then strip_prefix pre' s' else None
  | String _ _, EmptyString => None
  end.

(** The part of [s] before its first ["/"]. *)
Fixpoint first_segment (s : string) : string :=
  match s with
  | EmptyString => EmptyString
  | String c s' => if Ascii.eqb c "/" then EmptyString else String c (first_segment s')
  end.

(** The entry of [dir] through which the path [p] is reached. *)
Definition entry_of (dir p : string) : option string :=
  match strip_prefix (dir ++ "/") p with
  | Some rest => Some (first_segment rest)
  | None => None
  end.

(** [fs.readdir(dir).catch(() => [])]: the names of the entries of [dir],
    in some order; none when the directory is missing or [unreadable]. *)
Definition readdir (unreadable : string -> bool) (dir : string) (w : World) : list string :=
  if unreadable dir then []
  else elements (set_omap (D := gset string) (entry_of dir) (fs w)).

Section WithEnv.
Variable env : Env.
Variable unreadable : string -> bool.

(** [for (const entry of entries) if (entry.startsWith('job_'))
    await rimraf(path.join(tmpRoot, entry)).catch(() => {})] *)
Fixpoint sweep_jobs (entries : list string) : M unit :=
  match entries with
  | [] => ret tt
  | entry :: rest =>
      (if String.prefix "job_" entry
       then try_catch (rimraf env (path_join (tmpRoot env) entry)) (fun _ => ret tt)
       else ret tt) ;;
      sweep_jobs rest
  end.

(** [for (const entry of uploadEntries)
    await fs.unlink(path.join(uploadsDir, entry)).catch(() => {})] *)
Fixpoint sweep_uploads (uploadsDir : string) (entries : list string) : M unit :=
  match entries with
  | [] => ret tt
  | entry :: rest =>
      try_catch (unlink env (path_join uploadsDir entry)) (fun _ => ret tt) ;;
      sweep_uploads uploadsDir rest
  end.

(** The body of the [uncaughtException] handler, up to [process.exit(1)]. *)
Definition emergency_cleanup : M unit :=
  try_catch
    (w <- get ;;
     let entries := readdir unreadable (tmpRoot env) w in
     sweep_jobs entries ;;
     let uploadsDir := path_join (tmpRoot env) "uploads" in
     w' <- get ;;
     let uploadEntries := readdir unreadable uploadsDir w' in
     sweep_uploads uploadsDir uploadEntries)
    (fun _ => ret tt).

End WithEnv.

(** A plain entry name: not empty, no ["/"]. *)
Fixpoint plain (name : string) : bool :=
  match name with
  | EmptyString => true
  | String c rest => negb (Ascii.eqb c "/") && plain rest
  end.

Definition entry_name (name : string) : Prop :=
  name <> EmptyString /\ plain name = true.

End Emergency.

(* ===================================================================== *)
(** ** Concrete jobs *)
(* ===================================================================== *)

Module Scenarios.
Import Js Detector Render.

(** An environment in which nothing fails and nothing interrupts. *)
Definition calm (page : Z * Z) (frame : Image) : Env :=
  {| dirname := "/app"; now := 1758349793301;
     page_meta := page; frame_image := frame;
     failure := fun _ => None; events := fun _ => [];
     rimraf_error := fun _ => None; unlink_error := fun _ => None;
     delivered := true |}.

Definition page_upload : string := "/app/tmp/uploads/3f9a1c".

(** A request that uploads a page only. *)
Definition request (duration fps : option num) : Request :=
  {| frame := None; page := Some page_upload; duration := duration; fps := fps |}.

Definition job_dir : string := "/app/tmp/job_1758349793301".

(** A 20x20 frame whose cutout is a square with rounded-off corners: the
    square from 4 to 14 plus the middle row and column. *)
Definition rounded_frame : Image :=
  rgba 20 20 (fun x y => if inside 4 4 14 14 x y || (x =? 9) || (y =? 9) then 0 else 255).

(** A 24x24 frame whose transparent pixels form a thin cross. *)
Definition cross_frame : Image :=
  rgba 24 24 (fun x y => if (inside 3 11 20 11 x y) || (inside 11 2 11 21 x y)
                         then 0 else 255).

(** A 4x4 RGB image: three samples per pixel, no alpha. *)
Definition rgb_frame : Image :=
  {| width := 4; height := 4; channels := 3; data := repeat 0 48 |}.

(** The README's sample: the default 818x1784 frame and the 780x3618
    page, with the quick test's [duration=2], [fps=10]. *)
Definition readme_env : Env := calm (780, 3618) (punched 818 1784 19 20 799 1764).

(** A 4x4 fully transparent frame and a 4x10 page. *)
Definition small_env : Env := calm (4, 10) (rgba 4 4 (fun _ _ => 0)).

(** A 5000x100 page. *)
Definition oversize_page_env : Env := calm (5000, 100) (rgba 4 4 (fun _ _ => 0)).

(** A 5000x5000 frame with a 780x1744 punch-out, and the README's page. *)
Definition oversize_frame_env : Env :=
  calm (780, 3618) (punched 5000 5000 10 10 789 1753).

(** A frame without alpha channel, and a frame with no transparent pixel. *)
Definition no_alpha_env : Env := calm (4, 10) rgb_frame.
Definition opaque_env : Env := calm (4, 10) (rgba 4 4 (fun _ _ => 255)).

(** The session directory cannot be removed ([EBUSY]). *)
Definition busy_env : Env :=
  {| dirname := "/app"; now := 1758349793301;
     page_meta := (4, 10); frame_image := rgba 4 4 (fun _ _ => 0);
     failure := fun _ => None; events := fun _ => [];
     rimraf_error := fun p => if String.eqb p job_dir then Some "EBUSY" else None;
     unlink_error := fun _ => None;
     delivered := true |}.

Definition job_files : CleanupData :=
  {| sessionDir := Some job_dir; timestamp := 1758349793301;
     uploadedFiles := [{| path := page_upload; type := "page" |}] |}.

(** The world of a job whose directory and upload exist. *)
Definition job_world : World :=
  with_fs (fun s => s ∪ {[job_dir]}) (initial (request None None)).

End Scenarios.

(* ===================================================================== *)
(** ** Jobs in which something goes wrong *)
(* ===================================================================== *)

Module Incidents.
Import Js Detector Render Scenarios.

Definition stage_eqb (a b : stage) : bool :=
  match a, b with
  | EnsureTmp, EnsureTmp | Mkdir, Mkdir | PageMetadata, PageMetadata
  | Detect, Detect | OriginalPageMetadata, OriginalPageMetadata
  | Resize, Resize | FrameRead, FrameRead | FrameMetadata, FrameMetadata
  | Encode, Encode | OutputRead, OutputRead => true
  | Batch j, Batch k => Nat.eqb j k
  | _, _ => false
  end.

(** [base], except that the operation at stage [s] rejects with [msg]. *)
Definition failing (base : Env) (s : stage) (msg : string) : Env :=
  {| dirname := dirname base; now := now base;
     page_meta := page_meta base; frame_image := frame_image base;
     failure := fun s' => if stage_eqb s s' then Some msg else failure base s';
     events := events base;
     rimraf_error := rimraf_error base; unlink_error := unlink_error base;
     delivered := delivered base |}.

(** [base], except that [evs] arrive while the handler waits at stage [s]. *)
Definition interrupted (base : Env) (s : stage) (evs : list event) : Env :=
  {| dirname := dirname base; now := now base;
     page_meta := page_meta base; frame_image := frame_image base;
     failure := failure base;
     events := fun s' => if stage_eqb s s' then evs else events base s';
     rimraf_error := rimraf_error base; unlink_error := unlink_error base;
     delivered := delivered base |}.

(** A 4x4 fully transparent frame and an 8x20 page, which is resized to
    4x10. *)
Definition wide_page_env : Env := calm (8, 20) (rgba 4 4 (fun _ _ => 0)).

(** A request that uploads a frame and a page, and one that uploads a
    frame only. *)
Definition frame_upload : string := "/app/tmp/uploads/77b2e0".

Definition full_request : Request :=
  {| frame := Some frame_upload; page := Some page_upload;
     duration := Some (Fin 1); fps := Some (Fin 12) |}.

Definition frame_only : Request :=
  {| frame := Some frame_upload; page := None; duration := None; fps := None |}.

End Incidents.

(* ===================================================================== *)
(** ** Properties of the rounding *)
(* ===================================================================== *)

Module JsFacts.
Import Js.

(** The rounding is visible in the detector's arithmetic: the literal
    [0.7] is the binary64 value just below 7/10, and [90 * 0.7] rounds to
    the value just below 63. *)
Example literal_seven_tenths :
  (lit (7 # 10) == 3152519739159347 # 4503599627370496)%Q.
Proof. vm_compute. reflexivity. Qed.

Example floor_of_90_times_seven_tenths : floor_mul 90 (lit (7 # 10)) = 62.
Proof. vm_compute. reflexivity. Qed.

Example floor_of_20_times_each_percentage :
  map (floor_mul 20) (map lit [5 # 10; 55 # 100; 6 # 10; 95 # 100]) = [10; 11; 12; 19].
Proof. vm_compute. reflexivity. Qed.

Lemma pow2_pos a : 0 <= a -> 0 < 2 ^ a.
Proof. intros Ha. apply Z.pow_pos_nonneg; lia. Qed.

Lemma scaled_pos n d s :
  0 < n -> 0 < d -> 0 < fst (scaled n d s) /\ 0 < snd (scaled n d s).
Proof.
  intros Hn Hd. unfold scaled. destruct (0 <=? s) eqn:Hs; simpl.
  - apply Z.leb_le in Hs. pose proof (pow2_pos s Hs). split; [nia | lia].
  - apply Z.leb_gt in Hs. pose proof (pow2_pos (- s) ltac:(lia)). split; [lia | nia].
Qed.

(** Comparing [n/d] with [c * 2^(A-B)] decides the comparison of the scaled
    numerator with [c] times the scaled denominator. *)
Lemma scaled_ge n d c A B :
  0 <= A -> 0 <= B ->
  c * d * 2 ^ A <= n * 2 ^ B ->
  c * snd (scaled n d (B - A)) <= fst (scaled n d (B - A)).
Proof.
  intros HA HB Hle. unfold scaled. destruct (0 <=? B - A) eqn:Hs; simpl.
  - apply Z.leb_le in Hs.
    replace (2 ^ B) with (2 ^ (B - A) * 2 ^ A) in Hle
      by (rewrite <- Z.pow_add_r by lia; f_equal; lia).
    pose proof (pow2_pos A HA).
    apply Z.mul_le_mono_pos_r with (p := 2 ^ A); [lia|]. lia.
  - apply Z.leb_gt in Hs.
    replace (- (B - A)) with (A - B) by lia.
    replace (2 ^ A) with (2 ^ (A - B) * 2 ^ B) in Hle
      by (rewrite <- Z.pow_add_r by lia; f_equal; lia).
    pose proof (pow2_pos B HB).
    apply Z.mul_le_mono_pos_r with (p := 2 ^ B); [lia|]. lia.
Qed.

(** The significand before rounding has 53 bits: it is at least [2^52]. *)
Lemma exponent_lower n d :
  0 < n -> 0 < d ->
  let s := 52 - exponent n d in
  2 ^ 52 * snd (scaled n d s) <= fst (scaled n d s).
Proof.
  intros Hn Hd. unfold exponent.
  set (a := Z.log2 n). set (b := Z.log2 d).
  assert (Ha : 0 <= a) by apply Z.log2_nonneg.
  assert (Hb : 0 <= b) by apply Z.log2_nonneg.
  destruct (scaled n d (- (a - b))) as [N' D'] eqn:Hsc.
  destruct (D' <=? N') eqn:Hcmp; cbv zeta.
  - apply Z.leb_le in Hcmp.
    unfold scaled in Hsc. destruct (0 <=? - (a - b)) eqn:Hs.
    + apply Z.leb_le in Hs. injection Hsc as <- <-.
      replace (52 - (a - b)) with ((52 + (b - a)) - 0) by lia.
      apply scaled_ge; [lia | lia |].
      rewrite Z.pow_0_r, Z.pow_add_r by lia.
      replace (- (a - b)) with (b - a) in Hcmp by lia.
      pose proof (pow2_pos 52 ltac:(lia)). nia.
    + apply Z.leb_gt in Hs. injection Hsc as <- <-.
      replace (- - (a - b)) with (a - b) in Hcmp by lia.
      replace (52 - (a - b)) with (52 - (a - b)) by lia.
      apply scaled_ge; [lia | lia |].
      pose proof (pow2_pos 52 ltac:(lia)). nia.
  - replace (52 - (a - b - 1)) with ((53 + b) - a) by lia.
    apply scaled_ge; [lia | lia |].
    destruct (Z.log2_spec n Hn) as [Hn1 _]. destruct (Z.log2_spec d Hd) as [_ Hd2].
    fold a in Hn1. fold b in Hd2.
    replace (53 + b) with (52 + Z.succ b) by lia.
    rewrite Z.pow_add_r by lia.
    pose proof (pow2_pos 52 ltac:(lia)). pose proof (pow2_pos a Ha).
    pose proof (pow2_pos (Z.succ b) ltac:(lia)). nia.
Qed.

(** One rounding step moves a positive value up by at most one part in
    [2^52], and never below zero. *)
Lemma rnd_pos_bounds (n d : positive) :
  (0 <= rnd_pos (Zpos n) (Zpos d))%Q
  /\ (rnd_pos (Zpos n) (Zpos d)
      <= (Zpos n # d) * (4503599627370497 # 4503599627370496))%Q.
Proof.
  pose proof (exponent_lower (Zpos n) (Zpos d) ltac:(lia) ltac:(lia)) as Hlow.
  cbv zeta in Hlow. unfold rnd_pos.
  set (s := 52 - exponent (Z.pos n) (Z.pos d)) in *.
  pose proof (scaled_pos (Zpos n) (Zpos d) s ltac:(lia) ltac:(lia)) as [HN HD].
  assert (Hrel : if 0 <=? s
                 then fst (scaled (Zpos n) (Zpos d) s) = Zpos n * 2 ^ s
                      /\ snd (scaled (Zpos n) (Zpos d) s) = Zpos d
                 else fst (scaled (Zpos n) (Zpos d) s) = Zpos n
                      /\ snd (scaled (Zpos n) (Zpos d) s) = Zpos d * 2 ^ (- s)).
  { unfold scaled. destruct (0 <=? s); simpl; split; reflexivity. }
  destruct (scaled (Z.pos n) (Z.pos d) s) as [N D]. simpl in *.
  set (m := N / D).
  assert (Hm1 : D * m <= N) by (apply Z.mul_div_le; lia).
  assert (Hm2 : 2 ^ 52 <= m) by (apply Z.div_le_lower_bound; lia).
  set (m' := if (D <? 2 * (N mod D)) || ((D =? 2 * (N mod D)) && Z.odd m)
             then m + 1 else m).
  assert (Hm' : m <= m' <= m + 1).
  { unfold m'. destruct ((D <? 2 * (N mod D)) || ((D =? 2 * (N mod D)) && Z.odd m)); lia. }
  clearbody m m'. change (2 ^ 52) with 4503599627370496 in *.
  unfold unscaled. destruct (0 <=? s) eqn:Hs.
  - apply Z.leb_le in Hs. destruct Hrel as [-> ->].
    pose proof (pow2_pos s Hs) as Hp. set (p := 2 ^ s) in *. clearbody p.
    unfold Qle. simpl Qnum. simpl Qden.
    rewrite !Pos2Z.inj_mul, !Z2Pos.id by lia. split; [lia | nia].
  - apply Z.leb_gt in Hs. destruct Hrel as [-> ->].
    pose proof (pow2_pos (- s) ltac:(lia)) as Hp. set (p := 2 ^ (- s)) in *. clearbody p.
    unfold Qle, inject_Z. simpl Qnum. simpl Qden.
    rewrite ?Pos2Z.inj_mul. split; [nia | nia].
Qed.

Lemma rnd_nonneg q : (0 <= q)%Q -> (0 <= rnd q)%Q.
Proof.
  destruct q as [[|n|n] d]; unfold rnd; simpl.
  - intros _. apply Qle_refl.
  - intros _. apply rnd_pos_bounds.
  - unfold Qle. simpl. lia.
Qed.

Lemma rnd_upper q :
  (0 <= q)%Q -> (rnd q <= q * (4503599627370497 # 4503599627370496))%Q.
Proof.
  destruct q as [[|n|n] d]; unfold rnd; simpl.
  - intros _. unfold Qle. simpl. lia.
  - intros _. apply rnd_pos_bounds.
  - unfold Qle. simpl. lia.
Qed.

Lemma rnd_zero q : (q == 0)%Q -> rnd q = 0%Q.
Proof.
  destruct q as [[|n|n] d]; unfold Qeq, rnd; simpl; intros H; try reflexivity; lia.
Qed.

Lemma Qfloor_lt_Z q (n : Z) : (q < inject_Z n)%Q -> Qfloor q < n.
Proof.
  intros Hq. destruct (Z_lt_ge_dec (Qfloor q) n) as [Hlt | Hge]; [exact Hlt | exfalso].
  pose proof (Qfloor_le q) as Hf.
  assert (Hn : (inject_Z n <= inject_Z (Qfloor q))%Q) by (rewrite <- Zle_Qle; lia).
  apply (Qlt_irrefl q).
  eapply Qlt_le_trans; [exact Hq |]. eapply Qle_trans; [exact Hn | exact Hf].
Qed.

Lemma Qfloor_nonneg q : (0 <= q)%Q -> 0 <= Qfloor q.
Proof. intros Hq. change 0 with (Qfloor 0). now apply Qfloor_resp_le. Qed.

(** [Math.floor(n * pct)] for a fraction [pct <= 0.96] of a positive
    integer is a smaller non-negative integer. *)
Lemma floor_mul_bounds n pct :
  1 <= n -> (0 <= pct)%Q -> (pct <= 96 # 100)%Q ->
  0 <= floor_mul n pct <= n - 1.
Proof.
  intros Hn Hp0 Hp1. unfold floor_mul.
  assert (Hq0 : (0 <= inject_Z n * pct)%Q).
  { apply Qmult_le_0_compat; [| exact Hp0]. change 0%Q with (inject_Z 0).
    rewrite <- Zle_Qle. lia. }
  split.
  - apply Qfloor_nonneg, rnd_nonneg, Hq0.
  - enough (Qfloor (rnd (inject_Z n * pct)) < n) by lia.
    apply Qfloor_lt_Z.
    eapply Qle_lt_trans; [apply rnd_upper, Hq0 |].
    assert (Hn' : (0 < inject_Z n)%Q).
    { change 0%Q with (inject_Z 0). rewrite <- Zlt_Qlt. lia. }
    apply Qle_lt_trans
      with (y := (inject_Z n * ((96 # 100) * (4503599627370497 # 4503599627370496)))%Q).
    + rewrite <- Qmult_assoc. apply Qmult_le_l; [exact Hn' |].
      apply Qmult_le_compat_r; [exact Hp1 | discriminate].
    + rewrite <- (Qmult_1_r (inject_Z n)) at 2.
      apply Qmult_lt_l; [exact Hn' | reflexivity].
Qed.


(** A non-negative result is never [-Infinity]. *)
Lemma bounded_nonneg r :
  (0 <= r)%Q -> bounded r = PInf \/ bounded r = Fin r.
Proof.
  intros H0. unfold bounded.
  destruct (Qle_bool huge r); [now left |].
  destruct (Qle_bool r (- huge)) eqn:E2; [| now right].
  apply Qle_bool_iff in E2.
  assert (Hh : (0 < huge)%Q).
  { unfold huge. change 0%Q with (inject_Z 0). rewrite <- Zlt_Qlt.
    apply Z.pow_pos_nonneg; lia. }
  lra.
Qed.

End JsFacts.

(* ===================================================================== *)
(** ** Properties of the detector *)
(* ===================================================================== *)

Module DetectorFacts.
Import Js Detector.

Lemma upto_nonpos n : n <= 0 -> upto n = [].
Proof.
  intros Hn. unfold upto. replace (Z.to_nat n) with O by lia. reflexivity.
Qed.

Lemma upto_succ n : 0 <= n -> upto (n + 1) = upto n ++ [n].
Proof.
  intros Hn. unfold upto.
  replace (Z.to_nat (n + 1)) with (S (Z.to_nat n)) by lia.
  rewrite seq_S, map_app. simpl. now rewrite Z2Nat.id.
Qed.

Lemma In_upto i n : In i (upto n) <-> 0 <= i < n.
Proof.
  unfold upto. rewrite in_map_iff. split.
  - intros (k & <- & Hk). apply in_seq in Hk. lia.
  - intros Hi. exists (Z.to_nat i). split; [lia|]. apply in_seq. lia.
Qed.

(** Loop invariants for [for (v = 0; v < n; v++)]. *)
Lemma fold_upto_ind {A : Type} (f : A -> Z -> A) (I : Z -> A -> Prop) n a :
  0 <= n ->
  I 0 a ->
  (forall k s, 0 <= k < n -> I k s -> I (k + 1) (f s k)) ->
  I n (fold_left f (upto n) a).
Proof.
  intros Hn H0 Hstep.
  assert (Hgen : forall m, 0 <= m -> m <= n -> I m (fold_left f (upto m) a)).
  { intros m Hm. pattern m. apply natlike_ind; [ | | exact Hm].
    - intros _. exact H0.
    - intros k Hk IH Hle. change (Z.succ k) with (k + 1).
      rewrite upto_succ by lia. rewrite fold_left_app. simpl.
      apply Hstep; [lia|]. apply IH. lia. }
  apply Hgen; lia.
Qed.

Section Scan.
Variable img : Image.

Lemma scan_pixel_inv k j b :
  0 <= k < height img -> 0 <= j < width img ->
  scan_inv img k j b -> scan_inv img k (j + 1) (scan_pixel img k b j).
Proof.
  intros Hk Hj. destruct b as [[[minX maxX] minY] maxY].
  unfold scan_inv, scan_pixel. intros (Hall & HmX & HMX & HmY & HMY).
  destruct (isTransparent img j k) eqn:Ht.
  - assert (Hjk : transparent_at img j k) by (split; [split; lia | exact Ht]).
    split; [| repeat split].
    + intros x y [Him Hv] Hxy.
      destruct (Z.eq_dec x j) as [-> | Hne].
      * destruct (Z.eq_dec y k) as [-> | Hney]; [lia|].
        assert (Hold : visited img k j j y) by (split; [exact Him | lia]).
        specialize (Hall _ _ Hold Hxy). lia.
      * assert (Hold : visited img k j x y) by (split; [exact Him | lia]).
        specialize (Hall _ _ Hold Hxy). lia.
    + destruct (Z.min_spec minX j) as [[_ ->] | [_ ->]]; [exact HmX | right; eauto].
    + destruct (Z.max_spec maxX j) as [[_ ->] | [_ ->]]; [right; eauto | exact HMX].
    + destruct (Z.min_spec minY k) as [[_ ->] | [_ ->]]; [exact HmY | right; eauto].
    + destruct (Z.max_spec maxY k) as [[_ ->] | [_ ->]]; [right; eauto | exact HMY].
  - split; [| repeat split; assumption].
    intros x y [Him Hv] Hxy.
    destruct (Z.eq_dec x j) as [-> | Hne].
    + destruct (Z.eq_dec y k) as [-> | Hney]; [congruence|].
      apply Hall; [split; [exact Him | lia] | exact Hxy].
    + apply Hall; [split; [exact Him | lia] | exact Hxy].
Qed.

Lemma scan_inv_next_row k b :
  scan_inv img k (width img) b -> scan_inv img (k + 1) 0 b.
Proof.
  destruct b as [[[minX maxX] minY] maxY]. unfold scan_inv.
  intros (Hall & Hrest). split; [| exact Hrest].
  intros x y [Him Hv] Hxy. apply Hall; [| exact Hxy].
  split; [exact Him |]. destruct Him as [Hx Hy]. lia.
Qed.

Lemma scan_row_inv k b :
  0 <= k < height img ->
  scan_inv img k 0 b -> scan_inv img (k + 1) 0 (scan_row img b k).
Proof.
  intros Hk Hb. apply scan_inv_next_row. unfold scan_row.
  destruct (Z_le_gt_dec 0 (width img)) as [Hw | Hw].
  - apply (fold_upto_ind (scan_pixel img k) (scan_inv img k)); [exact Hw | exact Hb |].
    intros j s Hj Hs. now apply scan_pixel_inv.
  - rewrite upto_nonpos by lia. simpl.
    destruct b as [[[minX maxX] minY] maxY]. unfold scan_inv in *.
    destruct Hb as (Hall & Hrest). split; [| exact Hrest].
    intros x y [[Hx Hy] Hv]. lia.
Qed.

Lemma scan_inv_final :
  0 <= height img -> scan_inv img (height img) 0 (scan img).
Proof.
  intros Hh. unfold scan.
  apply (fold_upto_ind (scan_row img) (fun k => scan_inv img k 0)); [exact Hh | |].
  - unfold scan_inv. split; [| repeat split; left; reflexivity].
    intros x y [[Hx Hy] Hv]. lia.
  - intros k s Hk Hs. now apply scan_row_inv.
Qed.

(** The first scan computes the bounding box of the transparent pixels. *)
Lemma scan_bounding_box b : is_bounding_box img b -> scan img = b.
Proof.
  destruct b as [[[minX maxX] minY] maxY].
  intros (Hall & [y1 H1] & [y2 H2] & [x3 H3] & [x4 H4]).
  assert (Hh : 0 <= height img) by (destruct H1 as [[_ ?] _]; lia).
  pose proof (scan_inv_final Hh) as Hinv.
  destruct (scan img) as [[[a b] c] d]. unfold scan_inv in Hinv.
  destruct Hinv as (Hvis & Ha & Hb & Hc & Hd).
  assert (Hin : forall x y, transparent_at img x y -> a <= x <= b /\ c <= y <= d).
  { intros x y [Him Ht]. apply Hvis; [| exact Ht].
    split; [exact Him |]. destruct Him as [_ Hy]. lia. }
  pose proof (Hin _ _ H1) as B1. pose proof (Hin _ _ H2) as B2.
  pose proof (Hin _ _ H3) as B3. pose proof (Hin _ _ H4) as B4.
  destruct H1 as [[I1 I1'] _], H2 as [[I2 I2'] _], H3 as [[I3 I3'] _], H4 as [[I4 I4'] _].
  destruct Ha as [-> | [ya Ha]]; [lia|]. destruct Hb as [-> | [yb Hb]]; [lia|].
  destruct Hc as [-> | [xc Hc]]; [lia|]. destruct Hd as [-> | [xd Hd]]; [lia|].
  apply Hall in Ha, Hb, Hc, Hd.
  repeat f_equal; lia.
Qed.

(** With no transparent pixel the scan leaves [maxX] at [-1]. *)
Lemma scan_no_transparent :
  (forall x y, in_image img x y -> isTransparent img x y = false) ->
  snd (fst (fst (scan img))) = -1.
Proof.
  intros Hnone.
  destruct (Z_le_gt_dec 0 (height img)) as [Hh | Hh].
  - pose proof (scan_inv_final Hh) as Hinv.
    destruct (scan img) as [[[a b] c] d]. simpl.
    destruct Hinv as (_ & _ & [-> | [y [Him Ht]]] & _); [reflexivity|].
    rewrite Hnone in Ht by exact Him. discriminate.
  - unfold scan. rewrite upto_nonpos by lia. reflexivity.
Qed.

End Scan.

Section Search.
Variable img : Image.

Lemma rect_valid_perimeter r :
  rect_valid img r = true <-> perimeter_transparent img r.
Proof.
  unfold rect_valid, isRectangleValid, perimeter_transparent.
  rewrite andb_true_iff, !forallb_forall. split.
  - intros [Hw Hh]. split; intros i Hi.
    + apply andb_true_iff. apply Hw. now apply In_upto.
    + apply andb_true_iff. apply Hh. now apply In_upto.
  - intros [Hw Hh]. split; intros i Hi%In_upto; apply andb_true_iff; auto.
Qed.

Lemma testPercentages_range :
  forall pct, In pct testPercentages -> (0 <= pct)%Q /\ (pct <= 96 # 100)%Q.
Proof.
  assert (H : forallb (fun p => Qle_bool 0 p && Qle_bool p (96 # 100)) testPercentages = true)
    by (vm_compute; reflexivity).
  intros pct Hin. rewrite forallb_forall in H. specialize (H pct Hin).
  apply andb_true_iff in H as [H1 H2]. split; now apply Qle_bool_iff.
Qed.

(** The bounds test of the loop never rejects a candidate: every tested
    rectangle lies inside a non-empty bounding box. *)
Lemma candidate_within_bounds minX maxX minY maxY pct :
  minX <= maxX -> minY <= maxY -> In pct testPercentages ->
  within_bounds (minX, maxX, minY, maxY) (candidate (minX, maxX, minY, maxY) pct) = true.
Proof.
  intros Hx Hy Hin. destruct (testPercentages_range pct Hin) as [H0 H1].
  pose proof (JsFacts.floor_mul_bounds (maxX - minX + 1) pct ltac:(lia) H0 H1) as Hw.
  pose proof (JsFacts.floor_mul_bounds (maxY - minY + 1) pct ltac:(lia) H0 H1) as Hh.
  unfold within_bounds, candidate. cbn [Rect.x Rect.y Rect.width Rect.height].
  set (tw := floor_mul (maxX - minX + 1) pct) in *.
  set (th := floor_mul (maxY - minY + 1) pct) in *.
  clearbody tw th.
  rewrite !andb_true_iff, !Z.leb_le.
  repeat split; Z.to_euclidean_division_equations; lia.
Qed.

Lemma search_skip b pct rest best :
  within_bounds b (candidate b pct) = false ->
  search img b (pct :: rest) best = search img b rest best.
Proof. intros H. simpl. now rewrite H. Qed.

Lemma search_break b pct rest best :
  within_bounds b (candidate b pct) = true ->
  rect_valid img (candidate b pct) = false ->
  search img b (pct :: rest) best = best.
Proof. intros H1 H2. simpl. now rewrite H1, H2. Qed.

Lemma search_keep b pct rest best :
  within_bounds b (candidate b pct) = true ->
  rect_valid img (candidate b pct) = true ->
  search img b (pct :: rest) best = search img b rest (candidate b pct).
Proof. intros H1 H2. simpl. now rewrite H1, H2. Qed.

(** A run of candidates that fail the bounds test leaves the search where
    it was: the percentages after the run are still tested. *)
Lemma search_skips b skipped rest best :
  (forall p, In p skipped -> within_bounds b (candidate b p) = false) ->
  search img b (skipped ++ rest) best = search img b rest best.
Proof.
  induction skipped as [| p skipped IH]; intros Hout; [reflexivity|].
  rewrite <- app_comm_cons, search_skip by (apply Hout; now left).
  apply IH. intros q Hq. apply Hout. now right.
Qed.

(** No candidate passes both tests: the initial [best] is returned. *)
Lemma search_none b pcts best :
  (forall pct, In pct pcts ->
     within_bounds b (candidate b pct) && rect_valid img (candidate b pct) = false) ->
  search img b pcts best = best.
Proof.
  induction pcts as [| pct rest IH]; intros Hnone; [reflexivity|].
  simpl. pose proof (Hnone pct (or_introl eq_refl)) as H.
  destruct (within_bounds b (candidate b pct)); simpl in H.
  - now rewrite H.
  - apply IH. intros q Hq. apply Hnone. now right.
Qed.

(** The search returns the last candidate of the longest valid prefix. *)
Lemma search_prefix b valid rest best :
  (forall pct, In pct (valid ++ rest) -> within_bounds b (candidate b pct) = true) ->
  (forall pct, In pct valid -> rect_valid img (candidate b pct) = true) ->
  match rest with
  | [] => True
  | pct :: _ => rect_valid img (candidate b pct) = false
  end ->
  search img b (valid ++ rest) best = List.last (map (candidate b) valid) best.
Proof.
  revert best. induction valid as [| p valid IH]; intros best Hin Hval Hrest.
  - simpl. destruct rest as [| q rest]; [reflexivity|].
    apply search_break; [apply Hin; now left | exact Hrest].
  - rewrite <- app_comm_cons.
    rewrite search_keep by (try apply Hin; try apply Hval; now left).
    rewrite IH.
    + simpl. destruct (map (candidate b) valid) eqn:Hm; [reflexivity|].
      clear. revert t. induction l as [| a l IHl]; intros t; [reflexivity|].
      simpl. destruct l; [reflexivity|]. apply (IHl a).
    + intros q Hq. apply Hin. now right.
    + intros q Hq. apply Hval. now right.
    + exact Hrest.
Qed.

Lemma bounding_box_nonempty minX maxX minY maxY :
  is_bounding_box img (minX, maxX, minY, maxY) -> minX <= maxX /\ minY <= maxY.
Proof.
  intros (Hall & [y1 H1] & _ & [x3 H3] & _).
  apply Hall in H1, H3. lia.
Qed.

Lemma bounding_box_maxX minX maxX minY maxY :
  is_bounding_box img (minX, maxX, minY, maxY) -> 0 <= maxX.
Proof. intros (_ & _ & [y2 [[H2 _] _]] & _). lia. Qed.

(** A bounding box whose four corners are fully transparent exists only for
    a frame the detector classifies as rectangular. *)
Lemma detect_rectangular minX maxX minY maxY :
  4 <= channels img ->
  is_bounding_box img (minX, maxX, minY, maxY) ->
  isRectangularFrame img (minX, maxX, minY, maxY) = true ->
  detectTransparentCutout img
  = Ok (Rect.mk minX minY (even_down (maxX - minX + 1)) (even_down (maxY - minY + 1))).
Proof.
  intros Hc Hbb Hrect. unfold detectTransparentCutout, detect_body.
  destruct (channels img <? 4) eqn:Hch; [apply Z.ltb_lt in Hch; lia|].
  rewrite (scan_bounding_box img _ Hbb).
  pose proof (bounding_box_maxX _ _ _ _ Hbb) as HM.
  destruct (maxX =? -1) eqn:HmX; [apply Z.eqb_eq in HmX; lia|].
  now rewrite Hrect.
Qed.

Lemma detect_rounded minX maxX minY maxY :
  4 <= channels img ->
  is_bounding_box img (minX, maxX, minY, maxY) ->
  isRectangularFrame img (minX, maxX, minY, maxY) = false ->
  detectTransparentCutout img
  = let best := search img (minX, maxX, minY, maxY) testPercentages (Rect.mk minX minY 0 0) in
    Ok (Rect.mk (Rect.x best) (Rect.y best)
                (even_down (Rect.width best)) (even_down (Rect.height best))).
Proof.
  intros Hc Hbb Hrect. unfold detectTransparentCutout, detect_body.
  destruct (channels img <? 4) eqn:Hch; [apply Z.ltb_lt in Hch; lia|].
  rewrite (scan_bounding_box img _ Hbb).
  pose proof (bounding_box_maxX _ _ _ _ Hbb) as HM.
  destruct (maxX =? -1) eqn:HmX; [apply Z.eqb_eq in HmX; lia|].
  now rewrite Hrect.
Qed.

Lemma even_down_spec n :
  0 <= n -> Z.even (even_down n) = true /\ n - 1 <= even_down n <= n.
Proof.
  intros Hn. unfold even_down. destruct (Z.rem n 2 =? 0) eqn:Hr.
  - apply Z.eqb_eq in Hr. rewrite Z.rem_mod_nonneg in Hr by lia.
    split; [| lia]. rewrite Zeven_mod. now apply Z.eqb_eq.
  - apply Z.eqb_neq in Hr. rewrite Z.rem_mod_nonneg in Hr by lia.
    split; [| lia]. rewrite Zeven_mod. apply Z.eqb_eq.
    Z.to_euclidean_division_equations. lia.
Qed.

End Search.

Section Buffers.

Lemma lookup_upto n x : 0 <= x < n -> upto n !! Z.to_nat x = Some x.
Proof.
  intros Hx. unfold upto. rewrite list_lookup_fmap.
  rewrite lookup_seq_lt by lia. simpl. f_equal. lia.
Qed.

Lemma lookup_flat_map_blocks {A B : Type} (f : A -> list B) (k : nat) (l : list A) :
  (forall a, length (f a) = k) ->
  forall i j a, l !! i = Some a -> (j < k)%nat ->
  flat_map f l !! (i * k + j)%nat = f a !! j.
Proof.
  intros Hlen. induction l as [| b l IH]; intros i j a Hi Hj; [discriminate|].
  simpl. destruct i as [| i].
  - injection Hi as ->. simpl. apply lookup_app_l. rewrite Hlen. exact Hj.
  - simpl in Hi. rewrite lookup_app_r by (rewrite Hlen; lia).
    rewrite Hlen. replace (S i * k + j - k)%nat with (i * k + j)%nat by lia.
    now apply IH.
Qed.

Lemma length_flat_map_blocks {A B : Type} (f : A -> list B) (k : nat) (l : list A) :
  (forall a, length (f a) = k) -> length (flat_map f l) = (length l * k)%nat.
Proof.
  intros Hlen. induction l as [| b l IH]; [reflexivity|].
  simpl. rewrite length_app, Hlen, IH. lia.
Qed.

Lemma length_upto n : length (upto n) = Z.to_nat n.
Proof. unfold upto. now rewrite length_map, length_seq. Qed.

(** The alpha sample the detector reads at [(x, y)] of an [rgba] buffer. *)
Lemma isTransparent_rgba w h alpha x y :
  0 <= x < w -> 0 <= y < h ->
  isTransparent (rgba w h alpha) x y = (alpha x y =? 0).
Proof.
  intros Hx Hy. unfold isTransparent, buffer_get, rgba. cbn [width channels data].
  destruct ((y * w + x) * 4 + 3 <? 0) eqn:Hneg; [apply Z.ltb_lt in Hneg; nia|].
  set (px := fun y x : Z => [0; 0; 0; alpha x y]).
  set (row := fun y : Z => flat_map (px y) (upto w)).
  assert (Hrow : forall a, length (row a) = (Z.to_nat w * 4)%nat).
  { intros a. unfold row. rewrite (length_flat_map_blocks _ 4) by reflexivity.
    now rewrite length_upto. }
  replace (Z.to_nat ((y * w + x) * 4 + 3))
    with (Z.to_nat y * (Z.to_nat w * 4) + (Z.to_nat x * 4 + 3))%nat by nia.
  rewrite (lookup_flat_map_blocks row (Z.to_nat w * 4) (upto h) Hrow _ _ y)
    by (try apply lookup_upto; lia).
  unfold row.
  rewrite (lookup_flat_map_blocks (px y) 4 (upto w) ltac:(reflexivity) _ _ x)
    by (try apply lookup_upto; lia).
  reflexivity.
Qed.

(** The bounding box of a rectangular punch-out is the punch-out. *)
Lemma punched_bounding_box w h x0 y0 x1 y1 :
  0 <= x0 <= x1 -> x1 < w -> 0 <= y0 <= y1 -> y1 < h ->
  is_bounding_box (punched w h x0 y0 x1 y1) (x0, x1, y0, y1).
Proof.
  intros Hx Hxw Hy Hyh.
  assert (Hin : forall x y, transparent_at (punched w h x0 y0 x1 y1) x y
                            <-> (x0 <= x <= x1 /\ y0 <= y <= y1)).
  { intros x y. unfold transparent_at, in_image, punched. cbn [width height rgba].
    split.
    - intros [[Hx' Hy'] Ht]. rewrite isTransparent_rgba in Ht by lia.
      unfold inside in Ht.
      destruct (x0 <=? x) eqn:E1, (x <=? x1) eqn:E2, (y0 <=? y) eqn:E3, (y <=? y1) eqn:E4;
        simpl in Ht; try discriminate. lia.
    - intros [Hx' Hy']. split; [lia|]. rewrite isTransparent_rgba by lia.
      unfold inside.
      destruct (x0 <=? x) eqn:E1, (x <=? x1) eqn:E2, (y0 <=? y) eqn:E3, (y <=? y1) eqn:E4;
        simpl; try reflexivity; lia. }
  unfold is_bounding_box. split; [| repeat split].
  - intros x y Ht. now apply Hin.
  - exists y0. apply Hin. lia.
  - exists y0. apply Hin. lia.
  - exists x0. apply Hin. lia.
  - exists x0. apply Hin. lia.
Qed.

Lemma punched_corners w h x0 y0 x1 y1 :
  0 <= x0 <= x1 -> x1 < w -> 0 <= y0 <= y1 -> y1 < h ->
  forall c, In c (corners (x0, x1, y0, y1)) ->
            isTransparent (punched w h x0 y0 x1 y1) (fst c) (snd c) = true.
Proof.
  intros Hx Hxw Hy Hyh c Hc. unfold punched.
  simpl in Hc. destruct Hc as [<- | [<- | [<- | [<- | []]]]]; simpl;
    rewrite isTransparent_rgba by lia; unfold inside;
    repeat match goal with
           | |- context [?a <=? ?b] =>
               let E := fresh in destruct (Z.leb_spec a b) as [E | E]; [| lia]
           end; reflexivity.
Qed.

End Buffers.

Section Classification.
Variable img : Image.

(** The scan finds the bounding box whenever a transparent pixel exists. *)
Lemma scan_finds_bounding_box x y :
  transparent_at img x y -> is_bounding_box img (scan img).
Proof.
  intros Hxy.
  assert (Hh : 0 <= height img) by (destruct Hxy as [[_ ?] _]; lia).
  pose proof (scan_inv_final img Hh) as Hinv.
  destruct (scan img) as [[[a b] c] d]. unfold scan_inv in Hinv.
  destruct Hinv as (Hvis & Ha & Hb & Hc & Hd).
  assert (Hin : forall x y, transparent_at img x y -> a <= x <= b /\ c <= y <= d).
  { intros x' y' [Him Ht]. apply Hvis; [| exact Ht].
    split; [exact Him |]. destruct Him as [_ Hy]. lia. }
  pose proof (Hin _ _ Hxy) as B. destruct Hxy as [[Ix Iy] _].
  unfold is_bounding_box. split; [exact Hin |].
  destruct Ha as [-> | Ha]; [lia|]. destruct Hb as [-> | Hb]; [lia|].
  destruct Hc as [-> | Hc]; [lia|]. destruct Hd as [-> | Hd]; [lia|].
  auto.
Qed.

Lemma rectangular_iff b :
  isRectangularFrame img b = true
  <-> forall c, In c (corners b) -> isTransparent img (fst c) (snd c) = true.
Proof. unfold isRectangularFrame. apply forallb_forall. Qed.

Lemma rounded_iff b :
  isRectangularFrame img b = false
  <-> exists c, In c (corners b) /\ isTransparent img (fst c) (snd c) = false.
Proof.
  unfold isRectangularFrame. generalize (corners b) as cs.
  induction cs as [| c cs IH]; simpl.
  - split; [discriminate | intros (c & [] & _)].
  - rewrite andb_false_iff, IH. split.
    + intros [Hc | (c' & Hin & Hc')]; [exists c; auto | exists c'; auto].
    + intros (c' & [<- | Hin] & Hc'); [left; exact Hc' | right; exists c'; auto].
Qed.

End Classification.

End DetectorFacts.


(* ===================================================================== *)
(** ** Cleanup *)
(* ===================================================================== *)

Module CleanupFacts.
Import Js Detector Render.
Local Open Scope job_scope.

Section WithEnv.
Variable env : Env.

Lemma unlink_caught p w :
  try_catch (unlink env p) (fun _ => ret tt) w = (Value tt, after_unlink env w p).
Proof.
  unfold try_catch, unlink, after_unlink, bind, modify, get, throw, ret.
  destruct (unlink_error env p); [reflexivity|].
  destruct (decide (p ∈ fs (with_op (UnlinkOp p) w))); reflexivity.
Qed.

Lemma unlink_all_value files w :
  unlink_all env files w = (Value tt, after_unlinks env files w).
Proof.
  revert w. induction files as [| f files IH]; intros w; [reflexivity|].
  cbn [unlink_all]. unfold bind at 1. rewrite unlink_caught. apply IH.
Qed.

(** The cleanup result, case by case. *)
Lemma performJobCleanup_value cd reason w :
  performJobCleanup env cd reason w
  = match sessionDir cd with
    | Some dir =>
        match rimraf_error env dir with
        | Some _ => (Value false, with_cleanup reason false (with_op (RimrafOp dir) w))
        | None =>
            (Value true,
             with_cleanup reason true
               (after_unlinks env (uploadedFiles cd)
                  (with_fs (filter (fun p => under dir p = false))
                           (with_op (RimrafOp dir) w))))
        end
    | None =>
        (Value true, with_cleanup reason true (after_unlinks env (uploadedFiles cd) w))
    end.
Proof.
  unfold performJobCleanup.
  destruct (sessionDir cd) as [dir |].
  - unfold rimraf. destruct (rimraf_error env dir) as [e |].
    + reflexivity.
    + unfold bind, try_catch, modify, ret. rewrite unlink_all_value. reflexivity.
  - unfold bind, try_catch, modify, ret. rewrite unlink_all_value. reflexivity.
Qed.

Lemma performJobCleanup_never_throws cd reason w :
  exists b w', performJobCleanup env cd reason w = (Value b, w').
Proof.
  rewrite performJobCleanup_value.
  destruct (sessionDir cd) as [dir |]; [destruct (rimraf_error env dir) |]; eauto.
Qed.

Lemma trace_after_unlinks files w :
  trace (after_unlinks env files w) = trace w ++ map (fun f => UnlinkOp (path f)) files.
Proof.
  unfold after_unlinks. revert w.
  induction files as [| f files IH]; intros w; simpl; [now rewrite app_nil_r|].
  rewrite IH. unfold after_unlink.
  destruct (unlink_error env (path f));
    [| destruct (decide (path f ∈ fs (with_op (UnlinkOp (path f)) w)))];
    simpl; now rewrite <- app_assoc.
Qed.

Lemma fs_after_unlink w p : fs (after_unlink env w p) ⊆ fs w.
Proof.
  unfold after_unlink.
  destruct (unlink_error env p); [reflexivity|].
  destruct (decide (p ∈ fs (with_op (UnlinkOp p) w))); [| reflexivity].
  cbn [fs with_fs with_op]. now apply subseteq_difference_l.
Qed.

Lemma fs_after_unlinks files w : fs (after_unlinks env files w) ⊆ fs w.
Proof.
  unfold after_unlinks. revert w.
  induction files as [| f files IH]; intros w; simpl; [reflexivity|].
  etransitivity; [apply IH | apply fs_after_unlink].
Qed.

Lemma after_unlinks_removes files w f :
  In f files -> unlink_error env (path f) = None ->
  path f ∉ fs (after_unlinks env files w).
Proof.
  unfold after_unlinks. revert w.
  induction files as [| g files IH]; intros w Hin Herr; [destruct Hin|].
  simpl. destruct Hin as [-> | Hin]; [| now apply IH].
  intros Hmem. apply (fs_after_unlinks files) in Hmem. revert Hmem.
  unfold after_unlink. rewrite Herr.
  destruct (decide (path f ∈ fs (with_op (UnlinkOp (path f)) w))) as [Hd | Hd].
  - cbn [fs with_fs with_op]. rewrite elem_of_difference, elem_of_singleton.
    intros [_ Hne]. now apply Hne.
  - exact Hd.
Qed.

(** Cleanup touches the file system, the removal trace and the cleanup
    log, nothing else. *)
Lemma performJobCleanup_shape cd reason w :
  exists b s t,
    performJobCleanup env cd reason w
    = (Value b, with_cleanup reason b (with_fs_trace s t w)).
Proof.
  assert (Hun : forall files w0, exists s t,
             after_unlinks env files w0 = with_fs_trace s t w0).
  { intros files. unfold after_unlinks.
    induction files as [| f files IH]; intros w0; simpl.
    - exists (fs w0), (trace w0). now destruct w0.
    - destruct (IH (after_unlink env w0 (path f))) as (s & t & ->).
      exists s, t. unfold after_unlink.
      destruct (unlink_error env (path f));
        [| destruct (decide (path f ∈ fs (with_op (UnlinkOp (path f)) w0)))];
        reflexivity. }
  rewrite performJobCleanup_value.
  destruct (sessionDir cd) as [dir |].
  - destruct (rimraf_error env dir).
    + exists false, (fs w), (trace w ++ [RimrafOp dir]). reflexivity.
    + destruct (Hun (uploadedFiles cd)
                    (with_fs (filter (fun p => under dir p = false))
                             (with_op (RimrafOp dir) w))) as (s & t & ->).
      exists true, s, t. reflexivity.
  - destruct (Hun (uploadedFiles cd) w) as (s & t & ->).
    exists true, s, t. reflexivity.
Qed.

End WithEnv.
End CleanupFacts.

(* ===================================================================== *)
(** ** Symbolic execution of the handler *)
(* ===================================================================== *)

Module RenderFacts.
Import Js Detector Render.
Local Open Scope job_scope.

(** Unfold the monad operations, leaving worlds as terms. *)
Ltac exec :=
  cbv beta iota zeta delta
    [bind ret modify get send on await runFFmpeg try_catch return_ throw diverge].

(** Compute the fields of a world built from the [with_*] updates. *)
Ltac proj :=
  cbn [fs headersSent writableEnded closed isRequestCancelled timer listeners sent
       cleanups trace frames with_fs with_response with_closed with_cancelled
       with_timer with_listener with_cleanup with_op with_frames with_fs_trace
       create initial id app fold_left map List.filter fst snd resEvent_eqb
       negb andb orb run_listener deliver run_timeout].

(** [Math.max(c, v)] is never below a positive floor [c]. *)
Lemma Math_max_floor c v r :
  Math_max (Fin c) v = Fin r -> (c <= r)%Q.
Proof.
  destruct v as [| | | q]; simpl; try discriminate.
  - intros [= <-]. apply Qle_refl.
  - destruct (Qle_bool c q) eqn:Hle; intros [= <-];
      [now apply Qle_bool_iff | apply Qle_refl].
Qed.



(** Replace a cleanup call in the goal by its shape. *)
Ltac cleanup_shape :=
  match goal with
  | |- context [performJobCleanup ?e ?cd ?r ?w] =>
      let b := fresh "b" in
      let s := fresh "s" in
      let t := fresh "t" in
      let H := fresh "H" in
      destruct (CleanupFacts.performJobCleanup_shape e cd r w) as (b & s & t & H);
      rewrite H; clear H
  end.

Section WithEnv.
Variable env : Env.

Lemma await_quiet s effect w :
  failure env s = None -> events env s = [] ->
  await env s effect w = (Value tt, effect w).
Proof. intros Hf He. unfold await. now rewrite Hf, He. Qed.

Lemma with_frames_nil w : with_frames [] w = w.
Proof.
  destruct w. unfold with_frames. simpl. f_equal.
  - apply (right_id_L ∅ (∪)).
  - apply app_nil_r.
Qed.

Lemma with_frames_app l1 l2 w :
  with_frames l2 (with_frames l1 w) = with_frames (l1 ++ l2) w.
Proof.
  unfold with_frames. simpl. f_equal.
  - rewrite map_app, list_to_set_app_L. now rewrite (assoc_L (∪)).
  - now rewrite app_assoc.
Qed.

Lemma window_empty b e : e <= b -> window b e = [].
Proof. intros H. unfold window. now rewrite DetectorFacts.upto_nonpos by lia. Qed.

Lemma window_0 n : window 0 n = upto n.
Proof.
  unfold window. rewrite Z.sub_0_r. rewrite <- (map_id (upto n)) at 2.
  apply map_ext. intros a. lia.
Qed.

Lemma window_cons b e : b < e -> window b e = b :: window (b + 1) e.
Proof.
  intros H. unfold window, upto.
  replace (Z.to_nat (e - b)) with (S (Z.to_nat (e - (b + 1)))) by lia.
  cbn [seq map]. rewrite <- seq_shift, !map_map.
  f_equal; [lia|]. apply map_ext. intros a. lia.
Qed.

Lemma window_split b m e : b <= m -> m <= e -> window b e = window b m ++ window m e.
Proof.
  intros Hbm Hme.
  remember (Z.to_nat (m - b)) as k eqn:Hk. revert b Hbm Hk.
  induction k as [| k IH]; intros b Hbm Hk.
  - assert (b = m) as -> by lia. now rewrite (window_empty m m) by lia.
  - rewrite (window_cons b e) by lia. rewrite (window_cons b m) by lia.
    rewrite (IH (b + 1)) by lia. reflexivity.
Qed.

Section Loop.
Variables (sessionDir : string) (cutout : Rect.t) (pageHeight : Z).
Variables (duration fps : num) (n : Z).
Hypothesis Hquiet : quiet env.
Hypothesis Htotal : totalFrames duration fps = Int n.

(** With enough fuel and no interruption the batch loop writes the frames
    [batchStart .. n-1] and ends normally. *)
Lemma batches_quiet fuel k batchStart w :
  isRequestCancelled w = false ->
  Z.max 0 (n - batchStart) < Z.of_nat fuel ->
  batches env sessionDir cutout pageHeight duration fps fuel k batchStart w
  = (Value tt,
     with_frames (map (frame_at env sessionDir cutout pageHeight duration fps)
                      (window batchStart n)) w).
Proof.
  destruct Hquiet as [Hf He].
  revert k batchStart w. induction fuel as [| fuel IH]; intros k b w Hc Hfuel; [lia|].
  cbn [batches]. rewrite Htotal. cbn [below min_index].
  destruct (b <? n) eqn:Hbn.
  - apply Z.ltb_lt in Hbn. exec. rewrite Hf, He. cbn [fold_left].
    proj. rewrite Hc.
    rewrite IH by (proj; try assumption; unfold BATCH_SIZE; lia).
    rewrite with_frames_app. f_equal. f_equal. rewrite <- map_app. f_equal.
    unfold BATCH_SIZE.
    destruct (Z.min_spec (b + 4) n) as [[Hlt ->] | [Hge ->]].
    + symmetry. apply window_split; lia.
    + rewrite (window_empty (b + 4) n) by lia. now rewrite app_nil_r.
  - apply Z.ltb_ge in Hbn. exec. rewrite window_empty by lia.
    simpl map. now rewrite with_frames_nil.
Qed.

End Loop.

(** The page height the frame loop works with: the uploaded page's, or the
    resized one when the page width differs from the cutout width. *)
Lemma detect_and_resize_quiet sessionDir pageFile pageHeight cut pw ph w :
  quiet env ->
  detectTransparentCutout (frame_image env) = Ok cut ->
  Rect.width cut <> 0 -> Rect.height cut <> 0 ->
  isRequestCancelled w = false ->
  page_meta env = (pw, ph) ->
  detect_and_resize env sessionDir pageFile pageHeight w
  = if Rect.width cut =? pw
    then (Value (cut, pageFile, pageHeight), w)
    else (Value (cut, path_join sessionDir "resized_page.png",
                 round_fin (fdiv (inject_Z (Rect.width cut))
                                 (fdiv (inject_Z pw) (inject_Z ph)))),
          create (path_join sessionDir "resized_page.png") w).
Proof.
  intros [Hf He] Hdet Hw Hh Hc Hmeta.
  unfold detect_and_resize. exec. rewrite !Hf, !He, Hdet. cbn [fold_left id].
  apply Z.eqb_neq in Hw, Hh. rewrite Hw, Hh. cbn [orb].
  rewrite Hc, Hmeta.
  destruct (Rect.width cut =? pw); reflexivity.
Qed.

(** *** The rejection of an oversize page *)

Lemma oversize_page_world fuel req pageUpload pw ph :
  page req = Some pageUpload ->
  failure env EnsureTmp = None -> events env EnsureTmp = [] ->
  failure env Mkdir = None -> events env Mkdir = [] ->
  failure env PageMetadata = None -> events env PageMetadata = [] ->
  page_meta env = (pw, ph) ->
  MAX_DIMENSION < pw \/ MAX_DIMENSION < ph ->
  exists W,
    run env fuel req = (Returned, W)
    /\ sent W
       = [{| status := 400;
             payload :=
               Json [("error", "Image dimensions too large. Maximum allowed: 4096x4096px");
                     ("current", (show pw ++ "x" ++ show ph ++ "px")%string)] |}]
    /\ cleanups W = [] /\ trace W = [] /\ frames W = []
    /\ fs W = fs (initial req) ∪ {[tmpRoot env]} ∪ {[path_join (tmpRoot env) "uploads"]}
              ∪ {[path_join (tmpRoot env) ("job_" ++ show (now env))]}.
Proof.
  intros Hpage F1 E1 F2 E2 F3 E3 Hmeta Hbig.
  assert (Hb : (MAX_DIMENSION <? pw) || (MAX_DIMENSION <? ph) = true).
  { apply orb_true_iff. rewrite !Z.ltb_lt. exact Hbig. }
  unfold run, render. exec. rewrite F1, E1, Hpage. exec. rewrite F2, E2. exec.
  rewrite F3, E3, Hmeta. exec. rewrite Hb. exec. cbn [fold_left].
  unfold settle, emit. proj.
  destruct (delivered env); proj; eexists; (split; [reflexivity|]); proj;
    repeat split; reflexivity.
Qed.

(** *** The frame log is only written by the batch loop *)

Lemma frames_performJobCleanup cd reason w :
  frames (snd (performJobCleanup env cd reason w)) = frames w.
Proof.
  destruct (CleanupFacts.performJobCleanup_shape env cd reason w) as (b & s & t & ->).
  reflexivity.
Qed.

Lemma frames_run_listener l w : frames (run_listener env l w) = frames w.
Proof.
  destruct l as [cd | | cd | cd | cd]; cbn [run_listener];
    try reflexivity;
    match goal with
    | |- context [if ?c then _ else _] => destruct c
    end;
    try reflexivity; now rewrite frames_performJobCleanup.
Qed.

Lemma frames_emit ev w : frames (emit env ev w) = frames w.
Proof.
  unfold emit.
  generalize (map snd (List.filter (fun p => resEvent_eqb ev (fst p)) (listeners w))).
  intros ls. revert w. induction ls as [| l ls IH]; intros w; [reflexivity|].
  cbn [fold_left]. now rewrite IH, frames_run_listener.
Qed.

Lemma frames_deliver w e : frames (deliver env w e) = frames w.
Proof.
  destruct e; cbn [deliver].
  - now rewrite frames_emit.
  - destruct (timer w) as [cd |]; [| reflexivity].
    unfold run_timeout.
    destruct (negb (headersSent (with_timer None w))
              && negb (isRequestCancelled (with_timer None w)));
      [now rewrite frames_performJobCleanup | reflexivity].
  - now rewrite frames_emit.
Qed.

Lemma frames_settle w : frames (settle env w) = frames w.
Proof.
  unfold settle. rewrite frames_deliver.
  destruct (writableEnded w && negb (closed w)); [| reflexivity].
  rewrite frames_emit. cbn [frames with_closed].
  destruct (delivered env); [apply frames_emit | reflexivity].
Qed.

(** *** Responses are only written by the handler *)

Lemma sent_performJobCleanup cd reason w :
  sent (snd (performJobCleanup env cd reason w)) = sent w.
Proof.
  destruct (CleanupFacts.performJobCleanup_shape env cd reason w) as (b & s & t & ->).
  reflexivity.
Qed.

Lemma sent_run_listener l w : sent (run_listener env l w) = sent w.
Proof.
  destruct l as [cd | | cd | cd | cd]; cbn [run_listener];
    try reflexivity;
    match goal with
    | |- context [if ?c then _ else _] => destruct c
    end;
    try reflexivity; now rewrite sent_performJobCleanup.
Qed.

Lemma sent_emit ev w : sent (emit env ev w) = sent w.
Proof.
  unfold emit.
  generalize (map snd (List.filter (fun p => resEvent_eqb ev (fst p)) (listeners w))).
  intros ls. revert w. induction ls as [| l ls IH]; intros w; [reflexivity|].
  cbn [fold_left]. now rewrite IH, sent_run_listener.
Qed.

Lemma sent_deliver w e : sent (deliver env w e) = sent w.
Proof.
  destruct e; cbn [deliver].
  - now rewrite sent_emit.
  - destruct (timer w) as [cd |]; [| reflexivity].
    unfold run_timeout.
    destruct (negb (headersSent (with_timer None w))
              && negb (isRequestCancelled (with_timer None w)));
      [now rewrite sent_performJobCleanup | reflexivity].
  - now rewrite sent_emit.
Qed.

Lemma sent_settle w : sent (settle env w) = sent w.
Proof.
  unfold settle. rewrite sent_deliver.
  destruct (writableEnded w && negb (closed w)); [| reflexivity].
  rewrite sent_emit. cbn [sent with_closed].
  destruct (delivered env); [apply sent_emit | reflexivity].
Qed.

(** *** The uninterrupted run *)

Lemma success_run fuel req pageUpload pw ph cut d f :
  quiet env ->
  page req = Some pageUpload ->
  page_meta env = (pw, ph) ->
  pw <= MAX_DIMENSION -> ph <= MAX_DIMENSION ->
  detectTransparentCutout (frame_image env) = Ok cut ->
  Rect.width cut <> 0 -> Rect.height cut <> 0 ->
  effective_duration req = Fin d ->
  effective_fps req = Fin f ->
  mul (Fin d) (Fin f) = Fin (rnd (d * f)) ->
  let n := round_fin (rnd (d * f)) in
  Z.max 0 n < Z.of_nat fuel ->
  let sd := path_join (tmpRoot env) ("job_" ++ show (now env)) in
  let pageHeight :=
    if Rect.width cut =? pw then ph
    else round_fin (fdiv (inject_Z (Rect.width cut)) (fdiv (inject_Z pw) (inject_Z ph))) in
  fst (run env fuel req) = Value tt
  /\ frames (snd (run env fuel req))
     = map (frame_at env sd cut pageHeight (Fin d) (Fin f)) (upto n)
  /\ sent (snd (run env fuel req))
     = [{| status := 200;
           payload := Video (path_join sd ("output_" ++ show (now env) ++ ".mp4")) |}].
Proof.
  intros Hq Hpage Hmeta Hpw Hph Hdet Hw Hh Hd Hf Hfin n Hfuel sd pageHeight.
  pose proof Hq as [HF HE].
  assert (Hb : (MAX_DIMENSION <? pw) || (MAX_DIMENSION <? ph) = false).
  { apply orb_false_iff. rewrite !Z.ltb_ge. auto. }
  unfold run, render. exec. rewrite ?HF, ?HE, Hpage. exec. rewrite ?HF, ?HE, Hmeta. exec.
  rewrite Hb. cbn [fold_left id].
  rewrite (detect_and_resize_quiet _ _ _ cut pw ph) by (try assumption; reflexivity).
  rewrite Hd, Hf. fold sd.
  assert (Htot : totalFrames (Fin d) (Fin f) = Int n).
  { unfold totalFrames, totalFrames_of. rewrite Hfin. reflexivity. }
  subst pageHeight.
  destruct (Rect.width cut =? pw); cbv beta iota;
    rewrite (batches_quiet sd cut _ (Fin d) (Fin f) n Hq Htot)
      by (try (rewrite Z.sub_0_r; exact Hfuel); reflexivity);
    proj; (split; [reflexivity|]); rewrite frames_settle, sent_settle, <- window_0;
    split; reflexivity.
Qed.

(** *** Every frame the loop writes is a [frame_at] *)

Lemma frames_fold_deliver evs w : frames (fold_left (deliver env) evs w) = frames w.
Proof.
  revert w. induction evs as [| e evs IH]; intros w; [reflexivity|].
  cbn [fold_left]. now rewrite IH, frames_deliver.
Qed.

Lemma batches_frames sessionDir cutout pageHeight duration fps fuel k batchStart w x :
  In x (frames (snd (batches env sessionDir cutout pageHeight duration fps
                             fuel k batchStart w))) ->
  In x (frames w)
  \/ exists i, x = frame_at env sessionDir cutout pageHeight duration fps i.
Proof.
  revert k batchStart w. induction fuel as [| fuel IH]; intros k b w; [now left|].
  cbn [batches]. destruct (below b (totalFrames duration fps)); [| now left].
  unfold bind at 1. unfold await.
  destruct (failure env (Batch k)) as [e |].
  - cbn [snd]. rewrite frames_fold_deliver. now left.
  - set (w1 := fold_left (deliver env) (events env (Batch k)) _).
    assert (Hw1 : forall y, In y (frames w1) ->
              In y (frames w)
              \/ exists i, y = frame_at env sessionDir cutout pageHeight duration fps i).
    { intros y. unfold w1. rewrite frames_fold_deliver. cbn [frames with_frames].
      rewrite in_app_iff, in_map_iff. intros [Hy | (i & <- & _)]; eauto. }
    unfold bind, get. destruct (isRequestCancelled w1).
    + cbn [return_ snd]. apply Hw1.
    + intros Hx. apply IH in Hx as [Hx | Hx]; [now apply Hw1 | now right].
Qed.

(** With an infinite frame count the loop goes on for as long as nothing
    interrupts it. *)
Lemma batches_endless sessionDir cutout pageHeight duration fps fuel k batchStart w :
  quiet env ->
  totalFrames duration fps = IPInf ->
  isRequestCancelled w = false ->
  fst (batches env sessionDir cutout pageHeight duration fps fuel k batchStart w) = Diverged.
Proof.
  intros [Hf He] Htot. revert k batchStart w.
  induction fuel as [| fuel IH]; intros k b w Hc; [reflexivity |].
  cbn [batches]. rewrite Htot. cbn [below min_index].
  exec. rewrite Hf, He. cbn [fold_left]. proj. rewrite Hc.
  apply IH. proj. exact Hc.
Qed.

(** With nothing to scroll the step and every offset are zero. *)
Lemma step_of_zero total : step_of 0 total = 0%Q.
Proof.
  destruct total as [| | | t]; try reflexivity. unfold step_of.
  destruct (1 <? t); [| reflexivity].
  unfold fdiv. apply JsFacts.rnd_zero. unfold Qdiv. apply Qmult_0_l.
Qed.

Lemma offset_of_zero i : offset_of 0 i = 0.
Proof.
  unfold offset_of, fmul. rewrite JsFacts.rnd_zero by apply Qmult_0_l. reflexivity.
Qed.

End WithEnv.
End RenderFacts.

(* ===================================================================== *)
(** ** The detector against its specification *)
(* ===================================================================== *)

Section DetectorSpec.
Import Js Detector DetectorFacts Scenarios.

(** C7.  A frame whose decoded buffer has fewer than four channels makes
    detection fail with the missing-alpha-channel error (the specification's
    [UnsupportedFormat]); no rectangle is returned. *)
Theorem detect_without_alpha_fails (img : Image) :
  channels img < 4 ->
  detectTransparentCutout img
  = Err "Failed to detect transparent cutout: Frame image must have an alpha channel (RGBA)"
  /\ forall r, detectTransparentCutout img <> Ok r.
Proof.
  intros Hc. unfold detectTransparentCutout, detect_body.
  apply Z.ltb_lt in Hc. rewrite Hc. split; [reflexivity | discriminate].
Qed.

Lemma detect_without_alpha_fails_witness :
  detectTransparentCutout rgb_frame
  = Err "Failed to detect transparent cutout: Frame image must have an alpha channel (RGBA)"
  /\ forall r, detectTransparentCutout rgb_frame <> Ok r.
Proof. apply (detect_without_alpha_fails rgb_frame). vm_compute. reflexivity. Defined.

(** C4.  When the four corners of the bounding box of the fully transparent
    pixels are fully transparent, detection returns that bounding box: same
    origin, each dimension truncated down to the nearest even number.  For
    the bounding box (19,20)-(799,1764) the cutout is (19,20,780,1744). *)
Theorem rectangular_cutout (img : Image) (minX maxX minY maxY : Z) :
  4 <= channels img ->
  is_bounding_box img (minX, maxX, minY, maxY) ->
  (forall c, In c (corners (minX, maxX, minY, maxY)) ->
             isTransparent img (fst c) (snd c) = true) ->
  let boundingWidth := maxX - minX + 1 in
  let boundingHeight := maxY - minY + 1 in
  detectTransparentCutout img
  = Ok (Rect.mk minX minY (even_down boundingWidth) (even_down boundingHeight))
  /\ Z.even (even_down boundingWidth) = true
  /\ Z.even (even_down boundingHeight) = true
  /\ boundingWidth - 1 <= even_down boundingWidth <= boundingWidth
  /\ boundingHeight - 1 <= even_down boundingHeight <= boundingHeight
  /\ ((minX, maxX, minY, maxY) = (19, 799, 20, 1764) ->
      detectTransparentCutout img = Ok (Rect.mk 19 20 780 1744)).
Proof.
  intros Hc Hbb Hcorners bw bh.
  pose proof (bounding_box_nonempty img _ _ _ _ Hbb) as [Hx Hy].
  assert (Hdet : detectTransparentCutout img
                 = Ok (Rect.mk minX minY (even_down bw) (even_down bh))).
  { apply detect_rectangular; [exact Hc | exact Hbb |].
    now apply rectangular_iff. }
  destruct (even_down_spec bw ltac:(unfold bw; lia)) as [Ew Bw].
  destruct (even_down_spec bh ltac:(unfold bh; lia)) as [Eh Bh].
  repeat split; try assumption; try lia.
  intros Heq. rewrite Hdet. unfold bw, bh. injection Heq as -> -> -> ->. reflexivity.
Qed.

(** The default frame of the README: 818x1784 with the punch-out
    (19,20)-(799,1764). *)
Lemma rectangular_cutout_witness :
  detectTransparentCutout (punched 818 1784 19 20 799 1764) = Ok (Rect.mk 19 20 780 1744).
Proof.
  refine (proj2 (proj2 (proj2 (proj2 (proj2
    (rectangular_cutout (punched 818 1784 19 20 799 1764) 19 799 20 1764 _ _ _))))) eq_refl).
  - simpl. lia.
  - apply punched_bounding_box; lia.
  - apply punched_corners; lia.
Defined.

(** C3.  For a frame classified as rounded (some corner of the bounding box
    is not fully transparent) the detector tries the rectangles at 50%, 55%,
    ..., 95% of the bounding box in this order, each centred on the centre
    of the box; a rectangle is valid exactly when every pixel of its four
    edges is fully transparent; the search ends at the first invalid
    rectangle and returns the last valid one with width and height truncated
    down to even.  When 50% and 55% are valid and 60% is not, the 55%
    rectangle is returned. *)
Theorem rounded_cutout_search (img : Image) (minX maxX minY maxY : Z) :
  4 <= channels img ->
  is_bounding_box img (minX, maxX, minY, maxY) ->
  (exists c, In c (corners (minX, maxX, minY, maxY))
             /\ isTransparent img (fst c) (snd c) = false) ->
  let b := (minX, maxX, minY, maxY) in
  let even r := Rect.mk (Rect.x r) (Rect.y r)
                        (even_down (Rect.width r)) (even_down (Rect.height r)) in
  (* the fractions and the rectangle tested for each *)
  testPercentages
  = map lit [5 # 10; 55 # 100; 6 # 10; 65 # 100; 7 # 10;
             75 # 100; 8 # 10; 85 # 100; 9 # 10; 95 # 100]
  /\ (forall pct,
        let w := floor_mul (maxX - minX + 1) pct in
        let h := floor_mul (maxY - minY + 1) pct in
        candidate b pct
        = Rect.mk ((minX + maxX) / 2 - w / 2) ((minY + maxY) / 2 - h / 2) w h)
  (* validity is transparency of the whole perimeter *)
  /\ (forall r, rect_valid img r = true <-> perimeter_transparent img r)
  (* stop at the first invalid fraction, keep the last valid one *)
  /\ (forall valid rest,
        testPercentages = valid ++ rest ->
        (forall pct, In pct valid -> perimeter_transparent img (candidate b pct)) ->
        match rest with
        | [] => True
        | pct :: _ => ~ perimeter_transparent img (candidate b pct)
        end ->
        detectTransparentCutout img
        = Ok (even (List.last (map (candidate b) valid) (Rect.mk minX minY 0 0))))
  /\ (perimeter_transparent img (candidate b (lit (5 # 10))) ->
      perimeter_transparent img (candidate b (lit (55 # 100))) ->
      ~ perimeter_transparent img (candidate b (lit (6 # 10))) ->
      detectTransparentCutout img = Ok (even (candidate b (lit (55 # 100))))).
Proof.
  intros Hc Hbb Hround b even.
  pose proof (bounding_box_nonempty img _ _ _ _ Hbb) as [Hx Hy].
  apply rounded_iff in Hround.
  assert (Hgen : forall valid rest,
               testPercentages = valid ++ rest ->
               (forall pct, In pct valid -> perimeter_transparent img (candidate b pct)) ->
               match rest with
               | [] => True
               | pct :: _ => ~ perimeter_transparent img (candidate b pct)
               end ->
               detectTransparentCutout img
               = Ok (even (List.last (map (candidate b) valid) (Rect.mk minX minY 0 0)))).
  { intros valid rest Hsplit Hvalid Hrest.
    rewrite (detect_rounded img _ _ _ _ Hc Hbb Hround). cbv zeta.
    fold b. rewrite Hsplit. rewrite (search_prefix img b valid rest).
    - reflexivity.
    - intros pct Hin. apply candidate_within_bounds; try assumption.
      now rewrite Hsplit.
    - intros pct Hin. apply rect_valid_perimeter. now apply Hvalid.
    - destruct rest as [| pct rest]; [exact I|].
      destruct (rect_valid img (candidate b pct)) eqn:Hv; [| reflexivity].
      exfalso. apply Hrest. now apply rect_valid_perimeter. }
  split; [reflexivity|]. split; [reflexivity|].
  split; [apply rect_valid_perimeter|]. split; [exact Hgen|].
  intros H50 H55 H60.
  apply (Hgen [lit (5 # 10); lit (55 # 100)]
              (map lit [6 # 10; 65 # 100; 7 # 10; 75 # 100; 8 # 10; 85 # 100; 9 # 10; 95 # 100])).
  - reflexivity.
  - intros pct [<- | [<- | []]]; assumption.
  - exact H60.
Qed.

Lemma rounded_cutout_search_witness :
  detectTransparentCutout rounded_frame = Ok (Rect.mk 4 4 10 10).
Proof.
  assert (Hbb : is_bounding_box rounded_frame (0, 19, 0, 19)).
  { replace (0, 19, 0, 19) with (scan rounded_frame) by (vm_compute; reflexivity).
    apply (scan_finds_bounding_box rounded_frame 9 9).
    split; [split; simpl; lia | vm_compute; reflexivity]. }
  assert (Hch : 4 <= channels rounded_frame) by (simpl; lia).
  assert (Hcorner : exists c, In c (corners (0, 19, 0, 19))
                              /\ isTransparent rounded_frame (fst c) (snd c) = false).
  { exists (0, 0). split; [left; reflexivity | vm_compute; reflexivity]. }
  pose proof (rounded_cutout_search rounded_frame 0 19 0 19 Hch Hbb Hcorner) as H.
  cbv zeta in H. destruct H as (_ & _ & Hv & _ & H55).
  rewrite H55.
  - vm_compute. reflexivity.
  - apply Hv. vm_compute. reflexivity.
  - apply Hv. vm_compute. reflexivity.
  - intros Hp. apply Hv in Hp. vm_compute in Hp. discriminate.
Defined.

(** C10.  In the rounded search candidates that fail the bounds test are
    skipped and the search goes on: the first candidate after them that
    passes the bounds test is still tested, it becomes the result and the
    search continues when its perimeter is valid, and it ends the search
    with the result found so far when it is not.  When no candidate passes
    both tests the detector returns the zero-area rectangle
    [(minX, minY, 0, 0)].  For the ten percentages of the program the bounds
    test never fails, so the search always ends at the first of them whose
    perimeter is not transparent. *)
Theorem rounded_search_skips_and_zero_area (img : Image) (minX maxX minY maxY : Z) :
  4 <= channels img ->
  is_bounding_box img (minX, maxX, minY, maxY) ->
  isRectangularFrame img (minX, maxX, minY, maxY) = false ->
  let b := (minX, maxX, minY, maxY) in
  (* skipped candidates do not end the search *)
  (forall skipped pct rest best,
      (forall p, In p skipped -> within_bounds b (candidate b p) = false) ->
      within_bounds b (candidate b pct) = true ->
      search img b (skipped ++ pct :: rest) best
      = if rect_valid img (candidate b pct)
        then search img b rest (candidate b pct)
        else best)
  (* a valid candidate after skipped ones is the result *)
  /\ (forall skipped pct best,
      (forall p, In p skipped -> within_bounds b (candidate b p) = false) ->
      within_bounds b (candidate b pct) = true ->
      rect_valid img (candidate b pct) = true ->
      search img b (skipped ++ [pct]) best = candidate b pct)
  (* no candidate passes both tests *)
  /\ ((forall pct, In pct testPercentages ->
         within_bounds b (candidate b pct) && rect_valid img (candidate b pct) = false) ->
      detectTransparentCutout img = Ok (Rect.mk minX minY 0 0))
  (* the percentages of the program always pass the bounds test *)
  /\ (forall pct, In pct testPercentages -> within_bounds b (candidate b pct) = true)
  /\ (rect_valid img (candidate b (lit (5 # 10))) = false ->
      detectTransparentCutout img = Ok (Rect.mk minX minY 0 0)).
Proof.
  intros Hc Hbb Hround b.
  pose proof (bounding_box_nonempty img _ _ _ _ Hbb) as [Hx Hy].
  assert (Hstep : forall skipped pct rest best,
             (forall p, In p skipped -> within_bounds b (candidate b p) = false) ->
             within_bounds b (candidate b pct) = true ->
             search img b (skipped ++ pct :: rest) best
             = if rect_valid img (candidate b pct)
               then search img b rest (candidate b pct)
               else best).
  { intros skipped pct rest best Hout Hin.
    rewrite (search_skips img b skipped (pct :: rest) best Hout).
    destruct (rect_valid img (candidate b pct)) eqn:Hv.
    - now apply search_keep.
    - now apply search_break. }
  assert (Hall : forall pct, In pct testPercentages ->
                             within_bounds b (candidate b pct) = true)
    by (intros pct Hin; now apply candidate_within_bounds).
  refine (conj Hstep (conj _ (conj _ (conj Hall _)))).
  - intros skipped pct best Hout Hin Hv.
    rewrite (Hstep skipped pct [] best Hout Hin), Hv. reflexivity.
  - intros Hnone.
    rewrite (detect_rounded img _ _ _ _ Hc Hbb Hround). cbv zeta. fold b.
    rewrite search_none by exact Hnone. reflexivity.
  - intros Hv.
    rewrite (detect_rounded img _ _ _ _ Hc Hbb Hround). cbv zeta. fold b.
    change testPercentages with ([] ++ lit (5 # 10) :: tl testPercentages).
    rewrite (Hstep [] (lit (5 # 10)) (tl testPercentages) (Rect.mk minX minY 0 0)).
    + rewrite Hv. reflexivity.
    + intros p [].
    + apply Hall. now left.
Qed.

(** On the rounded frame a 200% candidate leaves the bounding box and is
    skipped; the 50% candidate after it is adopted, and a 95% candidate
    after it ends the search although a valid 50% candidate follows.  On the
    thin cross no percentage of the program is valid. *)
Lemma rounded_search_skips_and_zero_area_witness :
  search rounded_frame (0, 19, 0, 19) [2 # 1; lit (5 # 10)] (Rect.mk 0 0 0 0)
  = Rect.mk 4 4 10 10
  /\ search rounded_frame (0, 19, 0, 19) [2 # 1; lit (95 # 100); lit (5 # 10)]
            (Rect.mk 0 0 0 0)
     = Rect.mk 0 0 0 0
  /\ detectTransparentCutout cross_frame = Ok (Rect.mk 3 2 0 0).
Proof.
  assert (Hbb : is_bounding_box rounded_frame (0, 19, 0, 19)).
  { replace (0, 19, 0, 19) with (scan rounded_frame) by (vm_compute; reflexivity).
    apply (scan_finds_bounding_box rounded_frame 9 9).
    split; [split; simpl; lia | vm_compute; reflexivity]. }
  assert (Hch : 4 <= channels rounded_frame) by (simpl; lia).
  assert (Hround : isRectangularFrame rounded_frame (0, 19, 0, 19) = false)
    by (vm_compute; reflexivity).
  assert (Hbb' : is_bounding_box cross_frame (3, 20, 2, 21)).
  { replace (3, 20, 2, 21) with (scan cross_frame) by (vm_compute; reflexivity).
    apply (scan_finds_bounding_box cross_frame 11 11).
    split; [split; simpl; lia | vm_compute; reflexivity]. }
  assert (Hch' : 4 <= channels cross_frame) by (simpl; lia).
  assert (Hround' : isRectangularFrame cross_frame (3, 20, 2, 21) = false)
    by (vm_compute; reflexivity).
  pose proof (rounded_search_skips_and_zero_area rounded_frame 0 19 0 19 Hch Hbb Hround) as H.
  pose proof (rounded_search_skips_and_zero_area cross_frame 3 20 2 21 Hch' Hbb' Hround') as H'.
  cbv zeta in H, H'.
  destruct H as (Hstep & Hlast & _).
  destruct H' as (_ & _ & Hnone & _).
  assert (Hout : forall p, In p [2 # 1] ->
                   within_bounds (0, 19, 0, 19) (candidate (0, 19, 0, 19) p) = false)
    by (intros p [<- | []]; vm_compute; reflexivity).
  refine (conj _ (conj _ _)).
  - refine (eq_trans (Hlast [2 # 1] (lit (5 # 10)) (Rect.mk 0 0 0 0) Hout _ _) _);
      vm_compute; reflexivity.
  - refine (eq_trans (Hstep [2 # 1] (lit (95 # 100)) [lit (5 # 10)]
                            (Rect.mk 0 0 0 0) Hout _) _);
      vm_compute; reflexivity.
  - apply Hnone. intros pct Hin.
    assert (Hall : forallb (fun p => negb (within_bounds (3, 20, 2, 21) (candidate (3, 20, 2, 21) p)
                                           && rect_valid cross_frame (candidate (3, 20, 2, 21) p)))
                           testPercentages = true) by (vm_compute; reflexivity).
    rewrite forallb_forall in Hall. specialize (Hall pct Hin).
    now apply negb_true_iff in Hall.
Defined.

End DetectorSpec.

(* ===================================================================== *)
(** ** The job against its specification *)
(* ===================================================================== *)

Section JobSpec.
Import Js Detector Render RenderFacts CleanupFacts Scenarios.

(** C8, as the code has it.  The effective duration is [max(1, d)] when a
    non-zero numeric duration [d] is supplied and 8 when the field is
    absent, not numeric or zero; the effective fps is [max(12, f)] for a
    non-zero numeric [f] and 30 otherwise.  The numeric values include the
    infinities: [Infinity] stays [Infinity], [-Infinity] is raised to the
    floor.  The effective values are never below their floors. *)
Theorem effective_parameters (req : Request) :
  (forall d, duration req = Some (Fin d) -> ~ (d == 0)%Q ->
             effective_duration req = Fin (if Qle_bool 1 d then d else 1))
  /\ (forall d, duration req = Some (Fin d) -> (d == 0)%Q ->
                effective_duration req = Fin 8)
  /\ (duration req = None \/ duration req = Some NaN -> effective_duration req = Fin 8)
  /\ (forall f, fps req = Some (Fin f) -> ~ (f == 0)%Q ->
                effective_fps req = Fin (if Qle_bool 12 f then f else 12))
  /\ (forall f, fps req = Some (Fin f) -> (f == 0)%Q -> effective_fps req = Fin 30)
  /\ (fps req = None \/ fps req = Some NaN -> effective_fps req = Fin 30)
  /\ (forall d, effective_duration req = Fin d -> (1 <= d)%Q)
  /\ (forall f, effective_fps req = Fin f -> (12 <= f)%Q)
  /\ (duration req = Some PInf -> effective_duration req = PInf)
  /\ (duration req = Some NInf -> effective_duration req = Fin 1)
  /\ (fps req = Some PInf -> effective_fps req = PInf)
  /\ (fps req = Some NInf -> effective_fps req = Fin 12).
Proof.
  assert (Hz : forall q, is_zero q = true <-> (q == 0)%Q)
    by (intros q; apply Qeq_bool_iff).
  unfold effective_duration, effective_fps, or_else, Number.
  repeat split.
  - intros d -> Hd. simpl. destruct (is_zero d) eqn:E; [apply Hz in E; contradiction|].
    reflexivity.
  - intros d -> Hd. simpl. apply Hz in Hd. now rewrite Hd.
  - intros [-> | ->]; reflexivity.
  - intros f -> Hf. simpl. destruct (is_zero f) eqn:E; [apply Hz in E; contradiction|].
    reflexivity.
  - intros f -> Hf. simpl. apply Hz in Hf. now rewrite Hf.
  - intros [-> | ->]; reflexivity.
  - intros d. apply Math_max_floor.
  - intros f. apply Math_max_floor.
  - intros ->. reflexivity.
  - intros ->. reflexivity.
  - intros ->. reflexivity.
  - intros ->. reflexivity.
Qed.

Lemma effective_parameters_witness :
  effective_duration (request (Some (Fin 5)) (Some (Fin 24))) = Fin 5
  /\ effective_fps (request (Some (Fin 5)) (Some (Fin 24))) = Fin 24
  /\ effective_duration (request (Some (Fin 0)) (Some (Fin 0))) = Fin 8
  /\ effective_fps (request (Some (Fin 0)) (Some (Fin 0))) = Fin 30
  /\ effective_duration (request None None) = Fin 8
  /\ effective_fps (request None None) = Fin 30
  /\ effective_duration (request (Some PInf) (Some NInf)) = PInf
  /\ effective_fps (request (Some PInf) (Some NInf)) = Fin 12.
Proof.
  pose proof (effective_parameters (request (Some (Fin 5)) (Some (Fin 24)))) as H1.
  pose proof (effective_parameters (request (Some (Fin 0)) (Some (Fin 0)))) as H2.
  pose proof (effective_parameters (request None None)) as H3.
  pose proof (effective_parameters (request (Some PInf) (Some NInf))) as H4.
  destruct H1 as (Hd1 & _ & _ & Hf1 & _).
  destruct H2 as (_ & Hd2 & _ & _ & Hf2 & _).
  destruct H3 as (_ & _ & Hd3 & _ & _ & Hf3 & _).
  destruct H4 as (_ & _ & _ & _ & _ & _ & _ & _ & Hd4 & _ & _ & Hf4).
  refine (conj _ (conj _ (conj _ (conj _ (conj _ (conj _ (conj _ _))))))).
  - apply (Hd1 5%Q); [reflexivity | discriminate].
  - apply (Hf1 24%Q); [reflexivity | discriminate].
  - apply (Hd2 0%Q); reflexivity.
  - apply (Hf2 0%Q); reflexivity.
  - apply Hd3. now left.
  - apply Hf3. now left.
  - apply Hd4. reflexivity.
  - apply Hf4. reflexivity.
Defined.

(** C8 as stated fails for a supplied duration (or fps) of zero: the value
    is replaced by the default 8 (or 30), not floored to 1 (or 12). *)
Lemma zero_duration_takes_default :
  effective_duration (request (Some (Fin 0)) (Some (Fin 0))) = Fin 8
  /\ effective_duration (request (Some (Fin 0)) (Some (Fin 0))) <> Math_max (Fin 1) (Fin 0)
  /\ effective_fps (request (Some (Fin 0)) (Some (Fin 0))) = Fin 30
  /\ effective_fps (request (Some (Fin 0)) (Some (Fin 0))) <> Math_max (Fin 12) (Fin 0).
Proof. repeat split; try reflexivity; discriminate. Qed.



(** Beyond the bound of C5: a product that overflows makes [totalFrames]
    infinite, and a job that nothing interrupts never leaves the frame
    loop. *)
Lemma infinite_frame_count_never_ends (env : Env) (fuel : nat) (req : Request)
    (pageUpload : string) (pw ph : Z) (cut : Rect.t) :
  quiet env ->
  page req = Some pageUpload ->
  page_meta env = (pw, ph) ->
  pw <= MAX_DIMENSION -> ph <= MAX_DIMENSION ->
  detectTransparentCutout (frame_image env) = Ok cut ->
  Rect.width cut <> 0 -> Rect.height cut <> 0 ->
  totalFrames_of (effective_duration req) (effective_fps req) = IPInf ->
  fst (run env fuel req) = Diverged.
Proof.
  intros Hq Hpage Hmeta Hpw Hph Hdet Hw Hh Htot.
  pose proof Hq as [HF HE].
  assert (Hb : (MAX_DIMENSION <? pw) || (MAX_DIMENSION <? ph) = false).
  { apply orb_false_iff. rewrite !Z.ltb_ge. auto. }
  unfold run, render. exec. rewrite ?HF, ?HE, Hpage. exec. rewrite ?HF, ?HE, Hmeta. exec.
  rewrite Hb. cbn [fold_left id].
  rewrite (detect_and_resize_quiet _ _ _ _ cut pw ph) by (try assumption; reflexivity).
  destruct (Rect.width cut =? pw); cbv beta iota;
    match goal with
    | |- context [batches ?e ?sd ?c ?h ?d ?f ?fu ?k ?b ?w] =>
        pose proof (batches_endless e sd c h d f fu k b w Hq Htot eq_refl) as Hloop;
        destruct (batches e sd c h d f fu k b w) as [o w']
    end;
    cbn [fst] in Hloop; subst o; reflexivity.
Qed.

Example huge_duration_and_fps_overflow :
  totalFrames_of
    (effective_duration (request (Some (Fin (lit (inject_Z (10 ^ 200)))))
                                 (Some (Fin (lit (inject_Z (10 ^ 200)))))))
    (effective_fps (request (Some (Fin (lit (inject_Z (10 ^ 200)))))
                            (Some (Fin (lit (inject_Z (10 ^ 200)))))))
  = IPInf.
Proof. vm_compute. reflexivity. Qed.


Lemma calm_quiet page frame : quiet (calm page frame).
Proof. split; intros s; reflexivity. Qed.


(** C6.  When the page is not taller than the cutout, the scroll range is
    zero and every frame is cropped at offset zero, so all frames show the
    same image; the batch loop writes no other frames than these. *)
Theorem no_scroll_when_page_fits (env : Env) (sessionDir : string) (cut : Rect.t)
    (pageHeight : Z) (duration fps : num) :
  pageHeight <= Rect.height cut ->
  let frame := frame_at env sessionDir cut pageHeight duration fps in
  maxScroll cut pageHeight = 0
  /\ (forall i, crop_top (frame i) = 0)
  /\ (forall i j,
        crop_left (frame i) = crop_left (frame j)
        /\ crop_top (frame i) = crop_top (frame j)
        /\ crop_width (frame i) = crop_width (frame j)
        /\ crop_height (frame i) = crop_height (frame j)
        /\ offset_left (frame i) = offset_left (frame j)
        /\ offset_top (frame i) = offset_top (frame j)
        /\ canvas_width (frame i) = canvas_width (frame j)
        /\ canvas_height (frame i) = canvas_height (frame j))
  /\ (forall fuel k batchStart w x,
        In x (frames (snd (batches env sessionDir cut pageHeight duration fps
                                   fuel k batchStart w))) ->
        In x (frames w) \/ crop_top x = 0).
Proof.
  intros Hfit frame.
  assert (Hmax : maxScroll cut pageHeight = 0) by (unfold maxScroll; lia).
  assert (Htop : forall i, crop_top (frame i) = 0).
  { intros i. unfold frame. cbn [crop_top frame_at].
    unfold Render.step. rewrite Hmax, step_of_zero, offset_of_zero. lia. }
  split; [exact Hmax|]. split; [exact Htop|]. split.
  - intros i j. rewrite !Htop. repeat split.
  - intros fuel k b w x Hx.
    apply batches_frames in Hx as [Hx | [i ->]]; [now left | right; apply Htop].
Qed.

Lemma no_scroll_when_page_fits_witness :
  maxScroll (Rect.mk 0 0 4 4) 3 = 0
  /\ crop_top (frame_at small_env job_dir (Rect.mk 0 0 4 4) 3 (Fin 1) (Fin 12) 7) = 0.
Proof.
  pose proof (no_scroll_when_page_fits small_env job_dir (Rect.mk 0 0 4 4) 3 (Fin 1) (Fin 12)) as H.
  cbv zeta in H. destruct H as (Hmax & Htop & _).
  - simpl. lia.
  - split; [exact Hmax | apply Htop].
Defined.

(** C2, as the code has it.  A page wider or taller than 4096 is rejected
    with status 400 and a payload naming the limit and the page's
    dimensions, before the frame is looked at: whatever the frame image is,
    no detection runs and no frame is written.  (The frame's own dimensions
    are never compared with the limit.) *)
Theorem oversize_page_rejected (env : Env) (fuel : nat) (req : Request)
    (pageUpload : string) (pw ph : Z) :
  page req = Some pageUpload ->
  failure env EnsureTmp = None -> events env EnsureTmp = [] ->
  failure env Mkdir = None -> events env Mkdir = [] ->
  failure env PageMetadata = None -> events env PageMetadata = [] ->
  page_meta env = (pw, ph) ->
  MAX_DIMENSION < pw \/ MAX_DIMENSION < ph ->
  MAX_DIMENSION = 4096
  /\ fst (run env fuel req) = Returned
  /\ sent (snd (run env fuel req))
     = [{| status := 400;
           payload :=
             Json [("error", "Image dimensions too large. Maximum allowed: 4096x4096px");
                   ("current", (show pw ++ "x" ++ show ph ++ "px")%string)] |}]
  /\ frames (snd (run env fuel req)) = [].
Proof.
  intros Hpage F1 E1 F2 E2 F3 E3 Hmeta Hbig.
  destruct (oversize_page_world env fuel req pageUpload pw ph
              Hpage F1 E1 F2 E2 F3 E3 Hmeta Hbig) as (W & -> & Hsent & _ & _ & Hframes & _).
  repeat split; assumption.
Qed.

Lemma oversize_page_rejected_witness :
  sent (snd (run oversize_page_env 10 (request None None)))
  = [{| status := 400;
        payload :=
          Json [("error", "Image dimensions too large. Maximum allowed: 4096x4096px");
                ("current", "5000x100px")] |}].
Proof.
  refine (proj1 (proj2 (proj2
    (oversize_page_rejected oversize_page_env 10 (request None None) page_upload 5000 100
       _ _ _ _ _ _ _ _ _)))); try reflexivity.
  left. vm_compute. reflexivity.
Defined.

(** C2 as stated fails for the frame: a 5000x5000 frame is not rejected,
    the job renders and delivers the video. *)
Lemma oversize_frame_is_rendered :
  width (frame_image oversize_frame_env) = 5000
  /\ height (frame_image oversize_frame_env) = 5000
  /\ fst (run oversize_frame_env 300 (request None None)) = Value tt
  /\ sent (snd (run oversize_frame_env 300 (request None None)))
     = [{| status := 200;
           payload := Video "/app/tmp/job_1758349793301/output_1758349793301.mp4" |}].
Proof.
  split; [reflexivity|]. split; [reflexivity|].
  destruct (success_run oversize_frame_env 300 (request None None) page_upload 780 3618
              (Rect.mk 10 10 780 1744) 8 30) as (Hout & _ & Hsent).
  - apply calm_quiet.
  - reflexivity.
  - reflexivity.
  - vm_compute. discriminate.
  - vm_compute. discriminate.
  - change (frame_image oversize_frame_env) with (punched 5000 5000 10 10 789 1753).
    rewrite (DetectorFacts.detect_rectangular _ 10 789 10 1753).
    + reflexivity.
    + simpl. lia.
    + apply DetectorFacts.punched_bounding_box; lia.
    + apply DetectorFacts.rectangular_iff. apply DetectorFacts.punched_corners; lia.
  - simpl. lia.
  - simpl. lia.
  - reflexivity.
  - reflexivity.
  - vm_compute. reflexivity.
  - vm_compute. reflexivity.
  - split; [exact Hout | exact Hsent].
Qed.

(** C1 at the oversize rejection.  The job ends with the 400 response, and
    [performJobCleanup] has not run: the working directory created for the
    job and the uploaded page are still there. *)
Theorem oversize_rejection_skips_cleanup (env : Env) (fuel : nat) (req : Request)
    (pageUpload : string) (pw ph : Z) :
  page req = Some pageUpload ->
  failure env EnsureTmp = None -> events env EnsureTmp = [] ->
  failure env Mkdir = None -> events env Mkdir = [] ->
  failure env PageMetadata = None -> events env PageMetadata = [] ->
  page_meta env = (pw, ph) ->
  MAX_DIMENSION < pw \/ MAX_DIMENSION < ph ->
  let final := snd (run env fuel req) in
  length (sent final) = 1%nat
  /\ cleanups final = []
  /\ trace final = []
  /\ path_join (tmpRoot env) ("job_" ++ show (now env)) ∈ fs final
  /\ pageUpload ∈ fs final.
Proof.
  intros Hpage F1 E1 F2 E2 F3 E3 Hmeta Hbig final.
  destruct (oversize_page_world env fuel req pageUpload pw ph
              Hpage F1 E1 F2 E2 F3 E3 Hmeta Hbig)
    as (W & HW & Hsent & Hclean & Htrace & _ & Hfs).
  unfold final. rewrite HW. cbn [snd].
  rewrite Hsent, Hclean, Htrace, Hfs.
  repeat split; try reflexivity.
  - apply elem_of_union_r, elem_of_singleton. reflexivity.
  - do 3 apply elem_of_union_l.
    cbn [fs initial]. unfold uploads_of. rewrite Hpage.
    rewrite map_app, list_to_set_app. cbn [map path list_to_set].
    apply elem_of_union_r, elem_of_union_l, elem_of_singleton. reflexivity.
Qed.

Lemma oversize_rejection_skips_cleanup_witness :
  cleanups (snd (run oversize_page_env 10 (request None None))) = []
  /\ job_dir ∈ fs (snd (run oversize_page_env 10 (request None None)))
  /\ page_upload ∈ fs (snd (run oversize_page_env 10 (request None None))).
Proof.
  pose proof (oversize_rejection_skips_cleanup oversize_page_env 10 (request None None)
                page_upload 5000 100) as H.
  cbv zeta in H. destruct H as (_ & Hclean & _ & Hdir & Hpage); try reflexivity.
  - left. vm_compute. reflexivity.
  - split; [exact Hclean |]. split; [exact Hdir | exact Hpage].
Defined.

(** The same happens at the two other rejections of the detection phase. *)
Lemma zero_area_rejection_skips_cleanup :
  sent (snd (run opaque_env 10 (request None None)))
  = [{| status := 400;
        payload := Json [("error", "Could not detect a transparent cutout in the frame image.")] |}]
  /\ cleanups (snd (run opaque_env 10 (request None None))) = []
  /\ job_dir ∈ fs (snd (run opaque_env 10 (request None None)))
  /\ page_upload ∈ fs (snd (run opaque_env 10 (request None None))).
Proof.
  split; [vm_compute; reflexivity|]. split; [vm_compute; reflexivity|].
  split; refine (bool_decide_eq_true_1 _ _); vm_compute; reflexivity.
Qed.

Lemma detection_error_skips_cleanup :
  sent (snd (run no_alpha_env 10 (request None None)))
  = [{| status := 400;
        payload :=
          Json [("error",
                 "Auto-detection failed: Failed to detect transparent cutout: Frame image must have an alpha channel (RGBA)")] |}]
  /\ cleanups (snd (run no_alpha_env 10 (request None None))) = []
  /\ job_dir ∈ fs (snd (run no_alpha_env 10 (request None None)))
  /\ page_upload ∈ fs (snd (run no_alpha_env 10 (request None None))).
Proof.
  split; [vm_compute; reflexivity|]. split; [vm_compute; reflexivity|].
  split; refine (bool_decide_eq_true_1 _ _); vm_compute; reflexivity.
Qed.

(** For comparison, a delivered job is cleaned up once and leaves nothing
    behind. *)
Lemma delivered_job_is_cleaned :
  cleanups (snd (run small_env 20 (request (Some (Fin 1)) (Some (Fin 12))))) = [("success", true)]
  /\ (job_dir ∉ fs (snd (run small_env 20 (request (Some (Fin 1)) (Some (Fin 12))))))
  /\ (page_upload ∉ fs (snd (run small_env 20 (request (Some (Fin 1)) (Some (Fin 12)))))).
Proof.
  split; [vm_compute; reflexivity|].
  split; refine (bool_decide_eq_true_1 _ _); vm_compute; reflexivity.
Qed.

(** C9 where the removal of the working directory fails.  The error is
    caught and [false] is returned, and the loop over the uploaded files is
    never reached: no unlink is attempted and every file stays. *)
Theorem cleanup_stops_when_rimraf_fails (env : Env) (cd : CleanupData)
    (reason : string) (w : World) (dir e : string) :
  sessionDir cd = Some dir ->
  rimraf_error env dir = Some e ->
  fst (performJobCleanup env cd reason w) = Value false
  /\ trace (snd (performJobCleanup env cd reason w)) = trace w ++ [RimrafOp dir]
  /\ fs (snd (performJobCleanup env cd reason w)) = fs w.
Proof.
  intros Hdir Herr. rewrite performJobCleanup_value, Hdir, Herr.
  repeat split.
Qed.

Lemma cleanup_stops_when_rimraf_fails_witness :
  fst (performJobCleanup busy_env job_files "render-error" job_world) = Value false
  /\ trace (snd (performJobCleanup busy_env job_files "render-error" job_world))
     = [RimrafOp job_dir]
  /\ page_upload ∈ fs (snd (performJobCleanup busy_env job_files "render-error" job_world)).
Proof.
  destruct (cleanup_stops_when_rimraf_fails busy_env job_files "render-error" job_world
              job_dir "EBUSY" eq_refl eq_refl) as (Hret & Htrace & Hfs).
  split; [exact Hret |]. split; [exact Htrace |].
  rewrite Hfs. refine (bool_decide_eq_true_1 _ _). vm_compute. reflexivity.
Defined.

(** The rest of C9 holds: cleanup never throws, and when the directory is
    removed every uploaded file is unlinked, missing ones included. *)
Lemma cleanup_never_throws (env : Env) (cd : CleanupData) (reason : string) (w : World) :
  exists b w', performJobCleanup env cd reason w = (Value b, w').
Proof. apply performJobCleanup_never_throws. Qed.

Lemma cleanup_unlinks_every_upload (env : Env) (cd : CleanupData) (reason : string)
    (w : World) (dir : string) :
  sessionDir cd = Some dir ->
  rimraf_error env dir = None ->
  fst (performJobCleanup env cd reason w) = Value true
  /\ trace (snd (performJobCleanup env cd reason w))
     = trace w ++ RimrafOp dir :: map (fun f => UnlinkOp (path f)) (uploadedFiles cd)
  /\ (forall f, In f (uploadedFiles cd) -> unlink_error env (path f) = None ->
                path f ∉ fs (snd (performJobCleanup env cd reason w))).
Proof.
  intros Hdir Hok. rewrite performJobCleanup_value, Hdir, Hok. cbn [fst snd].
  split; [reflexivity|]. split.
  - cbn [trace with_cleanup]. rewrite trace_after_unlinks. cbn [trace with_fs with_op].
    now rewrite <- app_assoc.
  - intros f Hin Herr. cbn [fs with_cleanup]. now apply after_unlinks_removes.
Qed.

End JobSpec.

(* ===================================================================== *)
(** ** Further properties of the numbers *)
(* ===================================================================== *)

Module NumberFacts.
Import Js JsFacts Render.

(** One rounding step moves a positive value down by at most one part in
    [2^52]. *)
Lemma rnd_pos_lower (n d : positive) :
  ((Zpos n # d) * (4503599627370496 # 4503599627370497)
   <= rnd_pos (Zpos n) (Zpos d))%Q.
Proof.
  pose proof (exponent_lower (Zpos n) (Zpos d) ltac:(lia) ltac:(lia)) as Hlow.
  cbv zeta in Hlow. unfold rnd_pos.
  set (s := 52 - exponent (Z.pos n) (Z.pos d)) in *.
  pose proof (scaled_pos (Zpos n) (Zpos d) s ltac:(lia) ltac:(lia)) as [HN HD].
  assert (Hrel : if 0 <=? s
                 then fst (scaled (Zpos n) (Zpos d) s) = Zpos n * 2 ^ s
                      /\ snd (scaled (Zpos n) (Zpos d) s) = Zpos d
                 else fst (scaled (Zpos n) (Zpos d) s) = Zpos n
                      /\ snd (scaled (Zpos n) (Zpos d) s) = Zpos d * 2 ^ (- s)).
  { unfold scaled. destruct (0 <=? s); simpl; split; reflexivity. }
  destruct (scaled (Z.pos n) (Z.pos d) s) as [N D]. simpl in *.
  set (m := N / D).
  assert (Hm1 : N < D * (m + 1)).
  { unfold m. pose proof (Z.mod_pos_bound N D HD).
    pose proof (Z.div_mod N D ltac:(lia)). nia. }
  assert (Hm2 : 2 ^ 52 <= m) by (apply Z.div_le_lower_bound; lia).
  set (m' := if (D <? 2 * (N mod D)) || ((D =? 2 * (N mod D)) && Z.odd m)
             then m + 1 else m).
  assert (Hm' : m <= m' <= m + 1).
  { unfold m'. destruct ((D <? 2 * (N mod D)) || ((D =? 2 * (N mod D)) && Z.odd m)); lia. }
  clearbody m m'. change (2 ^ 52) with 4503599627370496 in *.
  unfold unscaled. destruct (0 <=? s) eqn:Hs.
  - apply Z.leb_le in Hs. destruct Hrel as [-> ->].
    pose proof (pow2_pos s Hs) as Hp. set (p := 2 ^ s) in *. clearbody p.
    unfold Qle. simpl Qnum. simpl Qden.
    rewrite !Pos2Z.inj_mul, !Z2Pos.id by lia. nia.
  - apply Z.leb_gt in Hs. destruct Hrel as [-> ->].
    pose proof (pow2_pos (- s) ltac:(lia)) as Hp. set (p := 2 ^ (- s)) in *. clearbody p.
    unfold Qle, inject_Z. simpl Qnum. simpl Qden.
    rewrite ?Pos2Z.inj_mul. nia.
Qed.

Lemma rnd_lower q :
  (0 <= q)%Q -> (q * (4503599627370496 # 4503599627370497) <= rnd q)%Q.
Proof.
  destruct q as [[|n|n] d]; unfold rnd; simpl.
  - intros _. unfold Qle. simpl. lia.
  - intros _. apply rnd_pos_lower.
  - unfold Qle. simpl. lia.
Qed.

Lemma round_fin_lower (z : Z) (q : Q) :
  (inject_Z z - (1 # 2) <= q)%Q -> z <= round_fin q.
Proof.
  intros H. unfold round_fin.
  rewrite <- (Qfloor_Z z). apply Qfloor_resp_le. lra.
Qed.

(** The effective parameters are a finite number at or above the floor, or
    [Infinity]; never [NaN]. *)
Lemma effective_duration_cases req :
  effective_duration req = PInf
  \/ exists d, effective_duration req = Fin d /\ (1 <= d)%Q.
Proof.
  unfold effective_duration, or_else.
  destruct (truthy (Number (duration req))) eqn:Ht.
  - destruct (Number (duration req)) as [| | | q]; simpl in *; try discriminate.
    + now left.
    + right. exists 1%Q. split; [reflexivity | apply Qle_refl].
    + right. eexists. split; [reflexivity|].
      destruct (Qle_bool 1 q) eqn:E; [now apply Qle_bool_iff | apply Qle_refl].
  - right. exists 8%Q. split; [reflexivity | discriminate].
Qed.

Lemma effective_fps_cases req :
  effective_fps req = PInf
  \/ exists f, effective_fps req = Fin f /\ (12 <= f)%Q.
Proof.
  unfold effective_fps, or_else.
  destruct (truthy (Number (fps req))) eqn:Ht.
  - destruct (Number (fps req)) as [| | | q]; simpl in *; try discriminate.
    + now left.
    + right. exists 12%Q. split; [reflexivity | apply Qle_refl].
    + right. eexists. split; [reflexivity|].
      destruct (Qle_bool 12 q) eqn:E; [now apply Qle_bool_iff | apply Qle_refl].
  - right. exists 30%Q. split; [reflexivity | discriminate].
Qed.

Lemma positive_not_zero_nor_neg q :
  (1 <= q)%Q -> is_zero q = false /\ is_neg q = false.
Proof.
  intros Hq. split.
  - unfold is_zero. destruct (Qeq_bool q 0) eqn:E; [| reflexivity].
    apply Qeq_bool_iff in E. lra.
  - unfold is_neg. apply negb_false_iff. apply Qle_bool_iff. lra.
Qed.

Lemma total_frames_cases req :
  match totalFrames_of (effective_duration req) (effective_fps req) with
  | Int n => 12 <= n
  | IPInf => True
  | INaN | INInf => False
  end.
Proof.
  destruct (effective_duration_cases req) as [-> | (d & -> & Hd)];
    destruct (effective_fps_cases req) as [-> | (f & -> & Hf)].
  - exact I.
  - unfold totalFrames_of, mul.
    destruct (positive_not_zero_nor_neg f ltac:(lra)) as [-> ->]. exact I.
  - unfold totalFrames_of, mul.
    destruct (positive_not_zero_nor_neg d Hd) as [-> ->]. exact I.
  - unfold totalFrames_of, mul.
    assert (H0 : (0 <= rnd (d * f))%Q) by (apply rnd_nonneg; nra).
    destruct (bounded_nonneg _ H0) as [-> | ->]; [exact I |].
    unfold Math_round. apply round_fin_lower.
    pose proof (rnd_lower (d * f) ltac:(nra)) as Hr.
    change (inject_Z 12) with 12%Q. nra.
Qed.


End NumberFacts.

(* ===================================================================== *)
(** ** Further properties of the detector *)
(* ===================================================================== *)

Module CutoutFacts.
Import Js JsFacts Detector DetectorFacts.

Section WithImage.
Variable img : Image.

(** The scan ends with [maxX = -1] or with the bounding box. *)
Lemma scan_cases :
  0 <= height img ->
  snd (fst (fst (scan img))) = -1 \/ is_bounding_box img (scan img).
Proof.
  intros Hh. pose proof (scan_inv_final img Hh) as Hinv.
  destruct (scan img) as [[[a b] c] d] eqn:Hscan. cbn [fst snd].
  destruct Hinv as (_ & _ & [-> | [y Hy]] & _); [now left | right].
  rewrite <- Hscan. eapply scan_finds_bounding_box. exact Hy.
Qed.

Lemma bounding_box_in_image minX maxX minY maxY :
  is_bounding_box img (minX, maxX, minY, maxY) ->
  0 <= minX <= maxX /\ maxX < width img /\ 0 <= minY <= maxY /\ maxY < height img.
Proof.
  intros (Hall & [y1 H1] & [y2 H2] & [x3 H3] & [x4 H4]).
  pose proof (Hall _ _ H1). pose proof (Hall _ _ H3).
  destruct H1 as [[? ?] _], H2 as [[? ?] _], H3 as [[? ?] _], H4 as [[? ?] _].
  lia.
Qed.

Lemma search_fits minX maxX minY maxY pcts best :
  minX <= maxX -> minY <= maxY ->
  (forall pct, In pct pcts -> In pct testPercentages) ->
  fits (minX, maxX, minY, maxY) best ->
  fits (minX, maxX, minY, maxY) (search img (minX, maxX, minY, maxY) pcts best).
Proof.
  intros Hx Hy. revert best.
  induction pcts as [| pct rest IH]; intros best Hin Hbest; [exact Hbest|].
  cbn [search].
  destruct (within_bounds _ _) eqn:Hwb; [| apply IH; auto with datatypes].
  destruct (rect_valid img _); [| exact Hbest].
  apply IH; [auto with datatypes|].
  destruct (testPercentages_range pct (Hin pct (or_introl eq_refl))) as [H0 H1].
  pose proof (floor_mul_bounds (maxX - minX + 1) pct ltac:(lia) H0 H1) as Hw.
  pose proof (floor_mul_bounds (maxY - minY + 1) pct ltac:(lia) H0 H1) as Hh.
  unfold within_bounds in Hwb. rewrite !andb_true_iff, !Z.leb_le in Hwb.
  unfold fits. unfold candidate in *. cbn [Rect.x Rect.y Rect.width Rect.height] in *.
  lia.
Qed.

Lemma even_down_bounds n :
  0 <= n -> 0 <= even_down n <= n /\ Z.even (even_down n) = true.
Proof.
  intros Hn. destruct (even_down_spec n Hn) as [He Hb]. split; [| exact He].
  split; [| lia]. destruct (Z.eq_dec (even_down n) (-1)) as [E | E]; [| lia].
  rewrite E in He. discriminate.
Qed.

End WithImage.
End CutoutFacts.

(* ===================================================================== *)
(** ** Further properties: detection and scroll arithmetic *)
(* ===================================================================== *)

Section CutoutProperties.
Import Js JsFacts Detector DetectorFacts CutoutFacts NumberFacts Render RenderFacts Scenarios.

(** X1.  A frame with an alpha channel but no fully transparent pixel
    (opaque or merely translucent everywhere) yields the empty rectangle
    [(0, 0, 0, 0)]; detection does not fail. *)
Theorem no_transparent_pixel_gives_empty_cutout (img : Image) :
  4 <= channels img ->
  (forall x y, in_image img x y -> isTransparent img x y = false) ->
  detectTransparentCutout img = Ok (Rect.mk 0 0 0 0).
Proof.
  intros Hc Hnone. unfold detectTransparentCutout, detect_body.
  destruct (channels img <? 4) eqn:Hch; [apply Z.ltb_lt in Hch; lia|].
  pose proof (scan_no_transparent img Hnone) as Hmax.
  destruct (scan img) as [[[minX maxX] minY] maxY]. cbn [fst snd] in Hmax.
  rewrite Hmax. reflexivity.
Qed.

Lemma no_transparent_pixel_gives_empty_cutout_witness :
  detectTransparentCutout (rgba 4 4 (fun x y => 1 + x + y)) = Ok (Rect.mk 0 0 0 0).
Proof.
  apply no_transparent_pixel_gives_empty_cutout.
  - simpl. lia.
  - intros x y [Hx Hy]. cbn [width height rgba] in Hx, Hy.
    rewrite isTransparent_rgba by lia. apply Z.eqb_neq. lia.
Defined.

(** X2.  Whatever the frame, a detected rectangle has a non-negative origin,
    non-negative even sides, and lies inside the frame. *)
Theorem cutout_lies_inside_frame (img : Image) (r : Rect.t) :
  0 <= width img -> 0 <= height img ->
  detectTransparentCutout img = Ok r ->
  0 <= Rect.x r /\ 0 <= Rect.y r
  /\ 0 <= Rect.width r /\ 0 <= Rect.height r
  /\ Z.even (Rect.width r) = true /\ Z.even (Rect.height r) = true
  /\ Rect.x r + Rect.width r <= width img
  /\ Rect.y r + Rect.height r <= height img.
Proof.
  intros Hw Hh. unfold detectTransparentCutout, detect_body.
  destruct (channels img <? 4); [discriminate|].
  destruct (scan_cases img Hh) as [Hmax | Hbb].
  - destruct (scan img) as [[[minX maxX] minY] maxY]. cbn [fst snd] in Hmax.
    rewrite Hmax. cbn. intros [= <-]. cbn. lia.
  - destruct (scan img) as [[[minX maxX] minY] maxY].
    pose proof (bounding_box_in_image img _ _ _ _ Hbb) as (Hx & HX & Hy & HY).
    destruct (maxX =? -1) eqn:E; [apply Z.eqb_eq in E; lia|].
    destruct (isRectangularFrame img (minX, maxX, minY, maxY)).
    + intros [= <-]. cbn [Rect.x Rect.y Rect.width Rect.height].
      destruct (even_down_bounds (maxX - minX + 1) ltac:(lia)) as [? ?].
      destruct (even_down_bounds (maxY - minY + 1) ltac:(lia)) as [? ?].
      repeat split; try assumption; lia.
    + cbv zeta.
      assert (Hfit : fits (minX, maxX, minY, maxY)
                          (search img (minX, maxX, minY, maxY) testPercentages
                                  (Rect.mk minX minY 0 0))).
      { apply search_fits; [lia | lia | auto |].
        unfold fits. cbn [Rect.x Rect.y Rect.width Rect.height]. lia. }
      set (best := search img (minX, maxX, minY, maxY) testPercentages
                          (Rect.mk minX minY 0 0)) in *.
      clearbody best. unfold fits in Hfit. cbv beta iota in Hfit.
      intros [= <-]. cbn [Rect.x Rect.y Rect.width Rect.height].
      destruct Hfit as (F1 & F2 & F3 & F4 & F5 & F6).
      destruct (even_down_bounds _ F5) as [? ?].
      destruct (even_down_bounds _ F6) as [? ?].
      repeat split; try assumption; lia.
Qed.

Lemma cutout_lies_inside_frame_witness :
  Rect.x (Rect.mk 4 4 10 10) + Rect.width (Rect.mk 4 4 10 10) <= width rounded_frame
  /\ Rect.y (Rect.mk 4 4 10 10) + Rect.height (Rect.mk 4 4 10 10) <= height rounded_frame.
Proof.
  pose proof (cutout_lies_inside_frame rounded_frame (Rect.mk 4 4 10 10)) as H.
  destruct H as (_ & _ & _ & _ & _ & _ & Hx & Hy).
  - simpl. lia.
  - simpl. lia.
  - vm_compute. reflexivity.
  - split; [exact Hx | exact Hy].
Defined.

(** X3.  Every request renders at least twelve frames: the frame count is an
    integer of at least 12, or unbounded when a parameter is [Infinity] or
    the product overflows; it
    is never [NaN], so the step's [totalFrames > 1] test always holds. *)
Theorem at_least_twelve_frames (req : Request) (n : Z) :
  totalFrames_of (effective_duration req) (effective_fps req) <> INaN
  /\ totalFrames_of (effective_duration req) (effective_fps req) <> INInf
  /\ (totalFrames_of (effective_duration req) (effective_fps req) = Int n -> 12 <= n).
Proof.
  pose proof (total_frames_cases req) as H.
  destruct (totalFrames_of (effective_duration req) (effective_fps req));
    repeat split; try discriminate; try contradiction.
  intros [= <-]. exact H.
Qed.

Lemma at_least_twelve_frames_witness :
  totalFrames_of (effective_duration (request (Some (Fin (1 # 100))) (Some (Fin 1))))
                 (effective_fps (request (Some (Fin (1 # 100))) (Some (Fin 1)))) = Int 12
  /\ 12 <= 12.
Proof.
  split; [vm_compute; reflexivity|].
  apply (at_least_twelve_frames (request (Some (Fin (1 # 100))) (Some (Fin 1))) 12).
  vm_compute. reflexivity.
Defined.



End CutoutProperties.

(* ===================================================================== *)
(** ** File names *)
(* ===================================================================== *)

Module NameFacts.
Import Js Render.

(** The number a string of decimal digits denotes, leading zeros allowed. *)
Lemma digits_of_show (z : Z) :
  0 <= z ->
  option_map Z.of_uint (NilEmpty.uint_of_string (show z)) = Some z.
Proof.
  intros Hz. unfold show. destruct z as [| p | p]; [reflexivity | | lia].
  cbn [Z.to_int NilZero.string_of_int]. unfold NilZero.string_of_uint.
  pose proof (DecimalPos.Unsigned.to_uint_nonnil p) as Hnil.
  destruct (Pos.to_uint p) eqn:Hp; try contradiction;
    rewrite <- Hp, NilEmpty.usu; cbn [option_map]; f_equal;
    unfold Z.of_uint; now rewrite DecimalPos.Unsigned.of_to.
Qed.

Lemma digits_of_pad_left k s :
  option_map Z.of_uint (NilEmpty.uint_of_string (pad_left k "0" s))
  = option_map Z.of_uint (NilEmpty.uint_of_string s).
Proof.
  induction k as [| k IH]; [reflexivity|].
  cbn [pad_left NilEmpty.uint_of_string]. rewrite <- IH.
  destruct (NilEmpty.uint_of_string (pad_left k "0" s)); reflexivity.
Qed.

(** Zero-padded numbers of different non-negative integers differ. *)
Lemma padStart_show_inj (a b : Z) (width : nat) :
  0 <= a -> 0 <= b ->
  padStart (show a) width "0" = padStart (show b) width "0" -> a = b.
Proof.
  intros Ha Hb Heq.
  assert (H : option_map Z.of_uint (NilEmpty.uint_of_string (padStart (show a) width "0"))
              = option_map Z.of_uint (NilEmpty.uint_of_string (padStart (show b) width "0")))
    by now rewrite Heq.
  unfold padStart in H. rewrite !digits_of_pad_left, !digits_of_show in H by assumption.
  now injection H.
Qed.

Lemma length_append (a b : string) :
  String.length (a ++ b) = (String.length a + String.length b)%nat.
Proof. induction a as [| c a IH]; [reflexivity|]. simpl. f_equal. exact IH. Qed.

Lemma append_cancel_r (a b c : string) : (a ++ c = b ++ c)%string -> a = b.
Proof.
  revert b. induction a as [| x a IH]; intros [| y b] H.
  - reflexivity.
  - apply (f_equal String.length) in H.
    rewrite (length_append (String y b) c) in H.
    change (String.length c = S (String.length b + String.length c))%nat in H. lia.
  - apply (f_equal String.length) in H.
    rewrite (length_append (String x a) c) in H.
    change (S (String.length a + String.length c) = String.length c)%nat in H. lia.
  - cbn in H. injection H as -> H. f_equal. now apply IH.
Qed.

Lemma append_cancel_l (a b c : string) : (c ++ a = c ++ b)%string -> a = b.
Proof.
  induction c as [| x c IH]; cbn; [auto|]. intros H. injection H as H. auto.
Qed.

Lemma path_join_inj (dir a b : string) : path_join dir a = path_join dir b -> a = b.
Proof.
  unfold path_join. intros H. now do 2 apply append_cancel_l in H.
Qed.

Lemma frame_file_inj (sessionDir : string) (i j : Z) :
  0 <= i -> 0 <= j -> frame_file sessionDir i = frame_file sessionDir j -> i = j.
Proof.
  intros Hi Hj H. unfold frame_file in H. apply path_join_inj in H.
  apply append_cancel_l, append_cancel_r in H.
  apply padStart_show_inj in H; lia.
Qed.

Lemma prefix_append (a b : string) : String.prefix a (a ++ b) = true.
Proof.
  induction a as [| c a IH]; [now destruct b|].
  change (String c a ++ b)%string with (String c (a ++ b)%string).
  cbn [String.prefix].
  destruct (ascii_dec c c); [exact IH | contradiction].
Qed.

(** A path joined to a directory lies under it. *)
Lemma under_path_join (dir name : string) : under dir (path_join dir name) = true.
Proof.
  unfold under, path_join. apply orb_true_iff. right.
  replace (dir ++ "/" ++ name)%string with ((dir ++ "/") ++ name)%string.
  - apply prefix_append.
  - induction dir as [| c dir IH]; [reflexivity|].
    change (String c (((dir ++ "/") ++ name))%string
            = String c (dir ++ "/" ++ name)%string).
    now rewrite IH.
Qed.

Lemma under_self (dir : string) : under dir dir = true.
Proof. unfold under. now rewrite String.eqb_refl. Qed.

End NameFacts.

(* ===================================================================== *)
(** ** What cleanup removes *)
(* ===================================================================== *)

Module RemovalFacts.
Import Js Detector Render CleanupFacts.

Section WithEnv.
Variable env : Env.

Lemma elem_of_after_unlink w p q :
  q ∈ fs (after_unlink env w p)
  <-> q ∈ fs w /\ ~ (q = p /\ unlink_error env p = None).
Proof.
  unfold after_unlink. destruct (unlink_error env p) as [e |].
  - cbn [fs with_op]. split; [| tauto]. intros H. split; [exact H|]. intros [_ ?]. discriminate.
  - destruct (decide (p ∈ fs (with_op (UnlinkOp p) w))) as [Hd | Hd]; cbn [fs with_fs with_op] in *.
    + rewrite elem_of_difference, elem_of_singleton. split.
      * intros [H1 H2]. split; [exact H1|]. intros [? _]. contradiction.
      * intros [H1 H2]. split; [exact H1|]. intros ->. apply H2. split; reflexivity.
    + split.
      * intros H. split; [exact H|]. intros [-> _]. contradiction.
      * tauto.
Qed.

Lemma elem_of_after_unlinks files w q :
  q ∈ fs (after_unlinks env files w)
  <-> q ∈ fs w /\ ~ (In q (map path files) /\ unlink_error env q = None).
Proof.
  unfold after_unlinks. revert w.
  induction files as [| f files IH]; intros w; cbn [map fold_left].
  - split; [| tauto]. intros H. split; [exact H|]. intros [[] _].
  - rewrite IH, elem_of_after_unlink. cbn [In]. split.
    + intros [[H1 H2] H3]. split; [exact H1|].
      intros [[<- | Hin] Herr]; [apply H2 | apply H3]; tauto.
    + intros [H1 H2]. split; [split; [exact H1|] |].
      * intros [-> Herr]. apply H2. tauto.
      * intros [Hin Herr]. apply H2. tauto.
Qed.

(** The files left by a cleanup call. *)
Lemma elem_of_cleanup cd reason w q :
  q ∈ fs (snd (performJobCleanup env cd reason w))
  <-> q ∈ fs w
      /\ match sessionDir cd with
         | Some dir =>
             match rimraf_error env dir with
             | Some _ => True
             | None =>
                 under dir q = false
                 /\ ~ (In q (map path (uploadedFiles cd)) /\ unlink_error env q = None)
             end
         | None => ~ (In q (map path (uploadedFiles cd)) /\ unlink_error env q = None)
         end.
Proof.
  rewrite performJobCleanup_value.
  destruct (sessionDir cd) as [dir |]; [destruct (rimraf_error env dir) as [e |] |];
    cbn [snd fs with_cleanup].
  - cbn [fs with_op]. tauto.
  - rewrite elem_of_after_unlinks. cbn [fs with_fs with_op].
    rewrite elem_of_filter. tauto.
  - apply elem_of_after_unlinks.
Qed.

Lemma cleanup_result cd reason w :
  fst (performJobCleanup env cd reason w)
  = Value match sessionDir cd with
          | Some dir => match rimraf_error env dir with Some _ => false | None => true end
          | None => true
          end.
Proof.
  rewrite performJobCleanup_value.
  destruct (sessionDir cd) as [dir |]; [destruct (rimraf_error env dir) |]; reflexivity.
Qed.

Lemma cleanups_cleanup cd reason w :
  exists b, cleanups (snd (performJobCleanup env cd reason w)) = cleanups w ++ [(reason, b)]
            /\ fst (performJobCleanup env cd reason w) = Value b.
Proof.
  destruct (performJobCleanup_shape env cd reason w) as (b & s & t & ->).
  exists b. split; reflexivity.
Qed.

End WithEnv.
End RemovalFacts.

(* ===================================================================== *)
(** ** Further properties: cleanup *)
(* ===================================================================== *)

Section CleanupProperties.
Import Js Detector Render CleanupFacts RemovalFacts NameFacts Scenarios.

(** X5.  [performJobCleanup] never throws, whatever fails underneath: it
    returns [true] or [false], logs exactly one call, and the result is
    [false] exactly when [rimraf] on the session directory failed.  A
    failing [fs.unlink] never changes the result. *)
Theorem cleanup_result_reflects_rimraf_only (env : Env) (cd : CleanupData)
    (reason : string) (w : World) :
  exists b,
    fst (performJobCleanup env cd reason w) = Value b
    /\ cleanups (snd (performJobCleanup env cd reason w)) = cleanups w ++ [(reason, b)]
    /\ (b = false <-> exists dir e, sessionDir cd = Some dir /\ rimraf_error env dir = Some e).
Proof.
  destruct (cleanups_cleanup env cd reason w) as (b & Hlog & Hres).
  exists b. split; [exact Hres|]. split; [exact Hlog|].
  rewrite cleanup_result in Hres. injection Hres as <-.
  destruct (sessionDir cd) as [dir |]; [destruct (rimraf_error env dir) as [e |] eqn:He |].
  - split; [| reflexivity]. intros _. exists dir, e. split; [reflexivity | exact He].
  - split; [discriminate |]. intros (d & e & [= <-] & He'). congruence.
  - split; [discriminate |]. intros (d & e & Hd & _). discriminate.
Qed.

(** X6.  Cleanup removes only what belongs to the job: it creates no file,
    and a file that is neither inside the session directory nor one of the
    uploaded files is still there afterwards. *)
Theorem cleanup_keeps_foreign_files (env : Env) (cd : CleanupData)
    (reason : string) (w : World) (p : string) :
  p ∈ fs w ->
  (forall dir, sessionDir cd = Some dir -> under dir p = false) ->
  ~ In p (map path (uploadedFiles cd)) ->
  p ∈ fs (snd (performJobCleanup env cd reason w))
  /\ fs (snd (performJobCleanup env cd reason w)) ⊆ fs w.
Proof.
  intros Hp Hdir Hup. split.
  - apply elem_of_cleanup. split; [exact Hp|].
    destruct (sessionDir cd) as [dir |]; [destruct (rimraf_error env dir) |].
    + exact I.
    + split; [now apply Hdir | tauto].
    + tauto.
  - intros q Hq. apply elem_of_cleanup in Hq. tauto.
Qed.

Lemma cleanup_keeps_foreign_files_witness :
  "/app/tmp/job_17/frame_00001.png"
    ∈ fs (snd (performJobCleanup (calm (4, 10) rgb_frame) job_files "success"
                 (with_fs (fun s => s ∪ {["/app/tmp/job_17/frame_00001.png"]}) job_world))).
Proof.
  refine (proj1 (cleanup_keeps_foreign_files (calm (4, 10) rgb_frame) job_files "success"
                   (with_fs (fun s => s ∪ {["/app/tmp/job_17/frame_00001.png"]}) job_world)
                   "/app/tmp/job_17/frame_00001.png" _ _ _)).
  - refine (bool_decide_eq_true_1 _ _). vm_compute. reflexivity.
  - intros dir [= <-]. vm_compute. reflexivity.
  - cbn. intros [H | []]. discriminate H.
Defined.

(** X7.  When [rimraf] succeeds, cleanup returns [true] and nothing is left
    of the session directory: the directory, every frame image
    [frame_NNNNN.png], the resized page and the output video are gone, and
    so is every uploaded file whose [unlink] does not fail. *)
Theorem cleanup_removes_the_job (env : Env) (cd : CleanupData) (reason : string)
    (w : World) (dir : string) :
  sessionDir cd = Some dir ->
  rimraf_error env dir = None ->
  let w' := snd (performJobCleanup env cd reason w) in
  fst (performJobCleanup env cd reason w) = Value true
  /\ (forall p, under dir p = true -> p ∉ fs w')
  /\ (dir ∉ fs w')
  /\ (forall i, frame_file dir i ∉ fs w')
  /\ (path_join dir "resized_page.png" ∉ fs w')
  /\ (forall name, path_join dir name ∉ fs w')
  /\ (forall f, In f (uploadedFiles cd) -> unlink_error env (path f) = None ->
                path f ∉ fs w').
Proof.
  intros Hdir Hok w'.
  assert (Hunder : forall p, under dir p = true -> p ∉ fs w').
  { intros p Hp Hin. apply elem_of_cleanup in Hin. rewrite Hdir, Hok in Hin.
    destruct Hin as (_ & Hout & _). congruence. }
  split; [| split; [exact Hunder | split; [| split; [| split; [| split]]]]].
  - rewrite cleanup_result, Hdir, Hok. reflexivity.
  - apply Hunder, under_self.
  - intros i. apply Hunder, under_path_join.
  - apply Hunder, under_path_join.
  - intros name. apply Hunder, under_path_join.
  - intros f Hin Herr Hmem. apply elem_of_cleanup in Hmem. rewrite Hdir, Hok in Hmem.
    destruct Hmem as (_ & _ & Hno). apply Hno. split; [| exact Herr].
    apply in_map. exact Hin.
Qed.

Lemma cleanup_removes_the_job_witness :
  fst (performJobCleanup (calm (4, 10) rgb_frame) job_files "success" job_world) = Value true
  /\ (job_dir ∉ fs (snd (performJobCleanup (calm (4, 10) rgb_frame) job_files "success" job_world)))
  /\ (page_upload ∉ fs (snd (performJobCleanup (calm (4, 10) rgb_frame) job_files "success" job_world))).
Proof.
  pose proof (cleanup_removes_the_job (calm (4, 10) rgb_frame) job_files "success" job_world
                job_dir eq_refl eq_refl) as H.
  cbv zeta in H. destruct H as (Hres & _ & Hdir & _ & _ & _ & Hup).
  refine (conj Hres (conj Hdir _)).
  apply (Hup {| path := page_upload; type := "page" |}); [left; reflexivity | reflexivity].
Defined.

End CleanupProperties.

(* ===================================================================== *)
(** ** The response protocol *)
(* ===================================================================== *)

Module ProtocolFacts.
Import Js Detector Render Protocol CleanupFacts RemovalFacts RenderFacts.
Local Open Scope job_scope.

Lemma grows_refl w : grows w w.
Proof. exists []. now rewrite app_nil_r. Qed.

Lemma grows_same w w' : cleanups w' = cleanups w -> grows w w'.
Proof. intros H. exists []. now rewrite app_nil_r. Qed.

Lemma grows_trans w1 w2 w3 : grows w1 w2 -> grows w2 w3 -> grows w1 w3.
Proof.
  intros [l1 H1] [l2 H2]. exists (l1 ++ l2). now rewrite H2, H1, app_assoc.
Qed.

(** The rules of the three predicates. *)
Lemma background_rejects {A} (m : M A) : background m -> rejects m.
Proof. intros H w. destruct (H w) as [Hg Hs]. split; [exact Hg | now left]. Qed.

Lemma rejects_completes (m : M unit) : rejects m -> completes m.
Proof.
  intros H w. destruct (H w) as [Hg [Hs | (r & Hs & Ho & Hr)]].
  - split; [exact Hg | now left].
  - split; [exact Hg |]. right. exists r. split; [exact Hs |]. left. now split.
Qed.

Lemma background_bind {A B} (m : M A) (k : A -> M B) :
  background m -> (forall a, background (k a)) -> background (bind m k).
Proof.
  intros Hm Hk w. unfold bind. specialize (Hm w).
  destruct (m w) as [[a | | e |] w1]; cbn [snd] in *; try exact Hm.
  destruct Hm as [Hg Hs]. destruct (Hk a w1) as [Hg' Hs'].
  split; [eapply grows_trans; eassumption | congruence].
Qed.

Lemma rejects_bind {A B} (m : M A) (k : A -> M B) :
  rejects m -> (forall a, rejects (k a)) -> rejects (bind m k).
Proof.
  intros Hm Hk w. unfold bind. specialize (Hm w).
  destruct (m w) as [[a | | e |] w1]; cbn [fst snd] in *.
  - destruct Hm as [Hg [Hs | (r & _ & Ho & _)]]; [| discriminate].
    destruct (Hk a w1) as [Hg' Hs'].
    split; [eapply grows_trans; eassumption |]. now rewrite <- Hs.
  - destruct Hm as [Hg [Hs | (r & Hs & Ho & Hr)]]; (split; [exact Hg |]);
      [now left | right; exists r; now repeat split].
  - destruct Hm as [Hg [Hs | (r & _ & Ho & _)]]; [| discriminate].
    split; [exact Hg | now left].
  - destruct Hm as [Hg [Hs | (r & _ & Ho & _)]]; [| discriminate].
    split; [exact Hg | now left].
Qed.

Lemma completes_bind {A} (m : M A) (k : A -> M unit) :
  rejects m -> (forall a, completes (k a)) -> completes (bind m k).
Proof.
  intros Hm Hk w. unfold bind. specialize (Hm w).
  destruct (m w) as [[a | | e |] w1]; cbn [fst snd] in *.
  - destruct Hm as [Hg [Hs | (r & _ & Ho & _)]]; [| discriminate].
    destruct (Hk a w1) as [Hg' Hs'].
    split; [eapply grows_trans; eassumption |]. now rewrite <- Hs.
  - destruct Hm as [Hg [Hs | (r & Hs & Ho & Hr)]]; (split; [exact Hg |]);
      [now left | right; exists r; split; [exact Hs |]; left; now split].
  - destruct Hm as [Hg [Hs | (r & _ & Ho & _)]]; [| discriminate].
    split; [exact Hg | now left].
  - destruct Hm as [Hg [Hs | (r & _ & Ho & _)]]; [| discriminate].
    split; [exact Hg | now left].
Qed.

Lemma rejects_try_catch {A} (m : M A) (h : exn -> M A) :
  rejects m -> (forall e, rejects (h e)) -> rejects (try_catch m h).
Proof.
  intros Hm Hh w. unfold try_catch. specialize (Hm w).
  destruct (m w) as [[a | | e |] w1]; cbn [fst snd] in *; try exact Hm.
  destruct Hm as [Hg [Hs | (r & _ & Ho & _)]]; [| discriminate].
  destruct (Hh e w1) as [Hg' Hs'].
  split; [eapply grows_trans; eassumption |]. now rewrite <- Hs.
Qed.

Lemma background_try_catch {A} (m : M A) (h : exn -> M A) :
  background m -> (forall e, background (h e)) -> background (try_catch m h).
Proof.
  intros Hm Hh w. unfold try_catch. specialize (Hm w).
  destruct (m w) as [[a | | e |] w1]; cbn [fst snd] in *; try exact Hm.
  destruct Hm as [Hg Hs]. destruct (Hh e w1) as [Hg' Hs'].
  split; [eapply grows_trans; eassumption | congruence].
Qed.

Lemma background_ret {A} (a : A) : background (ret a).
Proof. intros w. split; [apply grows_refl | reflexivity]. Qed.

Lemma background_throw {A} e : background (@throw A e).
Proof. intros w. split; [apply grows_refl | reflexivity]. Qed.

Lemma background_return {A} : background (@return_ A).
Proof. intros w. split; [apply grows_refl | reflexivity]. Qed.

Lemma background_diverge {A} : background (@diverge A).
Proof. intros w. split; [apply grows_refl | reflexivity]. Qed.

Lemma background_get : background get.
Proof. intros w. split; [apply grows_refl | reflexivity]. Qed.

Lemma background_modify f :
  (forall w, cleanups (f w) = cleanups w /\ sent (f w) = sent w) ->
  background (modify f).
Proof.
  intros Hf w. destruct (Hf w) as [Hc Hs]. cbn [modify snd].
  split; [now apply grows_same | exact Hs].
Qed.

Lemma background_on ev l : background (on ev l).
Proof. apply background_modify. intros w. split; reflexivity. Qed.

Section WithEnv.
Variable env : Env.

Lemma background_cleanup cd reason : background (performJobCleanup env cd reason).
Proof.
  intros w. destruct (performJobCleanup_shape env cd reason w) as (b & s & t & ->).
  split; [now exists [(reason, b)] | reflexivity].
Qed.

Lemma grows_run_listener l w : grows w (run_listener env l w).
Proof.
  destruct l as [cd | | cd | cd | cd]; cbn [run_listener];
    try (now apply grows_same);
    match goal with
    | |- context [if ?c then _ else _] => destruct c
    end;
    try apply grows_refl;
    match goal with
    | |- grows ?w (snd (performJobCleanup _ ?cd ?r ?w0)) =>
        apply (grows_trans w w0); [now apply grows_same | apply background_cleanup]
    end.
Qed.

Lemma grows_emit ev w : grows w (emit env ev w).
Proof.
  unfold emit.
  generalize (map snd (List.filter (fun p => resEvent_eqb ev (fst p)) (listeners w))).
  intros ls. revert w. induction ls as [| l ls IH]; intros w; [apply grows_refl|].
  cbn [fold_left]. eapply grows_trans; [apply grows_run_listener | apply IH].
Qed.

Lemma grows_deliver w e : grows w (deliver env w e).
Proof.
  destruct e; cbn [deliver].
  - apply (grows_trans w (with_closed w)); [now apply grows_same | apply grows_emit].
  - destruct (timer w) as [cd |]; [| apply grows_refl].
    unfold run_timeout.
    destruct (negb (headersSent (with_timer None w))
              && negb (isRequestCancelled (with_timer None w)));
      [| now apply grows_same].
    apply (grows_trans w (with_cancelled (with_timer None w)));
      [now apply grows_same | apply background_cleanup].
  - apply grows_emit.
Qed.

Lemma grows_fold_deliver evs w : grows w (fold_left (deliver env) evs w).
Proof.
  revert w. induction evs as [| e evs IH]; intros w; [apply grows_refl|].
  cbn [fold_left]. eapply grows_trans; [apply grows_deliver | apply IH].
Qed.

Lemma sent_fold_deliver evs w : sent (fold_left (deliver env) evs w) = sent w.
Proof.
  revert w. induction evs as [| e evs IH]; intros w; [reflexivity|].
  cbn [fold_left]. now rewrite IH, sent_deliver.
Qed.

Lemma grows_settle w : grows w (settle env w).
Proof.
  unfold settle.
  eapply grows_trans; [| apply grows_deliver].
  destruct (writableEnded w && negb (closed w)); [| apply grows_refl].
  eapply grows_trans; [| apply grows_emit].
  destruct (delivered env).
  - apply (grows_trans w (emit env OnFinish w)); [apply grows_emit | now apply grows_same].
  - now apply grows_same.
Qed.

Lemma background_await s effect :
  (forall w, cleanups (effect w) = cleanups w /\ sent (effect w) = sent w) ->
  background (await env s effect).
Proof.
  intros Heff w. unfold await. destruct (failure env s); cbn [snd].
  - split; [apply grows_fold_deliver | apply sent_fold_deliver].
  - destruct (Heff w) as [Hc Hs]. split.
    + apply (grows_trans w (effect w));
        [now apply grows_same | apply grows_fold_deliver].
    + now rewrite sent_fold_deliver.
Qed.

Lemma rejects_send_400 {A} body : rejects (send 400 body ;; @return_ A).
Proof.
  intros w. unfold bind, send, modify, return_. cbn [fst snd].
  split; [now apply grows_same |]. cbn [sent with_response].
  destruct (closed w); [now left |]. right. eexists. repeat split.
Qed.

Lemma completes_send_200 body : completes (send 200 body).
Proof.
  intros w. unfold send, modify. cbn [fst snd].
  split; [now apply grows_same |]. cbn [sent with_response].
  destruct (closed w); [now left |]. right. eexists. split; [reflexivity |].
  right. split; reflexivity.
Qed.

Lemma background_batches sessionDir cutout pageHeight duration fps fuel k batchStart :
  background (batches env sessionDir cutout pageHeight duration fps fuel k batchStart).
Proof.
  revert k batchStart. induction fuel as [| fuel IH]; intros k b; cbn [batches].
  - apply background_diverge.
  - destruct (below b (totalFrames duration fps)); [| apply background_ret].
    apply background_bind.
    + apply background_await. intros w. split; reflexivity.
    + intros _. apply background_bind; [apply background_get |].
      intros w. destruct (isRequestCancelled w); [apply background_return | apply IH].
Qed.

Lemma rejects_detect_and_resize sessionDir pageFile pageHeight :
  rejects (detect_and_resize env sessionDir pageFile pageHeight).
Proof.
  unfold detect_and_resize. apply rejects_try_catch.
  - apply rejects_bind.
    + apply background_rejects, background_try_catch.
      * apply background_await. intros w. split; reflexivity.
      * intros e. apply background_throw.
    + intros _. apply rejects_bind.
      * destruct (detectTransparentCutout (frame_image env));
          apply background_rejects; [apply background_ret | apply background_throw].
      * intros cutout. cbv zeta.
        destruct ((Rect.width cutout =? 0) || (Rect.height cutout =? 0));
          [apply rejects_send_400 |].
        apply rejects_bind; [apply background_rejects, background_get |].
        intros w. destruct (isRequestCancelled w);
          [apply background_rejects, background_return |].
        apply rejects_bind.
        { apply background_rejects, background_await. intros w0. split; reflexivity. }
        intros _. destruct (page_meta env) as [opw oph].
        destruct (negb (Rect.width cutout =? opw)).
        -- apply rejects_bind.
           ++ apply background_rejects, background_await. intros w0. split; reflexivity.
           ++ intros _. apply background_rejects, background_ret.
        -- apply background_rejects, background_ret.
  - intros e. apply rejects_send_400.
Qed.

(** A [try] block that [completes], under the handler's [catch]. *)
Lemma catch_protocol (pre body : M unit) cd (details : exn -> Payload) w0 :
  background pre -> completes body ->
  let m := pre ;; try_catch body
                    (fun err => performJobCleanup env cd "render-error" ;;
                                send 500 (details err)) in
  grows w0 (snd (m w0))
  /\ (sent (snd (m w0)) = sent w0
      \/ exists r,
           sent (snd (m w0)) = sent w0 ++ [r]
           /\ ((fst (m w0) = Returned /\ status r = 400)
               \/ (fst (m w0) = Value tt /\ status r = 200)
               \/ (fst (m w0) = Value tt /\ status r = 500
                   /\ exists b, In ("render-error", b) (cleanups (snd (m w0)))))).
Proof.
  intros Hpre Hb m. destruct (m w0) as [o w] eqn:E. cbn [fst snd].
  subst m. unfold bind at 1 in E. unfold try_catch in E.
  destruct (Hpre w0) as [Hg0 Hs0].
  destruct (pre w0) as [[[] | | e |] w1]; cbn [fst snd] in *;
    try (injection E as <- <-; split; [exact Hg0 | now left]).
  specialize (Hb w1).
  destruct (body w1) as [[[] | | e |] w2]; cbn [fst snd] in *.
  - injection E as <- <-.
    destruct Hb as [Hg [Hs | (r & Hs & [[Ho _] | [_ Hr]])]]; try discriminate;
      (split; [eapply grows_trans; eassumption |]).
    + left. congruence.
    + right. exists r. split; [congruence |]. right. left. now split.
  - injection E as <- <-.
    destruct Hb as [Hg [Hs | (r & Hs & [[_ Hr] | [Ho _]])]]; try discriminate;
      (split; [eapply grows_trans; eassumption |]).
    + left. congruence.
    + right. exists r. split; [congruence |]. left. now split.
  - destruct Hb as [Hg [Hs | (r & Hs & [[Ho _] | [Ho _]])]]; try discriminate.
    unfold bind in E.
    destruct (performJobCleanup_shape env cd "render-error" w2) as (b & s & t & Hc).
    rewrite Hc in E. unfold send, modify in E. injection E as <- <-.
    cbn [sent cleanups closed with_response with_cleanup with_fs_trace].
    split.
    + eapply grows_trans; [exact Hg0 |]. eapply grows_trans; [exact Hg |].
      now exists [("render-error", b)].
    + destruct (closed w2); [left; congruence |].
      right. eexists. split; [rewrite Hs, Hs0; reflexivity |].
      right. right. split; [reflexivity |]. split; [reflexivity |].
      exists b. apply in_or_app. right. now left.
  - injection E as <- <-.
    destruct Hb as [Hg [Hs | (r & Hs & [[Ho _] | [Ho _]])]]; try discriminate.
    split; [eapply grows_trans; eassumption | left; congruence].
Qed.

(** The handler as a whole: at most one response is written, and its
    status tells how the handler ended. *)
Lemma render_protocol fuel req w0 :
  grows w0 (snd (render env fuel req w0))
  /\ (sent (snd (render env fuel req w0)) = sent w0
      \/ exists r,
           sent (snd (render env fuel req w0)) = sent w0 ++ [r]
           /\ ((fst (render env fuel req w0) = Returned /\ status r = 400)
               \/ (fst (render env fuel req w0) = Value tt /\ status r = 200)
               \/ (fst (render env fuel req w0) = Value tt /\ status r = 500
                   /\ exists b, In ("render-error", b)
                                   (cleanups (snd (render env fuel req w0)))))).
Proof.
  unfold render. cbv zeta. apply catch_protocol.
  { apply background_await. intros w. split; reflexivity. }
  destruct (page req) as [pageUpload |]; [| apply rejects_completes, rejects_send_400].
  repeat (apply completes_bind;
          [first [ apply background_rejects, background_on
                 | apply background_rejects, background_modify; intros w; split; reflexivity
                 | apply background_rejects, background_await; intros w; split; reflexivity ]
          | intros _ ]).
  destruct (page_meta env) as [pw ph].
  destruct ((MAX_DIMENSION <? pw) || (MAX_DIMENSION <? ph)).
  - apply rejects_completes, rejects_send_400.
  - apply completes_bind; [apply rejects_detect_and_resize |].
    intros [[cutout pageFile] pageHeight].
    do 2 (apply completes_bind;
          [apply background_rejects, background_await; intros w; split; reflexivity
          | intros _]).
    apply completes_bind; [apply background_rejects, background_batches | intros _].
    apply completes_bind; [apply background_rejects, background_get |].
    intros w. destruct (isRequestCancelled w);
      [apply rejects_completes, background_rejects, background_return |].
    apply completes_bind.
    { apply background_rejects. unfold runFFmpeg. apply background_try_catch.
      - apply background_await. intros w1. split; reflexivity.
      - intros e. apply background_throw. }
    intros _.
    do 3 (apply completes_bind; [apply background_rejects, background_on | intros _]).
    apply completes_bind;
      [apply background_rejects, background_await; intros w1; split; reflexivity
      | intros _].
    apply completes_send_200.
Qed.

(** [run] adds the events after the handler, which write no response. *)
Lemma run_protocol fuel req :
  sent (snd (run env fuel req)) = []
  \/ exists r,
       sent (snd (run env fuel req)) = [r]
       /\ ((fst (run env fuel req) = Returned /\ status r = 400)
           \/ (fst (run env fuel req) = Value tt /\ status r = 200)
           \/ (fst (run env fuel req) = Value tt /\ status r = 500
               /\ exists b, In ("render-error", b) (cleanups (snd (run env fuel req))))).
Proof.
  unfold run.
  destruct (render_protocol fuel req (initial req)) as [Hg Hs].
  destruct (render env fuel req (initial req)) as [o w]. cbn [fst snd] in *.
  assert (Hlog : forall b, In ("render-error", b) (cleanups w) ->
                           In ("render-error", b) (cleanups (settle env w))).
  { intros b Hin. destruct (grows_settle w) as [l ->]. apply in_or_app. now left. }
  destruct Hs as [Hs | (r & Hs & Hr)].
  - left. destruct o; cbn [snd]; rewrite ?sent_settle; exact Hs.
  - right. exists r.
    destruct Hr as [[Ho Hr] | [[Ho Hr] | (Ho & Hr & b & Hb)]]; subst o; cbn [fst snd];
      rewrite sent_settle; (split; [exact Hs |]).
    + left. now split.
    + right. left. now split.
    + right. right. split; [reflexivity |]. split; [exact Hr |]. exists b. now apply Hlog.
Qed.

End WithEnv.
End ProtocolFacts.

(* ===================================================================== *)
(** ** The handler, stage by stage *)
(* ===================================================================== *)

Module JobFacts.
Import Js Detector Render Protocol CleanupFacts RemovalFacts RenderFacts ProtocolFacts.
Local Open Scope job_scope.

Section WithEnv.
Variable env : Env.

Lemma await_calm s effect w :
  calm_at env s -> await env s effect w = (Value tt, effect w).
Proof. intros [Hf He]. now apply await_quiet. Qed.

Lemma quiet_calm s : quiet env -> calm_at env s.
Proof. intros [Hf He]. split; [apply Hf | apply He]. Qed.

Lemma fst_run fuel req : fst (run env fuel req) = fst (render env fuel req (initial req)).
Proof.
  unfold run. destruct (render env fuel req (initial req)) as [[[] | | e |] w]; reflexivity.
Qed.

(** Before any listener is registered, events only mark the connection
    closed. *)
Lemma deliver_bare w e :
  listeners w = [] -> timer w = None ->
  deliver env w e = w \/ deliver env w e = with_closed w.
Proof.
  intros Hl Ht. destruct e; cbn [deliver].
  - right. unfold emit. cbn [listeners with_closed]. rewrite Hl. reflexivity.
  - left. now rewrite Ht.
  - left. unfold emit. rewrite Hl. reflexivity.
Qed.

Lemma fold_deliver_bare evs w :
  listeners w = [] -> timer w = None ->
  let w' := fold_left (deliver env) evs w in
  fs w' = fs w /\ sent w' = sent w /\ cleanups w' = cleanups w /\ trace w' = trace w
  /\ frames w' = frames w /\ writableEnded w' = writableEnded w
  /\ listeners w' = [] /\ timer w' = None.
Proof.
  revert w. induction evs as [| e evs IH]; intros w Hl Ht; cbn [fold_left].
  - repeat split; assumption.
  - destruct (deliver_bare w e Hl Ht) as [-> | ->]; [now apply IH |].
    destruct (IH (with_closed w) Hl Ht) as (H1 & H2 & H3 & H4 & H5 & H6 & H7 & H8).
    repeat split; assumption.
Qed.

(** *** After the handler *)

(** A 400 written while only the early listeners are registered: nothing
    is cleaned afterwards. *)
Lemma settle_early w r cd :
  listeners w = early_listeners cd -> closed w = false ->
  let W := settle env (with_response r w) in
  sent W = sent w ++ [r] /\ cleanups W = cleanups w /\ trace W = trace w
  /\ fs W = fs w /\ frames W = frames w.
Proof.
  intros Hl Hc. unfold settle. cbn [writableEnded closed with_response].
  rewrite Hc. cbn [negb andb]. unfold emit.
  destruct (delivered env).
  - cbn [listeners with_response]. rewrite Hl. unfold early_listeners. proj.
    rewrite Hl. unfold early_listeners. proj. rewrite Hc. repeat split.
  - cbn [listeners with_response with_closed]. rewrite Hl. unfold early_listeners. proj.
    destruct (timer w); proj; rewrite Hc; repeat split.
Qed.

(** A job that never got as far as registering a listener. *)
Lemma settle_bare w r :
  listeners w = [] -> timer w = None -> closed w = false ->
  let W := settle env (with_response r w) in
  sent W = sent w ++ [r] /\ cleanups W = cleanups w /\ trace W = trace w
  /\ fs W = fs w /\ frames W = frames w.
Proof.
  intros Hl Ht Hc. unfold settle. cbn [writableEnded closed with_response].
  rewrite Hc. cbn [negb andb]. unfold emit.
  destruct (delivered env); cbn [listeners with_response with_closed]; rewrite Hl; proj;
    rewrite ?Hl; proj; rewrite Ht; proj; rewrite Hc; repeat split.
Qed.

(** The video was sent and flushed: ['finish'] runs the cleanup. *)
Lemma settle_delivered w r cd :
  listeners w = late_listeners cd -> closed w = false -> isRequestCancelled w = false ->
  delivered env = true ->
  settle env (with_response r w)
  = with_closed (snd (performJobCleanup env cd "success"
                        (with_timer None (with_response r w)))).
Proof.
  intros Hl Hc Hx Hd. unfold settle. cbn [writableEnded closed with_response].
  rewrite Hc, Hd. cbn [negb andb]. unfold emit at 2.
  cbn [listeners with_response]. rewrite Hl. unfold late_listeners, early_listeners. proj.
  rewrite Hx. cbn [negb].
  destruct (performJobCleanup_shape env cd "success"
              (with_timer None (with_response r w))) as (b & s & t & ->).
  cbn [snd]. unfold emit. proj. rewrite Hl. unfold late_listeners, early_listeners. proj.
  reflexivity.
Qed.

(** *** Cancellation *)

Lemma deliver_close w cd :
  listeners w = early_listeners cd -> headersSent w = false ->
  isRequestCancelled w = false ->
  deliver env w ClientClose
  = snd (performJobCleanup env cd "client-disconnect-early"
           (with_cancelled (with_closed w))).
Proof.
  intros Hl Hh Hx. cbn [deliver]. unfold emit. cbn [listeners with_closed].
  rewrite Hl. unfold early_listeners. proj. rewrite Hh, Hx. reflexivity.
Qed.

Lemma deliver_timeout w cd :
  timer w = Some cd -> headersSent w = false -> isRequestCancelled w = false ->
  deliver env w TimeoutFires
  = snd (performJobCleanup env cd "timeout" (with_cancelled (with_timer None w))).
Proof.
  intros Ht Hh Hx. cbn [deliver]. rewrite Ht. unfold run_timeout. proj.
  rewrite Hh, Hx. reflexivity.
Qed.

(** Once the request is cancelled and no response was written, the events
    after the handler clean nothing. *)
Lemma settle_cancelled w :
  writableEnded w = false -> isRequestCancelled w = true ->
  let W := settle env w in
  sent W = sent w /\ cleanups W = cleanups w /\ trace W = trace w
  /\ fs W = fs w /\ frames W = frames w.
Proof.
  intros Hw Hx. unfold settle. rewrite Hw. cbn [andb deliver].
  destruct (timer w); [| repeat split].
  unfold run_timeout. proj. rewrite Hx, andb_false_r. repeat split.
Qed.

(** *** The batch loop *)

Section Loop.
Variables (sessionDir : string) (cutout : Rect.t) (pageHeight : Z).
Variables (duration fps : num) (n : Z).
Hypothesis Htotal : totalFrames duration fps = Int n.
Hypothesis Hfail : forall k, failure env (Batch k) = None.

Let frame_at' := frame_at env sessionDir cutout pageHeight duration fps.

(** With enough fuel and no interruption the loop writes the frames
    [batchStart .. n-1] and ends normally. *)
Lemma batches_calm fuel k batchStart w :
  (forall j, events env (Batch j) = []) ->
  isRequestCancelled w = false ->
  Z.max 0 (n - batchStart) < Z.of_nat fuel ->
  batches env sessionDir cutout pageHeight duration fps fuel k batchStart w
  = (Value tt, with_frames (map frame_at' (window batchStart n)) w).
Proof.
  intros He.
  revert k batchStart w. induction fuel as [| fuel IH]; intros k b w Hc Hfuel; [lia|].
  cbn [batches]. rewrite Htotal. cbn [below min_index].
  destruct (b <? n) eqn:Hbn.
  - apply Z.ltb_lt in Hbn. exec. rewrite Hfail, He. cbn [fold_left].
    proj. rewrite Hc.
    rewrite IH by (proj; try assumption; unfold BATCH_SIZE; lia).
    rewrite with_frames_app. f_equal. f_equal. rewrite <- map_app. f_equal.
    unfold BATCH_SIZE.
    destruct (Z.min_spec (b + 4) n) as [[Hlt ->] | [Hge ->]].
    + symmetry. apply window_split; lia.
    + rewrite (window_empty (b + 4) n) by lia. now rewrite app_nil_r.
  - apply Z.ltb_ge in Hbn. exec. rewrite window_empty by lia.
    simpl map. now rewrite with_frames_nil.
Qed.

End Loop.

Section Interrupted.
Variables (sessionDir : string) (cutout : Rect.t) (pageHeight : Z).
Variables (duration fps : num) (n : Z) (k0 : nat).
Hypothesis Htotal : totalFrames duration fps = Int n.
Hypothesis Hfail : forall k, k <> k0 -> failure env (Batch k) = None.
Hypothesis Hev : forall k, k <> k0 -> events env (Batch k) = [].

Let frame_at' := frame_at env sessionDir cutout pageHeight duration fps.

(** An event that cancels the request arrives during batch [k0].  When the
    batch completes its frames are written and the loop stops; when it
    rejects, the rejection leaves the loop. *)
Lemma batches_interrupted (e : event) (cd : CleanupData) :
  events env (Batch k0) = [e] ->
  (forall w, listeners w = early_listeners cd -> timer w = Some cd ->
             headersSent w = false -> isRequestCancelled w = false ->
             isRequestCancelled (deliver env w e) = true) ->
  forall (j : nat) fuel k batchStart w,
    (k + j = k0)%nat ->
    batchStart + 4 * Z.of_nat j < n ->
    (j < fuel)%nat ->
    listeners w = early_listeners cd -> timer w = Some cd ->
    headersSent w = false -> isRequestCancelled w = false ->
    batches env sessionDir cutout pageHeight duration fps fuel k batchStart w
    = match failure env (Batch k0) with
      | None =>
          (Returned,
           deliver env
             (with_frames
                (map frame_at'
                     (window batchStart (Z.min (batchStart + 4 * (Z.of_nat j + 1)) n))) w)
             e)
      | Some msg =>
          (Thrown (Error msg),
           deliver env
             (with_frames
                (map frame_at' (window batchStart (batchStart + 4 * Z.of_nat j))) w)
             e)
      end.
Proof.
  intros He Hcancel. induction j as [| j IH]; intros fuel k b w Hk Hb Hfuel Hl Ht Hh Hx;
    (destruct fuel as [| fuel]; [lia |]);
    cbn [batches]; rewrite Htotal; cbn [below min_index];
    (replace (b <? n) with true by (symmetry; apply Z.ltb_lt; lia)).
  - assert (k = k0) as -> by lia.
    exec. rewrite He. destruct (failure env (Batch k0)) as [msg |]; cbn [fold_left].
    + rewrite window_empty by lia. simpl map. now rewrite with_frames_nil.
    + rewrite Hcancel by (proj; assumption).
      unfold BATCH_SIZE. repeat f_equal; lia.
  - exec. rewrite Hfail, Hev by lia. cbn [fold_left]. proj. rewrite Hx.
    rewrite (IH fuel (S k) (b + BATCH_SIZE)) by (proj; try assumption; unfold BATCH_SIZE; lia).
    unfold BATCH_SIZE. rewrite (Z.min_l (b + 4) n) by lia.
    destruct (failure env (Batch k0)) as [msg |];
      rewrite with_frames_app, <- map_app.
    + replace (b + 4 * Z.of_nat (S j)) with (b + 4 + 4 * Z.of_nat j) by lia.
      rewrite <- window_split by lia. reflexivity.
    + replace (b + 4 * (Z.of_nat (S j) + 1)) with (b + 4 + 4 * (Z.of_nat j + 1)) by lia.
      rewrite <- window_split by lia. reflexivity.
Qed.

End Interrupted.

(** *** Detection and resize, stage by stage *)

Lemma detect_and_resize_calm sessionDir pageFile pageHeight cut pw ph w :
  calm_at env Detect -> calm_at env OriginalPageMetadata -> calm_at env Resize ->
  detectTransparentCutout (frame_image env) = Ok cut ->
  Rect.width cut <> 0 -> Rect.height cut <> 0 ->
  isRequestCancelled w = false ->
  page_meta env = (pw, ph) ->
  detect_and_resize env sessionDir pageFile pageHeight w
  = if Rect.width cut =? pw
    then (Value (cut, pageFile, pageHeight), w)
    else (Value (cut, path_join sessionDir "resized_page.png",
                 round_fin (fdiv (inject_Z (Rect.width cut))
                                 (fdiv (inject_Z pw) (inject_Z ph)))),
          create (path_join sessionDir "resized_page.png") w).
Proof.
  intros [F1 E1] [F2 E2] [F3 E3] Hdet Hw Hh Hc Hmeta.
  unfold detect_and_resize. exec. rewrite F1, E1, F2, E2, F3, E3, Hdet. cbn [fold_left id].
  apply Z.eqb_neq in Hw, Hh. rewrite Hw, Hh. cbn [orb].
  rewrite Hc, Hmeta.
  destruct (Rect.width cut =? pw); reflexivity.
Qed.

(** What the inner [catch] answers. *)
Lemma detect_and_resize_error sessionDir pageFile pageHeight w :
  calm_at env Detect ->
  forall message,
    detectTransparentCutout (frame_image env) = Err message ->
    detect_and_resize env sessionDir pageFile pageHeight w
    = (Returned,
       with_response
         {| status := 400;
            payload := Json [("error", ("Auto-detection failed: " ++ message)%string)] |} w).
Proof.
  intros [F1 E1] message Hdet.
  unfold detect_and_resize. exec. rewrite F1, E1, Hdet. reflexivity.
Qed.

Lemma detect_and_resize_empty sessionDir pageFile pageHeight cut w :
  calm_at env Detect ->
  detectTransparentCutout (frame_image env) = Ok cut ->
  Rect.width cut = 0 \/ Rect.height cut = 0 ->
  detect_and_resize env sessionDir pageFile pageHeight w
  = (Returned,
     with_response
       {| status := 400;
          payload := Json [("error",
                            "Could not detect a transparent cutout in the frame image.")] |} w).
Proof.
  intros [F1 E1] Hdet Hzero.
  assert (Hb : (Rect.width cut =? 0) || (Rect.height cut =? 0) = true).
  { apply orb_true_iff. rewrite !Z.eqb_eq. exact Hzero. }
  unfold detect_and_resize. exec. rewrite F1, E1, Hdet. cbn [fold_left id].
  rewrite Hb. reflexivity.
Qed.

Lemma detect_and_resize_resize_fails sessionDir pageFile pageHeight cut pw ph w message :
  calm_at env Detect -> calm_at env OriginalPageMetadata ->
  failure env Resize = Some message -> events env Resize = [] ->
  detectTransparentCutout (frame_image env) = Ok cut ->
  Rect.width cut <> 0 -> Rect.height cut <> 0 ->
  isRequestCancelled w = false ->
  page_meta env = (pw, ph) -> Rect.width cut <> pw ->
  detect_and_resize env sessionDir pageFile pageHeight w
  = (Returned,
     with_response
       {| status := 400;
          payload := Json [("error", ("Auto-detection failed: " ++ message)%string)] |} w).
Proof.
  intros [F1 E1] [F2 E2] F3 E3 Hdet Hw Hh Hc Hmeta Hne.
  unfold detect_and_resize. exec. rewrite F1, E1, F2, E2, F3, E3, Hdet. cbn [fold_left id].
  apply Z.eqb_neq in Hw, Hh, Hne. rewrite Hw, Hh. cbn [orb].
  rewrite Hc, Hmeta, Hne. reflexivity.
Qed.

(** *** The start of a job *)

Lemma started_facts req :
  let w := started env req in
  listeners w = early_listeners (job_data env req)
  /\ timer w = Some (job_data env req)
  /\ headersSent w = false /\ writableEnded w = false /\ closed w = false
  /\ isRequestCancelled w = false
  /\ sent w = [] /\ cleanups w = [] /\ trace w = [] /\ frames w = []
  /\ fs w = fs (initial req) ∪ {[tmpRoot env]} ∪ {[path_join (tmpRoot env) "uploads"]}
            ∪ {[job_path env]}.
Proof. repeat split. Qed.


Lemma prepared_facts req cut pw :
  let w := prepared env req cut pw in
  listeners w = early_listeners (job_data env req)
  /\ timer w = Some (job_data env req)
  /\ headersSent w = false /\ writableEnded w = false /\ closed w = false
  /\ isRequestCancelled w = false
  /\ sent w = [] /\ cleanups w = [] /\ trace w = [] /\ frames w = [].
Proof. unfold prepared. destruct (Rect.width cut =? pw); repeat split. Qed.

Lemma rendered_facts req cut pw ph n :
  let w := rendered env req cut pw ph n in
  listeners w = early_listeners (job_data env req)
  /\ timer w = Some (job_data env req)
  /\ headersSent w = false /\ writableEnded w = false /\ closed w = false
  /\ isRequestCancelled w = false
  /\ sent w = [] /\ cleanups w = [] /\ trace w = []
  /\ frames w = job_frames env req cut pw ph n.
Proof.
  destruct (prepared_facts req cut pw) as (H1 & H2 & H3 & H4 & H5 & H6 & H7 & H8 & H9 & H10).
  unfold rendered. cbn [listeners timer headersSent writableEnded closed isRequestCancelled
                        sent cleanups trace frames with_frames].
  rewrite H10. repeat split; assumption.
Qed.

Lemma encoded_facts req cut pw ph n :
  let w := encoded env req cut pw ph n in
  listeners w = late_listeners (job_data env req)
  /\ timer w = Some (job_data env req)
  /\ headersSent w = false /\ writableEnded w = false /\ closed w = false
  /\ isRequestCancelled w = false
  /\ sent w = [] /\ cleanups w = [] /\ trace w = []
  /\ frames w = job_frames env req cut pw ph n
  /\ fs w = fs (rendered env req cut pw ph n) ∪ {[output_path env]}.
Proof.
  destruct (rendered_facts req cut pw ph n)
    as (H1 & H2 & H3 & H4 & H5 & H6 & H7 & H8 & H9 & H10).
  unfold encoded.
  cbn [listeners timer headersSent writableEnded closed isRequestCancelled
       sent cleanups trace frames fs with_listener create with_fs].
  rewrite H1. repeat split; assumption.
Qed.

(** The files of a job in progress. *)
Lemma fs_started req :
  fs (started env req)
  = fs (initial req) ∪ {[tmpRoot env]} ∪ {[path_join (tmpRoot env) "uploads"]}
    ∪ {[job_path env]}.
Proof. reflexivity. Qed.

Lemma uploads_in_initial req f :
  In f (uploads_of req) -> path f ∈ fs (initial req).
Proof.
  intros Hin. cbn [fs initial]. apply elem_of_list_to_set, list_elem_of_In.
  now apply in_map.
Qed.

Lemma fs_prepared_sub req cut pw : fs (started env req) ⊆ fs (prepared env req cut pw).
Proof.
  unfold prepared. destruct (Rect.width cut =? pw); [reflexivity |].
  cbn [fs create with_fs]. apply union_subseteq_l.
Qed.

Lemma fs_rendered_sub req cut pw ph n :
  fs (started env req) ⊆ fs (rendered env req cut pw ph n).
Proof.
  unfold rendered. cbn [fs with_frames].
  etransitivity; [apply fs_prepared_sub | apply union_subseteq_l].
Qed.


(** The detection phase of a job in which nothing goes wrong. *)
Lemma detect_and_resize_prepared req pageFile cut pw ph :
  calm_at env Detect -> calm_at env OriginalPageMetadata -> calm_at env Resize ->
  detectTransparentCutout (frame_image env) = Ok cut ->
  Rect.width cut <> 0 -> Rect.height cut <> 0 ->
  page_meta env = (pw, ph) ->
  detect_and_resize env (job_path env) pageFile ph (started env req)
  = (Value (cut,
            if Rect.width cut =? pw then pageFile
            else path_join (job_path env) "resized_page.png",
            page_height cut pw ph),
     prepared env req cut pw).
Proof.
  intros C1 C2 C3 Hdet Hw Hh Hmeta.
  rewrite (detect_and_resize_calm _ _ _ cut pw ph) by (try assumption; reflexivity).
  unfold page_height, prepared. destruct (Rect.width cut =? pw); reflexivity.
Qed.

(** The frame loop of a job in which nothing goes wrong. *)
Lemma batches_rendered req cut pw ph n fuel :
  (forall k, calm_at env (Batch k)) ->
  totalFrames (effective_duration req) (effective_fps req) = Int n ->
  Z.max 0 n < Z.of_nat fuel ->
  batches env (job_path env) cut (page_height cut pw ph)
          (effective_duration req) (effective_fps req) fuel 0 0 (prepared env req cut pw)
  = (Value tt, rendered env req cut pw ph n).
Proof.
  intros Hcalm Htot Hfuel.
  rewrite (batches_calm _ _ _ _ _ n Htot (fun k => proj1 (Hcalm k)))
    by (try (intros j; apply Hcalm); try apply prepared_facts; lia).
  rewrite window_0. reflexivity.
Qed.


(** The frames written so far are the first frames of the job. *)
Lemma job_frames_index req cut pw ph m fr :
  In fr (job_frames env req cut pw ph m) -> 0 <= index fr < m.
Proof.
  unfold job_frames. intros (i & <- & Hi)%in_map_iff.
  cbn [index frame_at]. now apply DetectorFacts.In_upto.
Qed.

Lemma job_frames_In req cut pw ph m i :
  0 <= i < m ->
  In (frame_at env (job_path env) cut (page_height cut pw ph)
               (effective_duration req) (effective_fps req) i)
     (job_frames env req cut pw ph m).
Proof. intros Hi. unfold job_frames. apply in_map. now apply DetectorFacts.In_upto. Qed.

(** *** What a cancelling event does *)

Lemma deliver_cancels w cd e :
  e = ClientClose \/ e = TimeoutFires ->
  listeners w = early_listeners cd -> timer w = Some cd ->
  headersSent w = false -> isRequestCancelled w = false ->
  let W := deliver env w e in
  let reason := match e with ClientClose => "client-disconnect-early" | _ => "timeout" end in
  isRequestCancelled W = true
  /\ writableEnded W = writableEnded w
  /\ sent W = sent w /\ frames W = frames w
  /\ cleanups W
     = cleanups w
       ++ [(reason,
            match sessionDir cd with
            | Some dir => match rimraf_error env dir with Some _ => false | None => true end
            | None => true
            end)]
  /\ (forall q, q ∈ fs W <-> q ∈ fs (snd (performJobCleanup env cd reason w))).
Proof.
  intros He Hl Ht Hh Hx W reason. subst W reason.
  assert (Hfs : forall r w1, fs w1 = fs w ->
            forall q, q ∈ fs (snd (performJobCleanup env cd r w1))
                      <-> q ∈ fs (snd (performJobCleanup env cd r w))).
  { intros r w1 Hw1 q. rewrite !elem_of_cleanup, Hw1. reflexivity. }
  destruct He as [-> | ->].
  - rewrite (deliver_close w cd Hl Hh Hx).
    pose proof (cleanup_result env cd "client-disconnect-early"
                  (with_cancelled (with_closed w))) as Hres.
    pose proof (Hfs "client-disconnect-early" (with_cancelled (with_closed w)) eq_refl) as Hq.
    destruct (performJobCleanup_shape env cd "client-disconnect-early"
                (with_cancelled (with_closed w))) as (b & s & t & Hc).
    rewrite Hc in Hres, Hq |- *. cbn [fst] in Hres. injection Hres as ->.
    cbn [snd] in *. repeat split; try reflexivity; apply Hq.
  - rewrite (deliver_timeout w cd Ht Hh Hx).
    pose proof (cleanup_result env cd "timeout"
                  (with_cancelled (with_timer None w))) as Hres.
    pose proof (Hfs "timeout" (with_cancelled (with_timer None w)) eq_refl) as Hq.
    destruct (performJobCleanup_shape env cd "timeout"
                (with_cancelled (with_timer None w))) as (b & s & t & Hc).
    rewrite Hc in Hres, Hq |- *. cbn [fst] in Hres. injection Hres as ->.
    cbn [snd] in *. repeat split; try reflexivity; apply Hq.
Qed.

(** The shape of the world after a cancelling event. *)
Lemma deliver_cancels_shape w cd e :
  e = ClientClose \/ e = TimeoutFires ->
  listeners w = early_listeners cd -> timer w = Some cd ->
  headersSent w = false -> isRequestCancelled w = false ->
  exists b s t,
    deliver env w e
    = with_cleanup (cancel_reason e) b
        (with_fs_trace s t
           (with_cancelled
              (match e with ClientClose => with_closed w | _ => with_timer None w end))).
Proof.
  intros [-> | ->] Hl Ht Hh Hx.
  - rewrite (deliver_close w cd Hl Hh Hx).
    destruct (performJobCleanup_shape env cd "client-disconnect-early"
                (with_cancelled (with_closed w))) as (b & s & t & ->).
    now exists b, s, t.
  - rewrite (deliver_timeout w cd Ht Hh Hx).
    destruct (performJobCleanup_shape env cd "timeout"
                (with_cancelled (with_timer None w))) as (b & s & t & ->).
    now exists b, s, t.
Qed.

(** Once a response is written while only the early listeners are
    registered, nothing is cleaned afterwards, whether the connection is
    still open or not. *)
Lemma settle_answered w r cd :
  listeners w = early_listeners cd ->
  cleanups (settle env (with_response r w)) = cleanups w.
Proof.
  intros Hl. destruct (closed w) eqn:Hc.
  - unfold settle. cbn [writableEnded closed with_response]. rewrite Hc.
    cbn [negb andb deliver timer with_response].
    destruct (timer w); [| reflexivity].
    unfold run_timeout. proj. reflexivity.
  - now destruct (settle_early w r cd Hl Hc) as (_ & H & _).
Qed.

(** A job interrupted while batch [k0] is being written: the handler
    returns when the batch completes, and goes through its [catch] when the
    batch rejects. *)
Lemma run_interrupted fuel req pageUpload pw ph cut n (k0 : nat) e :
  e = ClientClose \/ e = TimeoutFires ->
  (forall s, s <> Batch k0 -> failure env s = None) ->
  (forall s, s <> Batch k0 -> events env s = []) ->
  events env (Batch k0) = [e] ->
  page req = Some pageUpload ->
  page_meta env = (pw, ph) ->
  pw <= MAX_DIMENSION -> ph <= MAX_DIMENSION ->
  detectTransparentCutout (frame_image env) = Ok cut ->
  Rect.width cut <> 0 -> Rect.height cut <> 0 ->
  totalFrames (effective_duration req) (effective_fps req) = Int n ->
  4 * Z.of_nat k0 < n ->
  (k0 < fuel)%nat ->
  run env fuel req
  = match failure env (Batch k0) with
    | None =>
        (Returned,
         settle env
           (deliver env (rendered env req cut pw ph (Z.min (4 * (Z.of_nat k0 + 1)) n)) e))
    | Some msg =>
        (Value tt,
         settle env
           (with_response (render_failed env (Error msg))
              (snd (performJobCleanup env (job_data env req) "render-error"
                      (deliver env (rendered env req cut pw ph (4 * Z.of_nat k0)) e)))))
    end.
Proof.
  intros He HF HE Hev Hpage Hmeta Hpw Hph Hdet Hw Hh Htot Hk0 Hfuel.
  assert (Hcalm : forall s, s <> Batch k0 -> calm_at env s).
  { intros s Hs. split; [now apply HF | now apply HE]. }
  assert (Hb : (MAX_DIMENSION <? pw) || (MAX_DIMENSION <? ph) = false).
  { apply orb_false_iff. rewrite !Z.ltb_ge. auto. }
  unfold run, render. exec. rewrite ?HF, ?HE by discriminate. rewrite Hpage. exec.
  rewrite ?HF, ?HE by discriminate. rewrite Hmeta. exec.
  rewrite Hb. cbn [fold_left id].
  change (detect_and_resize env _ _ _ _)
    with (detect_and_resize env (job_path env) pageUpload ph (started env req)).
  rewrite (detect_and_resize_prepared req pageUpload cut pw ph
             (Hcalm Detect ltac:(discriminate))
             (Hcalm OriginalPageMetadata ltac:(discriminate))
             (Hcalm Resize ltac:(discriminate)) Hdet Hw Hh Hmeta).
  cbv beta iota. rewrite ?HF, ?HE by discriminate. cbn [fold_left].
  change (batches env _ _ _ _ _ _ _ _ _)
    with (batches env (job_path env) cut (page_height cut pw ph)
                  (effective_duration req) (effective_fps req) fuel 0 0
                  (prepared env req cut pw)).
  destruct (prepared_facts req cut pw) as (Hl & Ht & Hhs & _ & _ & Hx & _).
  rewrite (batches_interrupted _ _ _ _ _ n k0 Htot
             (fun k Hk => HF (Batch k) ltac:(congruence))
             (fun k Hk => HE (Batch k) ltac:(congruence))
             e (job_data env req))
    with (j := k0); try assumption; try lia.
  - rewrite !window_0, Z.add_0_l.
    destruct (failure env (Batch k0)) as [msg |]; cbv beta iota; [| reflexivity].
    change (performJobCleanup env _ _ _)
      with (performJobCleanup env (job_data env req) "render-error"
              (deliver env (rendered env req cut pw ph (4 * Z.of_nat k0)) e)).
    destruct (performJobCleanup_shape env (job_data env req) "render-error"
                (deliver env (rendered env req cut pw ph (4 * Z.of_nat k0)) e))
      as (b & s & t & ->).
    reflexivity.
  - intros w Hlw Htw Hhw Hxw. now apply (deliver_cancels w (job_data env req) e).
Qed.


(** A job in which nothing goes wrong, up to the sending of the video. *)
Lemma run_encoded fuel req pageUpload pw ph cut n :
  quiet env ->
  page req = Some pageUpload ->
  page_meta env = (pw, ph) ->
  pw <= MAX_DIMENSION -> ph <= MAX_DIMENSION ->
  detectTransparentCutout (frame_image env) = Ok cut ->
  Rect.width cut <> 0 -> Rect.height cut <> 0 ->
  totalFrames (effective_duration req) (effective_fps req) = Int n ->
  Z.max 0 n < Z.of_nat fuel ->
  run env fuel req
  = (Value tt,
     settle env
       (with_response {| status := 200; payload := Video (output_path env) |}
                      (encoded env req cut pw ph n))).
Proof.
  intros Hq Hpage Hmeta Hpw Hph Hdet Hw Hh Htot Hfuel.
  pose proof Hq as [HF HE].
  assert (Hb : (MAX_DIMENSION <? pw) || (MAX_DIMENSION <? ph) = false).
  { apply orb_false_iff. rewrite !Z.ltb_ge. auto. }
  unfold run, render. exec. rewrite ?HF, ?HE, Hpage. exec. rewrite ?HF, ?HE, Hmeta. exec.
  rewrite Hb. cbn [fold_left id].
  change (detect_and_resize env _ _ _ _)
    with (detect_and_resize env (job_path env) pageUpload ph (started env req)).
  rewrite (detect_and_resize_prepared req pageUpload cut pw ph
             (quiet_calm Detect Hq) (quiet_calm OriginalPageMetadata Hq)
             (quiet_calm Resize Hq) Hdet Hw Hh Hmeta).
  cbv beta iota.
  change (batches env _ _ _ _ _ _ _ _ _)
    with (batches env (job_path env) cut (page_height cut pw ph)
                  (effective_duration req) (effective_fps req) fuel 0 0
                  (prepared env req cut pw)).
  rewrite (batches_rendered req cut pw ph n fuel (fun k => quiet_calm (Batch k) Hq) Htot Hfuel).
  cbv beta iota.
  replace (isRequestCancelled (rendered env req cut pw ph n)) with false
    by (symmetry; apply rendered_facts).
  reflexivity.
Qed.

End WithEnv.
End JobFacts.

(* ===================================================================== *)
(** ** Further properties: the response protocol *)
(* ===================================================================== *)

Section ProtocolProperties.
Import Js Detector Render Protocol CleanupFacts RemovalFacts RenderFacts ProtocolFacts
       Scenarios Incidents.
Local Open Scope job_scope.

(** X9.  Whatever fails and whatever the client does, at most one response
    of a job reaches the client, and its status is 200, 400 or 500. *)
Theorem at_most_one_response (env : Env) (fuel : nat) (req : Request) :
  (length (sent (snd (run env fuel req))) <= 1)%nat
  /\ (forall r, In r (sent (snd (run env fuel req))) ->
                status r = 200 \/ status r = 400 \/ status r = 500).
Proof.
  destruct (run_protocol env fuel req) as [-> | (r & -> & Hr)].
  - split; [cbn; lia | intros r []].
  - split; [cbn; lia |]. intros r' [<- | []].
    destruct Hr as [[_ Hr] | [[_ Hr] | (_ & Hr & _)]]; auto.
Qed.

(** X10.  A 400 reaches the client only when the handler left by an early
    [return], and a 200 or a 500 only when it ran to its end; a job that
    answered 500 has a [render-error] entry in its cleanup log. *)
Theorem error_response_implies_cleanup (env : Env) (fuel : nat) (req : Request)
    (r : Response) :
  In r (sent (snd (run env fuel req))) ->
  (status r = 400 -> fst (run env fuel req) = Returned)
  /\ (status r <> 400 -> fst (run env fuel req) = Value tt)
  /\ (status r = 500 ->
      exists b, In ("render-error", b) (cleanups (snd (run env fuel req)))).
Proof.
  intros Hin.
  destruct (run_protocol env fuel req) as [Hs | (r' & Hs & Hr)];
    rewrite Hs in Hin; [destruct Hin |].
  destruct Hin as [<- | []].
  destruct Hr as [[Ho Hr] | [[Ho Hr] | (Ho & Hr & Hlog)]]; rewrite Hr.
  - split; [auto |]. split; [congruence | discriminate].
  - split; [discriminate |]. split; [auto | discriminate].
  - split; [discriminate |]. split; [auto | auto].
Qed.

Lemma error_response_implies_cleanup_witness :
  exists b, In ("render-error", b)
               (cleanups (snd (run (failing small_env Encode "exit code 1") 20
                                   (request (Some (Fin 1)) (Some (Fin 12)))))).
Proof.
  refine (proj2 (proj2 (error_response_implies_cleanup
                          (failing small_env Encode "exit code 1") 20
                          (request (Some (Fin 1)) (Some (Fin 12)))
                          {| status := 500;
                             payload := Json [("error", "Render failed");
                                              ("details", "[object Object]");
                                              ("jobId", "job_1758349793301");
                                              ("message", "All temporary files have been cleaned up")] |}
                          _)) eq_refl).
  vm_compute. left. reflexivity.
Defined.

End ProtocolProperties.

(* ===================================================================== *)
(** ** Further properties: how a job ends *)
(* ===================================================================== *)

Section JobProperties.
Import Js Detector Render Protocol CleanupFacts RemovalFacts RenderFacts ProtocolFacts
       JobFacts NameFacts Scenarios Incidents.
Local Open Scope job_scope.

(** X11.  Once the temporary directories exist, no error escapes the
    handler: whatever fails afterwards is caught, and the [catch] block
    itself cannot fail. *)
Theorem handler_catches_every_error (env : Env) (fuel : nat) (req : Request) (e : exn) :
  failure env EnsureTmp = None ->
  fst (run env fuel req) <> Thrown e.
Proof.
  intros Hf. rewrite fst_run. unfold render. cbv zeta.
  unfold bind at 1. unfold await at 1. rewrite Hf. unfold try_catch.
  match goal with
  | |- context [let (o, w') := ?body ?w in _] => destruct (body w) as [[[] | | e0 |] w2]
  end; try discriminate.
  unfold bind.
  match goal with
  | |- context [performJobCleanup ?en ?cd ?r ?w] =>
      destruct (performJobCleanup_shape en cd r w) as (b & s & t & ->)
  end.
  discriminate.
Qed.

Lemma handler_catches_every_error_witness :
  fst (run (failing small_env Encode "exit code 1") 20 (request None None))
  <> Thrown Rejection.
Proof. apply handler_catches_every_error. reflexivity. Defined.

(** X12.  When the temporary directories cannot be created, the error is
    raised before the [try] block: it escapes the handler, the [catch]
    block does not run, nothing is cleaned up and the uploaded files stay. *)
Theorem failed_tmp_setup_escapes_the_handler (env : Env) (fuel : nat) (req : Request)
    (message : string) :
  failure env EnsureTmp = Some message ->
  let final := snd (run env fuel req) in
  fst (run env fuel req) = Thrown (Error message)
  /\ cleanups final = [] /\ trace final = [] /\ fs final = fs (initial req).
Proof.
  intros Hf final. subst final.
  assert (Hrun : run env fuel req
                 = (Thrown (Error message),
                    settle env (fold_left (deliver env) (events env EnsureTmp) (initial req)))).
  { unfold run, render. exec. rewrite Hf. reflexivity. }
  rewrite Hrun. cbn [fst snd].
  destruct (fold_deliver_bare env (events env EnsureTmp) (initial req) eq_refl eq_refl)
    as (Hfs & _ & Hc & Htr & _ & Hw & _ & Ht).
  unfold settle. rewrite Hw. cbn [writableEnded initial andb deliver]. rewrite Ht.
  rewrite Hfs, Hc, Htr. repeat split.
Qed.

Lemma failed_tmp_setup_escapes_the_handler_witness :
  fst (run (failing small_env EnsureTmp "EACCES") 20 full_request) = Thrown (Error "EACCES")
  /\ cleanups (snd (run (failing small_env EnsureTmp "EACCES") 20 full_request)) = []
  /\ fs (snd (run (failing small_env EnsureTmp "EACCES") 20 full_request))
     = fs (initial full_request).
Proof.
  pose proof (failed_tmp_setup_escapes_the_handler (failing small_env EnsureTmp "EACCES") 20
                full_request "EACCES" eq_refl) as H.
  cbv zeta in H. destruct H as (Ho & Hc & _ & Hfs).
  exact (conj Ho (conj Hc Hfs)).
Defined.

(** X13.  A request without a page is answered with a 400 before anything
    is set up: no working directory is created and no cleanup runs, so an
    uploaded frame stays in the uploads directory. *)
Theorem missing_page_is_rejected (env : Env) (fuel : nat) (req : Request) :
  page req = None ->
  calm_at env EnsureTmp ->
  let final := snd (run env fuel req) in
  fst (run env fuel req) = Returned
  /\ sent final
     = [{| status := 400;
           payload := Json [("error", "Please upload a page (long screenshot).")] |}]
  /\ cleanups final = [] /\ trace final = []
  /\ fs final = fs (initial req) ∪ {[tmpRoot env]} ∪ {[path_join (tmpRoot env) "uploads"]}
  /\ (forall p, frame req = Some p -> p ∈ fs final).
Proof.
  intros Hpage [Hf He] final. subst final.
  set (r := {| status := 400;
               payload := Json [("error", "Please upload a page (long screenshot).")] |}).
  set (w := create (path_join (tmpRoot env) "uploads") (create (tmpRoot env) (initial req))).
  assert (Hrun : run env fuel req = (Returned, settle env (with_response r w))).
  { unfold run, render. exec. rewrite Hf, He, Hpage. reflexivity. }
  rewrite Hrun. cbn [fst snd].
  destruct (settle_bare env w r eq_refl eq_refl eq_refl) as (Hs & Hc & Ht & Hfs & _).
  rewrite Hs, Hc, Ht, Hfs.
  split; [reflexivity |]. split; [reflexivity |]. split; [reflexivity |].
  split; [reflexivity |]. split; [reflexivity |].
  intros p Hp. subst w. cbn [fs create with_fs initial].
  do 2 apply elem_of_union_l. unfold uploads_of. rewrite Hp, Hpage.
  cbn. apply elem_of_union_l, elem_of_singleton. reflexivity.
Qed.

Lemma missing_page_is_rejected_witness :
  fst (run small_env 20 frame_only) = Returned
  /\ cleanups (snd (run small_env 20 frame_only)) = []
  /\ frame_upload ∈ fs (snd (run small_env 20 frame_only)).
Proof.
  pose proof (missing_page_is_rejected small_env 20 frame_only eq_refl
                (conj eq_refl eq_refl)) as H.
  cbv zeta in H. destruct H as (Ho & _ & Hc & _ & _ & Hp).
  exact (conj Ho (conj Hc (Hp frame_upload eq_refl))).
Defined.

(** X14.  An error of the detector (for instance a frame without alpha
    channel) is answered with a 400 that carries the detector's message; the
    handler returns without generating a frame and without cleanup. *)
Theorem detection_error_is_a_400 (env : Env) (fuel : nat) (req : Request)
    (pageUpload : string) (pw ph : Z) (message : string) :
  quiet env ->
  page req = Some pageUpload ->
  page_meta env = (pw, ph) ->
  pw <= MAX_DIMENSION -> ph <= MAX_DIMENSION ->
  detectTransparentCutout (frame_image env) = Err message ->
  let final := snd (run env fuel req) in
  fst (run env fuel req) = Returned
  /\ sent final
     = [{| status := 400;
           payload := Json [("error", ("Auto-detection failed: " ++ message)%string)] |}]
  /\ cleanups final = [] /\ frames final = []
  /\ fs final = fs (started env req).
Proof.
  intros Hq Hpage Hmeta Hpw Hph Hdet final. subst final.
  pose proof Hq as [HF HE].
  assert (Hb : (MAX_DIMENSION <? pw) || (MAX_DIMENSION <? ph) = false).
  { apply orb_false_iff. rewrite !Z.ltb_ge. auto. }
  set (r := {| status := 400;
               payload := Json [("error", ("Auto-detection failed: " ++ message)%string)] |}).
  assert (Hrun : run env fuel req = (Returned, settle env (with_response r (started env req)))).
  { unfold run, render. exec. rewrite ?HF, ?HE, Hpage. exec. rewrite ?HF, ?HE, Hmeta. exec.
    rewrite Hb. cbn [fold_left id].
    rewrite (detect_and_resize_error env _ _ _ _ (quiet_calm env Detect Hq) message Hdet).
    reflexivity. }
  rewrite Hrun. cbn [fst snd].
  destruct (settle_early env (started env req) r (job_data env req) eq_refl eq_refl)
    as (Hs & Hc & _ & Hfs & Hfr).
  rewrite Hs, Hc, Hfs, Hfr. repeat split.
Qed.

Lemma detection_error_is_a_400_witness :
  sent (snd (run no_alpha_env 10 (request None None)))
  = [{| status := 400;
        payload :=
          Json [("error",
                 "Auto-detection failed: Failed to detect transparent cutout: Frame image must have an alpha channel (RGBA)")] |}].
Proof.
  pose proof (detection_error_is_a_400 no_alpha_env 10 (request None None) page_upload 4 10
                "Failed to detect transparent cutout: Frame image must have an alpha channel (RGBA)"
                (calm_quiet _ _) eq_refl eq_refl) as H.
  cbv zeta in H. destruct H as (_ & Hs & _); [vm_compute; discriminate .. | reflexivity |].
  exact Hs.
Defined.


(** X15.  A frame in which no cutout is found (the detector returns a
    rectangle with a zero side) is answered with a 400; nothing is
    generated and no cleanup runs. *)
Theorem empty_cutout_is_a_400 (env : Env) (fuel : nat) (req : Request)
    (pageUpload : string) (pw ph : Z) (cut : Rect.t) :
  quiet env ->
  page req = Some pageUpload ->
  page_meta env = (pw, ph) ->
  pw <= MAX_DIMENSION -> ph <= MAX_DIMENSION ->
  detectTransparentCutout (frame_image env) = Ok cut ->
  Rect.width cut = 0 \/ Rect.height cut = 0 ->
  let final := snd (run env fuel req) in
  fst (run env fuel req) = Returned
  /\ sent final
     = [{| status := 400;
           payload := Json [("error",
                             "Could not detect a transparent cutout in the frame image.")] |}]
  /\ cleanups final = [] /\ frames final = []
  /\ fs final = fs (started env req).
Proof.
  intros Hq Hpage Hmeta Hpw Hph Hdet Hzero final. subst final.
  pose proof Hq as [HF HE].
  assert (Hb : (MAX_DIMENSION <? pw) || (MAX_DIMENSION <? ph) = false).
  { apply orb_false_iff. rewrite !Z.ltb_ge. auto. }
  set (r := {| status := 400;
               payload := Json [("error",
                                 "Could not detect a transparent cutout in the frame image.")] |}).
  assert (Hrun : run env fuel req = (Returned, settle env (with_response r (started env req)))).
  { unfold run, render. exec. rewrite ?HF, ?HE, Hpage. exec. rewrite ?HF, ?HE, Hmeta. exec.
    rewrite Hb. cbn [fold_left id].
    rewrite (detect_and_resize_empty env _ _ _ cut _ (quiet_calm env Detect Hq) Hdet Hzero).
    reflexivity. }
  rewrite Hrun. cbn [fst snd].
  destruct (settle_early env (started env req) r (job_data env req) eq_refl eq_refl)
    as (Hs & Hc & _ & Hfs & Hfr).
  rewrite Hs, Hc, Hfs, Hfr. repeat split.
Qed.

Lemma empty_cutout_is_a_400_witness :
  sent (snd (run opaque_env 10 (request None None)))
  = [{| status := 400;
        payload := Json [("error",
                          "Could not detect a transparent cutout in the frame image.")] |}].
Proof.
  pose proof (empty_cutout_is_a_400 opaque_env 10 (request None None) page_upload 4 10
                (Rect.mk 0 0 0 0) (calm_quiet _ _) eq_refl eq_refl) as H.
  cbv zeta in H.
  destruct H as (_ & Hs & _);
    [vm_compute; discriminate | vm_compute; discriminate | reflexivity | left; reflexivity |].
  exact Hs.
Defined.

(** X16.  The resize of the page happens inside the detection [try]: when
    it fails, the client gets a 400 "Auto-detection failed" with the
    resize error's message, not a 500, and no cleanup runs. *)
Theorem resize_failure_is_reported_as_detection_failure (env : Env) (fuel : nat)
    (req : Request) (pageUpload : string) (pw ph : Z) (cut : Rect.t) (message : string) :
  (forall s, s <> Resize -> calm_at env s) ->
  failure env Resize = Some message -> events env Resize = [] ->
  page req = Some pageUpload ->
  page_meta env = (pw, ph) ->
  pw <= MAX_DIMENSION -> ph <= MAX_DIMENSION ->
  detectTransparentCutout (frame_image env) = Ok cut ->
  Rect.width cut <> 0 -> Rect.height cut <> 0 ->
  Rect.width cut <> pw ->
  let final := snd (run env fuel req) in
  fst (run env fuel req) = Returned
  /\ sent final
     = [{| status := 400;
           payload := Json [("error", ("Auto-detection failed: " ++ message)%string)] |}]
  /\ cleanups final = [] /\ frames final = []
  /\ fs final = fs (started env req).
Proof.
  intros Hcalm Hfail Hev Hpage Hmeta Hpw Hph Hdet Hw Hh Hne final. subst final.
  assert (Hb : (MAX_DIMENSION <? pw) || (MAX_DIMENSION <? ph) = false).
  { apply orb_false_iff. rewrite !Z.ltb_ge. auto. }
  destruct (Hcalm EnsureTmp ltac:(discriminate)) as [F1 E1].
  destruct (Hcalm Mkdir ltac:(discriminate)) as [F2 E2].
  destruct (Hcalm PageMetadata ltac:(discriminate)) as [F3 E3].
  set (r := {| status := 400;
               payload := Json [("error", ("Auto-detection failed: " ++ message)%string)] |}).
  assert (Hrun : run env fuel req = (Returned, settle env (with_response r (started env req)))).
  { unfold run, render. exec. rewrite F1, E1, Hpage. exec. rewrite F2, E2, F3, E3, Hmeta. exec.
    rewrite Hb. cbn [fold_left id].
    rewrite (detect_and_resize_resize_fails env _ _ _ cut pw ph (started env req) message
               (Hcalm Detect ltac:(discriminate))
               (Hcalm OriginalPageMetadata ltac:(discriminate))
               Hfail Hev Hdet Hw Hh eq_refl Hmeta Hne).
    reflexivity. }
  rewrite Hrun. cbn [fst snd].
  destruct (settle_early env (started env req) r (job_data env req) eq_refl eq_refl)
    as (Hs & Hc & _ & Hfs & Hfr).
  rewrite Hs, Hc, Hfs, Hfr. repeat split.
Qed.

Lemma resize_failure_is_reported_as_detection_failure_witness :
  sent (snd (run (failing wide_page_env Resize "ENOSPC") 10 (request None None)))
  = [{| status := 400;
        payload := Json [("error", "Auto-detection failed: ENOSPC")] |}].
Proof.
  pose proof (resize_failure_is_reported_as_detection_failure
                (failing wide_page_env Resize "ENOSPC") 10 (request None None)
                page_upload 8 20 (Rect.mk 0 0 4 4) "ENOSPC") as H.
  cbv zeta in H.
  destruct H as (_ & Hs & _);
    [ first [ reflexivity
            | vm_compute; discriminate
            | intros s Hs; split; [destruct s; try reflexivity; contradiction | reflexivity] ] ..
    | exact Hs ].
Defined.


(** X17.  When the encoder fails after all frames were written, the
    [catch] block cleans up once and answers with a 500.  [runFFmpeg]
    rejects with a plain object, so the [details] of the response are
    ["[object Object]"] whatever the encoder reported. *)
Theorem encoder_failure_is_a_500 (env : Env) (fuel : nat) (req : Request)
    (pageUpload : string) (pw ph : Z) (cut : Rect.t) (n : Z) (message : string) :
  (forall s, s <> Encode -> calm_at env s) ->
  failure env Encode = Some message -> events env Encode = [] ->
  page req = Some pageUpload ->
  page_meta env = (pw, ph) ->
  pw <= MAX_DIMENSION -> ph <= MAX_DIMENSION ->
  detectTransparentCutout (frame_image env) = Ok cut ->
  Rect.width cut <> 0 -> Rect.height cut <> 0 ->
  totalFrames (effective_duration req) (effective_fps req) = Int n ->
  Z.max 0 n < Z.of_nat fuel ->
  let final := snd (run env fuel req) in
  fst (run env fuel req) = Value tt
  /\ sent final
     = [{| status := 500;
           payload := Json [("error", "Render failed");
                            ("details", "[object Object]");
                            ("jobId", ("job_" ++ show (now env))%string);
                            ("message", "All temporary files have been cleaned up")] |}]
  /\ cleanups final
     = [("render-error",
         match rimraf_error env (job_path env) with None => true | Some _ => false end)]
  /\ frames final = job_frames env req cut pw ph n
  /\ (rimraf_error env (job_path env) = None ->
      forall p, under (job_path env) p = true -> p ∉ fs final).
Proof.
  intros Hcalm Hfail Hev Hpage Hmeta Hpw Hph Hdet Hw Hh Htot Hfuel final. subst final.
  assert (Hb : (MAX_DIMENSION <? pw) || (MAX_DIMENSION <? ph) = false).
  { apply orb_false_iff. rewrite !Z.ltb_ge. auto. }
  destruct (Hcalm EnsureTmp ltac:(discriminate)) as [F1 E1].
  destruct (Hcalm Mkdir ltac:(discriminate)) as [F2 E2].
  destruct (Hcalm PageMetadata ltac:(discriminate)) as [F3 E3].
  destruct (Hcalm FrameRead ltac:(discriminate)) as [F4 E4].
  destruct (Hcalm FrameMetadata ltac:(discriminate)) as [F5 E5].
  set (r := {| status := 500;
               payload := Json [("error", "Render failed");
                                ("details", "[object Object]");
                                ("jobId", ("job_" ++ show (now env))%string);
                                ("message", "All temporary files have been cleaned up")] |}).
  set (W := rendered env req cut pw ph n).
  destruct (performJobCleanup_shape env (job_data env req) "render-error" W)
    as (b & s & t & Hc).
  assert (Hrun : run env fuel req
                 = (Value tt,
                    settle env (with_response r
                                  (with_cleanup "render-error" b (with_fs_trace s t W))))).
  { unfold run, render. exec. rewrite F1, E1, Hpage. exec. rewrite F2, E2, F3, E3, Hmeta. exec.
    rewrite Hb. cbn [fold_left id].
    change (detect_and_resize env _ _ _ _)
      with (detect_and_resize env (job_path env) pageUpload ph (started env req)).
    rewrite (detect_and_resize_prepared env req pageUpload cut pw ph
               (Hcalm Detect ltac:(discriminate))
               (Hcalm OriginalPageMetadata ltac:(discriminate))
               (Hcalm Resize ltac:(discriminate)) Hdet Hw Hh Hmeta).
    cbv beta iota. rewrite F4, E4, F5, E5. cbn [fold_left].
    change (batches env _ _ _ _ _ _ _ _ _)
      with (batches env (job_path env) cut (page_height cut pw ph)
                    (effective_duration req) (effective_fps req) fuel 0 0
                    (prepared env req cut pw)).
    rewrite (batches_rendered env req cut pw ph n fuel
               (fun k => Hcalm (Batch k) ltac:(discriminate)) Htot Hfuel).
    fold W. cbv beta iota.
    replace (isRequestCancelled W) with false by (symmetry; apply rendered_facts).
    rewrite Hfail, Hev. cbn [fold_left]. cbv beta iota.
    change (performJobCleanup env _ _ _)
      with (performJobCleanup env (job_data env req) "render-error" W).
    rewrite Hc. reflexivity. }
  rewrite Hrun. cbn [fst snd].
  destruct (rendered_facts env req cut pw ph n)
    as (Hl & _ & _ & _ & Hcl & _ & Hs0 & Hc0 & _ & Hfr0).
  destruct (settle_early env (with_cleanup "render-error" b (with_fs_trace s t W)) r
              (job_data env req) Hl Hcl) as (Hs & Hcs & _ & Hfs & Hfr).
  rewrite Hs, Hcs, Hfs, Hfr.
  cbn [sent cleanups frames fs with_cleanup with_fs_trace]. fold W in Hs0, Hc0, Hfr0.
  rewrite Hs0, Hc0, Hfr0.
  assert (Hb' : b = match rimraf_error env (job_path env) with
                    | None => true | Some _ => false end).
  { pose proof (cleanup_result env (job_data env req) "render-error" W) as Hres.
    rewrite Hc in Hres. cbn [fst job_data sessionDir] in Hres. now injection Hres. }
  split; [reflexivity |]. split; [reflexivity |]. split; [now rewrite Hb' |].
  split; [reflexivity |].
  intros Hok p Hp Hin.
  assert (Hin' : p ∈ fs (snd (performJobCleanup env (job_data env req) "render-error" W)))
    by now rewrite Hc.
  apply elem_of_cleanup in Hin'. cbn [job_data sessionDir] in Hin'. rewrite Hok in Hin'.
  destruct Hin' as (_ & Hout & _). congruence.
Qed.

Lemma encoder_failure_is_a_500_witness :
  sent (snd (run (failing small_env Encode "exit code 1") 20
                 (request (Some (Fin 1)) (Some (Fin 12)))))
  = [{| status := 500;
        payload := Json [("error", "Render failed");
                         ("details", "[object Object]");
                         ("jobId", "job_1758349793301");
                         ("message", "All temporary files have been cleaned up")] |}]
  /\ length (frames (snd (run (failing small_env Encode "exit code 1") 20
                              (request (Some (Fin 1)) (Some (Fin 12)))))) = 12%nat.
Proof.
  pose proof (encoder_failure_is_a_500 (failing small_env Encode "exit code 1") 20
                (request (Some (Fin 1)) (Some (Fin 12))) page_upload 4 10
                (Rect.mk 0 0 4 4) 12 "exit code 1") as H.
  cbv zeta in H.
  destruct H as (_ & Hs & _ & Hfr & _);
    [ first [ reflexivity
            | vm_compute; discriminate
            | vm_compute; reflexivity
            | intros s Hs; split; [destruct s; try reflexivity; contradiction | reflexivity] ] ..
    | ].
  split; [exact Hs |]. rewrite Hfr. reflexivity.
Defined.


(** X18.  A job in which nothing fails and whose video is delivered is
    cleaned up exactly once, by the ['finish'] listener; when [rimraf]
    succeeds nothing of the working directory is left, and every uploaded
    file whose [unlink] succeeds is gone. *)
Theorem delivered_job_leaves_nothing (env : Env) (fuel : nat) (req : Request)
    (pageUpload : string) (pw ph : Z) (cut : Rect.t) (n : Z) :
  quiet env -> delivered env = true ->
  page req = Some pageUpload ->
  page_meta env = (pw, ph) ->
  pw <= MAX_DIMENSION -> ph <= MAX_DIMENSION ->
  detectTransparentCutout (frame_image env) = Ok cut ->
  Rect.width cut <> 0 -> Rect.height cut <> 0 ->
  totalFrames (effective_duration req) (effective_fps req) = Int n ->
  Z.max 0 n < Z.of_nat fuel ->
  let final := snd (run env fuel req) in
  fst (run env fuel req) = Value tt
  /\ sent final = [{| status := 200; payload := Video (output_path env) |}]
  /\ cleanups final
     = [("success",
         match rimraf_error env (job_path env) with None => true | Some _ => false end)]
  /\ (rimraf_error env (job_path env) = None ->
      (forall p, under (job_path env) p = true -> p ∉ fs final)
      /\ (forall f, In f (uploads_of req) -> unlink_error env (path f) = None ->
                    path f ∉ fs final)).
Proof.
  intros Hq Hd Hpage Hmeta Hpw Hph Hdet Hw Hh Htot Hfuel final. subst final.
  rewrite (run_encoded env fuel req pageUpload pw ph cut n) by assumption.
  cbn [fst snd].
  set (r := {| status := 200; payload := Video (output_path env) |}).
  set (W := encoded env req cut pw ph n).
  destruct (encoded_facts env req cut pw ph n)
    as (Hl & _ & _ & _ & Hcl & Hx & Hs0 & Hc0 & _).
  fold W in Hl, Hcl, Hx, Hs0, Hc0.
  rewrite (settle_delivered env W r (job_data env req) Hl Hcl Hx Hd).
  set (W1 := with_timer None (with_response r W)).
  pose proof (cleanup_result env (job_data env req) "success" W1) as Hres.
  assert (Hfs : forall q, q ∈ fs (snd (performJobCleanup env (job_data env req) "success" W1))
                          -> under (job_path env) q = true \/
                             (In q (map path (uploads_of req)) /\ unlink_error env q = None)
                          -> rimraf_error env (job_path env) = None -> False).
  { intros q Hin Hq' Hok. apply elem_of_cleanup in Hin.
    cbn [job_data sessionDir uploadedFiles] in Hin. rewrite Hok in Hin.
    destruct Hin as (_ & Hout & Hno). destruct Hq' as [Hu | Hu]; [congruence | tauto]. }
  destruct (performJobCleanup_shape env (job_data env req) "success" W1)
    as (b & s & t & Hc).
  rewrite Hc in Hres, Hfs |- *. cbn [fst job_data sessionDir] in Hres. injection Hres as ->.
  cbn [snd sent cleanups fs with_closed with_cleanup with_fs_trace] in *.
  subst W1. cbn [sent cleanups closed with_timer with_response].
  rewrite Hcl, Hs0, Hc0.
  split; [reflexivity |]. split; [reflexivity |]. split; [reflexivity |].
  intros Hok. split.
  - intros p Hp Hin. apply (Hfs p Hin); [now left | exact Hok].
  - intros f Hf Herr Hin. apply (Hfs (path f) Hin); [| exact Hok].
    right. split; [now apply in_map | exact Herr].
Qed.

Lemma delivered_job_leaves_nothing_witness :
  cleanups (snd (run small_env 20 full_request)) = [("success", true)]
  /\ (job_dir ∉ fs (snd (run small_env 20 full_request)))
  /\ (frame_upload ∉ fs (snd (run small_env 20 full_request)))
  /\ (page_upload ∉ fs (snd (run small_env 20 full_request))).
Proof.
  pose proof (delivered_job_leaves_nothing small_env 20 full_request page_upload 4 10
                (Rect.mk 0 0 4 4) 12 (calm_quiet _ _) eq_refl eq_refl eq_refl) as H.
  cbv zeta in H.
  destruct H as (_ & _ & Hc & Hgone);
    [ first [ vm_compute; discriminate | vm_compute; reflexivity ] .. | ].
  destruct (Hgone eq_refl) as [Hdir Hup].
  refine (conj Hc (conj (Hdir job_dir eq_refl) (conj _ _))).
  - apply (Hup {| path := frame_upload; type := "frame" |}); [left; reflexivity | reflexivity].
  - apply (Hup {| path := page_upload; type := "page" |});
      [right; left; reflexivity | reflexivity].
Defined.

(** X20.  A client disconnect or the five-minute timer that arrives while
    batch [k0] of the frames is in flight cancels the job: cleanup runs with
    the event's reason, no frame of a later batch is rendered and no video
    is sent.  When the interrupted batch still
    completes, the handler returns without writing a response.  When it
    rejects (its directory may be gone), the handler's [catch] runs a second
    cleanup with reason [render-error] and answers 500, which reaches the
    client only if the connection is still open.  The frames of the batches
    before [k0] were rendered in either case. *)
Theorem cancellation_stops_the_frame_loop (env : Env) (fuel : nat) (req : Request)
    (pageUpload : string) (pw ph : Z) (cut : Rect.t) (n : Z) (k0 : nat) (e : event) :
  e = ClientClose \/ e = TimeoutFires ->
  (forall s, s <> Batch k0 -> failure env s = None) ->
  (forall s, s <> Batch k0 -> events env s = []) ->
  events env (Batch k0) = [e] ->
  page req = Some pageUpload ->
  page_meta env = (pw, ph) ->
  pw <= MAX_DIMENSION -> ph <= MAX_DIMENSION ->
  detectTransparentCutout (frame_image env) = Ok cut ->
  Rect.width cut <> 0 -> Rect.height cut <> 0 ->
  totalFrames (effective_duration req) (effective_fps req) = Int n ->
  n < 2 ^ 53 ->
  4 * Z.of_nat k0 < n ->
  (k0 < fuel)%nat ->
  let final := snd (run env fuel req) in
  (forall fr, In fr (frames final) -> 0 <= index fr < 4 * (Z.of_nat k0 + 1))
  /\ (forall i, 0 <= i < 4 * Z.of_nat k0 ->
        In (frame_at env (job_path env) cut (page_height cut pw ph)
                     (effective_duration req) (effective_fps req) i)
           (frames final))
  /\ (forall r, In r (sent final) -> status r = 500)
  /\ match failure env (Batch k0) with
     | None =>
         fst (run env fuel req) = Returned
         /\ sent final = []
         /\ exists b, cleanups final = [(cancel_reason e, b)]
     | Some msg =>
         fst (run env fuel req) = Value tt
         /\ sent final
            = match e with
              | ClientClose => []
              | _ => [render_failed env (Error msg)]
              end
         /\ exists b1 b2,
              cleanups final = [(cancel_reason e, b1); ("render-error", b2)]
     end.
Proof.
  intros He HF HE Hev Hpage Hmeta Hpw Hph Hdet Hw Hh Htot Hn Hk0 Hfuel final. subst final.
  rewrite (run_interrupted env fuel req pageUpload pw ph cut n k0 e) by assumption.
  destruct (failure env (Batch k0)) as [msg |]; cbn [fst snd].
  - set (W := rendered env req cut pw ph (4 * Z.of_nat k0)).
    destruct (rendered_facts env req cut pw ph (4 * Z.of_nat k0))
      as (Hl & Ht & Hhs & _ & Hcl & Hx & Hs0 & Hc0 & _ & Hfr0).
    fold W in Hl, Ht, Hhs, Hcl, Hx, Hs0, Hc0, Hfr0.
    destruct (deliver_cancels_shape env W (job_data env req) e He Hl Ht Hhs Hx)
      as (b1 & s1 & t1 & Hd).
    destruct (performJobCleanup_shape env (job_data env req) "render-error"
                (deliver env W e)) as (b2 & s2 & t2 & Hc).
    rewrite Hc. cbn [snd]. rewrite frames_settle, sent_settle.
    rewrite (settle_answered env _ (render_failed env (Error msg)) (job_data env req))
      by (rewrite Hd; destruct e; exact Hl).
    rewrite Hd.
    cbn [frames sent cleanups closed with_response with_cleanup with_fs_trace with_cancelled].
    assert (Hfr : frames (match e with
                          | ClientClose => with_closed W
                          | _ => with_timer None W
                          end) = job_frames env req cut pw ph (4 * Z.of_nat k0))
      by (destruct e; exact Hfr0).
    assert (Hcs : cleanups (match e with
                            | ClientClose => with_closed W
                            | _ => with_timer None W
                            end) = [])
      by (destruct e; exact Hc0).
    rewrite Hfr, Hcs.
    assert (Hsent : (if closed (match e with
                                | ClientClose => with_closed W
                                | _ => with_timer None W
                                end)
                     then sent (match e with
                                | ClientClose => with_closed W
                                | _ => with_timer None W
                                end)
                     else sent (match e with
                                | ClientClose => with_closed W
                                | _ => with_timer None W
                                end) ++ [render_failed env (Error msg)])
                    = match e with
                      | ClientClose => []
                      | _ => [render_failed env (Error msg)]
                      end).
    { destruct He as [-> | ->];
        cbn [closed sent with_closed with_timer]; rewrite ?Hcl, Hs0; reflexivity. }
    rewrite Hsent.
    split; [| split; [| split; [| split; [| split]]]].
    + intros fr Hin. apply job_frames_index in Hin. lia.
    + intros i Hi. now apply job_frames_In.
    + intros r Hin. destruct He as [-> | ->]; [destruct Hin |].
      destruct Hin as [<- | []]. reflexivity.
    + reflexivity.
    + reflexivity.
    + exists b1, b2. reflexivity.
  - set (m := Z.min (4 * (Z.of_nat k0 + 1)) n).
    set (W := rendered env req cut pw ph m).
    destruct (rendered_facts env req cut pw ph m)
      as (Hl & Ht & Hhs & Hwe & _ & Hx & Hs0 & Hc0 & _ & Hfr0).
    fold W in Hl, Ht, Hhs, Hwe, Hx, Hs0, Hc0, Hfr0.
    destruct (deliver_cancels env W (job_data env req) e He Hl Ht Hhs Hx)
      as (Hx1 & Hwe1 & Hs1 & Hfr1 & Hc1 & _).
    rewrite Hwe in Hwe1.
    destruct (settle_cancelled env (deliver env W e) Hwe1 Hx1)
      as (Hs2 & Hc2 & _ & _ & Hfr2).
    rewrite Hs2, Hc2, Hfr2, Hs1, Hc1, Hfr1, Hs0, Hc0, Hfr0.
    split; [| split; [| split; [| split; [| split]]]].
    + intros fr Hin. apply job_frames_index in Hin. lia.
    + intros i Hi. apply job_frames_In. lia.
    + intros r [].
    + reflexivity.
    + reflexivity.
    + eexists. destruct He as [-> | ->]; reflexivity.
Qed.

(** The timer fires during the second batch and the batch loses its
    directory; a client disconnects during the second batch, which still
    completes. *)
Lemma cancellation_stops_the_frame_loop_witness :
  (fst (run (failing (interrupted small_env (Batch 1) [TimeoutFires]) (Batch 1) "ENOENT")
            20 full_request) = Value tt
   /\ sent (snd (run (failing (interrupted small_env (Batch 1) [TimeoutFires])
                              (Batch 1) "ENOENT") 20 full_request))
      = [render_failed small_env (Error "ENOENT")]
   /\ exists b1 b2,
        cleanups (snd (run (failing (interrupted small_env (Batch 1) [TimeoutFires])
                                    (Batch 1) "ENOENT") 20 full_request))
        = [("timeout", b1); ("render-error", b2)])
  /\ (fst (run (interrupted small_env (Batch 1) [ClientClose]) 20 full_request) = Returned
      /\ sent (snd (run (interrupted small_env (Batch 1) [ClientClose]) 20 full_request)) = []
      /\ exists b,
           cleanups (snd (run (interrupted small_env (Batch 1) [ClientClose]) 20
                              full_request))
           = [("client-disconnect-early", b)]).
Proof.
  pose proof (cancellation_stops_the_frame_loop
                (failing (interrupted small_env (Batch 1) [TimeoutFires]) (Batch 1) "ENOENT")
                20 full_request page_upload 4 10 (Rect.mk 0 0 4 4) 12 1 TimeoutFires) as H.
  pose proof (cancellation_stops_the_frame_loop
                (interrupted small_env (Batch 1) [ClientClose])
                20 full_request page_upload 4 10 (Rect.mk 0 0 4 4) 12 1 ClientClose) as H'.
  cbv zeta in H, H'.
  destruct H as (_ & _ & _ & Hcase);
    [ first [ reflexivity
            | now right
            | vm_compute; discriminate
            | vm_compute; reflexivity
            | lia
            | intros s Hs; destruct s as [| | | | | | | | [| [| k]] | |];
              try reflexivity; contradiction ] .. | ].
  destruct H' as (_ & _ & _ & Hcase');
    [ first [ reflexivity
            | now left
            | vm_compute; discriminate
            | vm_compute; reflexivity
            | lia
            | intros s Hs; destruct s as [| | | | | | | | [| [| k]] | |];
              try reflexivity; contradiction ] .. | ].
  exact (conj Hcase Hcase').
Defined.


(** X22.  The frame images of a job have pairwise distinct names, all
    inside the working directory: no frame overwrites another, and
    removing the directory removes them all.  The indices are below
    [2^53 - 1], where the [i + 1] of the file name is exact. *)
Theorem frame_files_are_distinct (env : Env) (sessionDir : string) (cut : Rect.t)
    (pageHeight : Z) (duration fps : num) (i j : Z) :
  0 <= i < 2 ^ 53 - 1 -> 0 <= j < 2 ^ 53 - 1 -> i <> j ->
  file (frame_at env sessionDir cut pageHeight duration fps i)
  <> file (frame_at env sessionDir cut pageHeight duration fps j)
  /\ under sessionDir (file (frame_at env sessionDir cut pageHeight duration fps i)) = true.
Proof.
  intros [Hi _] [Hj _] Hne. cbn [file frame_at]. split.
  - intros Heq. apply Hne. now apply (frame_file_inj sessionDir).
  - apply under_path_join.
Qed.

Lemma frame_files_are_distinct_witness :
  file (frame_at small_env job_dir (Rect.mk 0 0 4 4) 10 (Fin 1) (Fin 12) 9)
  <> file (frame_at small_env job_dir (Rect.mk 0 0 4 4) 10 (Fin 1) (Fin 12) 99999).
Proof.
  apply (frame_files_are_distinct small_env job_dir (Rect.mk 0 0 4 4) 10 (Fin 1) (Fin 12)
           9 99999); lia.
Defined.

End JobProperties.

(* ===================================================================== *)
(** ** Files outside the job *)
(* ===================================================================== *)

Module IsolationFacts.
Import Js Detector Render Protocol CleanupFacts RemovalFacts RenderFacts NameFacts.
Local Open Scope job_scope.

Lemma keeps_bind {A B} P (m : M A) (k : A -> M B) :
  keeps P m -> (forall a, keeps P (k a)) -> keeps P (bind m k).
Proof.
  intros Hm Hk w Hw. unfold bind. specialize (Hm w Hw).
  destruct (m w) as [[a | | e |] w1]; cbn [snd] in *; try exact Hm.
  now apply Hk.
Qed.

Lemma keeps_try_catch {A} P (m : M A) (h : exn -> M A) :
  keeps P m -> (forall e, keeps P (h e)) -> keeps P (try_catch m h).
Proof.
  intros Hm Hh w Hw. unfold try_catch. specialize (Hm w Hw).
  destruct (m w) as [[a | | e |] w1]; cbn [snd] in *; try exact Hm.
  now apply Hh.
Qed.

Lemma keeps_ret {A} P (a : A) : keeps P (ret a).
Proof. intros w Hw. exact Hw. Qed.

Lemma keeps_throw {A} P e : keeps P (@throw A e).
Proof. intros w Hw. exact Hw. Qed.

Lemma keeps_return {A} P : keeps P (@return_ A).
Proof. intros w Hw. exact Hw. Qed.

Lemma keeps_diverge {A} P : keeps P (@diverge A).
Proof. intros w Hw. exact Hw. Qed.

Lemma keeps_get P : keeps P get.
Proof. intros w Hw. exact Hw. Qed.

Lemma keeps_modify P f : (forall w, P w -> P (f w)) -> keeps P (modify f).
Proof. intros Hf w Hw. now apply Hf. Qed.

(** Updates that keep a file safe. *)
Lemma safe_same p w w' :
  fs w ⊆ fs w' -> listeners w' = listeners w -> timer w' = timer w ->
  safe_for p w -> safe_for p w'.
Proof.
  intros Hfs Hl Ht (Hp & Hls & Htm). split; [now apply Hfs |].
  rewrite Hl, Ht. now split.
Qed.

Lemma safe_response p r w : safe_for p w -> safe_for p (with_response r w).
Proof. now apply safe_same. Qed.

Lemma safe_closed p w : safe_for p w -> safe_for p (with_closed w).
Proof. now apply safe_same. Qed.

Lemma safe_cancelled p w : safe_for p w -> safe_for p (with_cancelled w).
Proof. now apply safe_same. Qed.

Lemma safe_create p q w : safe_for p w -> safe_for p (create q w).
Proof. apply safe_same; try reflexivity. cbn [fs create with_fs]. apply union_subseteq_l. Qed.

Lemma safe_frames p fr w : safe_for p w -> safe_for p (with_frames fr w).
Proof. apply safe_same; try reflexivity. cbn [fs with_frames]. apply union_subseteq_l. Qed.

Lemma safe_no_timer p w : safe_for p w -> safe_for p (with_timer None w).
Proof.
  intros (Hp & Hls & Htm). split; [exact Hp |]. split; [exact Hls |].
  intros cd [=].
Qed.

Lemma safe_timer p cd w : spares p cd -> safe_for p w -> safe_for p (with_timer (Some cd) w).
Proof.
  intros Hcd (Hp & Hls & Htm). split; [exact Hp |]. split; [exact Hls |].
  intros cd' [= <-]. exact Hcd.
Qed.

Lemma safe_listener p ev l w :
  (forall cd, data_of l = Some cd -> spares p cd) ->
  safe_for p w -> safe_for p (with_listener ev l w).
Proof.
  intros Hl (Hp & Hls & Htm). split; [exact Hp |]. split; [| exact Htm].
  intros ev' l' cd Hin Hd. cbn [listeners with_listener] in Hin.
  apply in_app_or in Hin as [Hin | [[= <- <-] | []]]; [now apply (Hls ev' l') | now apply Hl].
Qed.

Section WithEnv.
Variable env : Env.

Lemma safe_cleanup p cd reason w :
  spares p cd -> safe_for p w -> safe_for p (snd (performJobCleanup env cd reason w)).
Proof.
  intros [Hdir Hup] (Hp & Hls & Htm).
  assert (Hin : p ∈ fs (snd (performJobCleanup env cd reason w))).
  { apply elem_of_cleanup. split; [exact Hp |].
    destruct (sessionDir cd) as [dir |]; [destruct (rimraf_error env dir) |].
    - exact I.
    - split; [now apply Hdir | tauto].
    - tauto. }
  destruct (performJobCleanup_shape env cd reason w) as (b & s & t & Hc).
  rewrite Hc in Hin |- *. cbn [snd] in *.
  split; [exact Hin |]. split; [exact Hls | exact Htm].
Qed.

Lemma safe_run_listener p l w :
  (forall cd, data_of l = Some cd -> spares p cd) ->
  safe_for p w -> safe_for p (run_listener env l w).
Proof.
  intros Hl Hw.
  destruct l as [cd | | cd | cd | cd]; cbn [run_listener].
  - destruct (negb (headersSent w) && negb (isRequestCancelled w)); [| exact Hw].
    apply safe_cleanup; [now apply Hl | now apply safe_cancelled].
  - now apply safe_no_timer.
  - destruct (negb (isRequestCancelled w)); [| exact Hw].
    apply safe_cleanup; [now apply Hl | exact Hw].
  - destruct (negb (isRequestCancelled w)); [| exact Hw].
    apply safe_cleanup; [now apply Hl | exact Hw].
  - destruct (negb (writableEnded w) && negb (isRequestCancelled w)); [| exact Hw].
    apply safe_cleanup; [now apply Hl | exact Hw].
Qed.

Lemma safe_fold_listeners p ls w :
  (forall l cd, In l ls -> data_of l = Some cd -> spares p cd) ->
  safe_for p w -> safe_for p (fold_left (fun w' l => run_listener env l w') ls w).
Proof.
  revert w. induction ls as [| l ls IH]; intros w Hls Hw; [exact Hw |].
  cbn [fold_left]. apply IH.
  - intros l' cd Hin. apply Hls. now right.
  - apply safe_run_listener; [| exact Hw]. intros cd. apply Hls. now left.
Qed.

Lemma safe_emit p ev w : safe_for p w -> safe_for p (emit env ev w).
Proof.
  intros Hw. unfold emit. apply safe_fold_listeners; [| exact Hw].
  intros l cd Hin Hd. apply in_map_iff in Hin as ([ev' l'] & <- & Hin).
  apply filter_In in Hin as [Hin _]. destruct Hw as (_ & Hls & _).
  now apply (Hls ev' l').
Qed.

Lemma safe_deliver p w e : safe_for p w -> safe_for p (deliver env w e).
Proof.
  intros Hw. destruct e; cbn [deliver].
  - now apply safe_emit, safe_closed.
  - destruct (timer w) as [cd |] eqn:Ht; [| exact Hw].
    unfold run_timeout.
    destruct (negb (headersSent (with_timer None w))
              && negb (isRequestCancelled (with_timer None w))).
    + apply safe_cleanup; [| now apply safe_cancelled, safe_no_timer].
      destruct Hw as (_ & _ & Htm). now apply Htm.
    + now apply safe_no_timer.
  - now apply safe_emit.
Qed.

Lemma safe_fold_deliver p evs w :
  safe_for p w -> safe_for p (fold_left (deliver env) evs w).
Proof.
  revert w. induction evs as [| e evs IH]; intros w Hw; [exact Hw |].
  cbn [fold_left]. now apply IH, safe_deliver.
Qed.

Lemma safe_settle p w : safe_for p w -> safe_for p (settle env w).
Proof.
  intros Hw. unfold settle. apply safe_deliver.
  destruct (writableEnded w && negb (closed w)); [| exact Hw].
  apply safe_emit, safe_closed.
  destruct (delivered env); [now apply safe_emit | exact Hw].
Qed.

Lemma keeps_await p s effect :
  (forall w, safe_for p w -> safe_for p (effect w)) ->
  keeps (safe_for p) (await env s effect).
Proof.
  intros Heff w Hw. unfold await. destruct (failure env s); cbn [snd].
  - now apply safe_fold_deliver.
  - now apply safe_fold_deliver, Heff.
Qed.

Lemma keeps_send p code body : keeps (safe_for p) (send code body).
Proof. apply keeps_modify. intros w. apply safe_response. Qed.

Lemma keeps_cleanup p cd reason :
  spares p cd -> keeps (safe_for p) (performJobCleanup env cd reason).
Proof. intros Hcd w Hw. now apply safe_cleanup. Qed.

Lemma keeps_batches p sessionDir cutout pageHeight duration fps fuel k batchStart :
  keeps (safe_for p)
        (batches env sessionDir cutout pageHeight duration fps fuel k batchStart).
Proof.
  revert k batchStart. induction fuel as [| fuel IH]; intros k b; cbn [batches].
  - apply keeps_diverge.
  - destruct (below b (totalFrames duration fps)); [| apply keeps_ret].
    apply keeps_bind.
    + apply keeps_await. intros w. apply safe_frames.
    + intros _. apply keeps_bind; [apply keeps_get |].
      intros w. destruct (isRequestCancelled w); [apply keeps_return | apply IH].
Qed.

Lemma keeps_detect_and_resize p sessionDir pageFile pageHeight :
  keeps (safe_for p) (detect_and_resize env sessionDir pageFile pageHeight).
Proof.
  unfold detect_and_resize. apply keeps_try_catch.
  - apply keeps_bind.
    + apply keeps_try_catch; [apply keeps_await; auto | intros e; apply keeps_throw].
    + intros _. apply keeps_bind.
      * destruct (detectTransparentCutout (frame_image env));
          [apply keeps_ret | apply keeps_throw].
      * intros cutout. cbv zeta.
        destruct ((Rect.width cutout =? 0) || (Rect.height cutout =? 0)).
        { apply keeps_bind; [apply keeps_send | intros _; apply keeps_return]. }
        apply keeps_bind; [apply keeps_get |].
        intros w. destruct (isRequestCancelled w); [apply keeps_return |].
        apply keeps_bind; [apply keeps_await; auto |].
        intros _. destruct (page_meta env) as [opw oph].
        destruct (negb (Rect.width cutout =? opw)); [| apply keeps_ret].
        apply keeps_bind; [| intros _; apply keeps_ret].
        apply keeps_await. intros w0. apply safe_create.
  - intros e. apply keeps_bind; [apply keeps_send | intros _; apply keeps_return].
Qed.

(** The handler never removes a file that its [cleanupData] spares; the
    file may be one that [ensureTmp] creates. *)
Lemma safe_render p fuel req w :
  spares p (job_data env req) ->
  safe_for p w
  \/ (failure env EnsureTmp = None
      /\ safe_for p (create (path_join (tmpRoot env) "uploads") (create (tmpRoot env) w))) ->
  safe_for p (snd (render env fuel req w)).
Proof.
  intros Hsp H0. unfold render. cbv zeta. unfold bind at 1.
  assert (Hpre : safe_for p
                   (snd (await env EnsureTmp
                           (fun w => create (path_join (tmpRoot env) "uploads")
                                            (create (tmpRoot env) w)) w))).
  { unfold await. destruct (failure env EnsureTmp) as [e |]; cbn [snd];
      apply safe_fold_deliver.
    - destruct H0 as [H0 | [[=] _]]. exact H0.
    - destruct H0 as [H0 | [_ H0]]; [now apply safe_create, safe_create | exact H0]. }
  destruct (await env EnsureTmp _ w) as [[[] | | e |] w1]; cbn [snd] in *; try exact Hpre.
  revert w1 Hpre.
  match goal with
  | |- forall w1, _ -> safe_for p (snd (?m w1)) => change (keeps (safe_for p) m)
  end.
  apply keeps_try_catch.
  - destruct (page req) as [pageUpload |];
      [| apply keeps_bind; [apply keeps_send | intros _; apply keeps_return]].
    apply keeps_bind.
    { apply keeps_modify. intros w0. apply safe_listener. intros cd [= <-]. exact Hsp. }
    intros _. apply keeps_bind.
    { apply keeps_modify. intros w0. now apply safe_timer. }
    intros _. apply keeps_bind.
    { apply keeps_modify. intros w0. apply safe_listener. intros cd [=]. }
    intros _. apply keeps_bind.
    { apply keeps_modify. intros w0. apply safe_listener. intros cd [=]. }
    intros _. apply keeps_bind.
    { apply keeps_await. intros w0. apply safe_create. }
    intros _. apply keeps_bind; [apply keeps_await; auto |].
    intros _. destruct (page_meta env) as [pw ph].
    destruct ((MAX_DIMENSION <? pw) || (MAX_DIMENSION <? ph)).
    { apply keeps_bind; [apply keeps_send | intros _; apply keeps_return]. }
    apply keeps_bind; [apply keeps_detect_and_resize |].
    intros [[cutout pageFile] pageHeight].
    apply keeps_bind; [apply keeps_await; auto |].
    intros _. apply keeps_bind; [apply keeps_await; auto |].
    intros _. apply keeps_bind; [apply keeps_batches |].
    intros _. apply keeps_bind; [apply keeps_get |].
    intros w0. destruct (isRequestCancelled w0); [apply keeps_return |].
    apply keeps_bind.
    { unfold runFFmpeg. apply keeps_try_catch.
      - apply keeps_await. intros w2. apply safe_create.
      - intros e. apply keeps_throw. }
    intros _. apply keeps_bind.
    { apply keeps_modify. intros w2. apply safe_listener. intros cd [= <-]. exact Hsp. }
    intros _. apply keeps_bind.
    { apply keeps_modify. intros w2. apply safe_listener. intros cd [= <-]. exact Hsp. }
    intros _. apply keeps_bind.
    { apply keeps_modify. intros w2. apply safe_listener. intros cd [= <-]. exact Hsp. }
    intros _. apply keeps_bind; [apply keeps_await; auto |].
    intros _. apply keeps_send.
  - intros err. apply keeps_bind; [now apply keeps_cleanup | intros _; apply keeps_send].
Qed.

(** A file that exists before the request is safe when the job's
    [cleanupData] spares it: a new response has no listener and no timer. *)
Lemma safe_fresh p w cd :
  p ∈ fs w -> listeners w = [] -> timer w = None -> spares p cd -> safe_for p w.
Proof.
  intros Hp Hl Ht Hsp. split; [exact Hp |]. rewrite Hl, Ht. split.
  - intros ev l cd' [].
  - intros cd' [=].
Qed.

End WithEnv.

(** *** The temporary directories are not inside a job directory *)

Lemma prefix_longer (a b : string) : b <> EmptyString -> String.prefix (a ++ b) a = false.
Proof.
  intros Hb. induction a as [| c a IH].
  - destruct b; [contradiction | reflexivity].
  - change (String c a ++ b)%string with (String c (a ++ b)%string).
    cbn [String.prefix]. destruct (ascii_dec c c); [exact IH | contradiction].
Qed.

Lemma eqb_longer (a b : string) : b <> EmptyString -> String.eqb (a ++ b) a = false.
Proof.
  intros Hb. apply String.eqb_neq. intros Heq.
  apply (f_equal String.length) in Heq. rewrite length_append in Heq.
  destruct b; [contradiction | cbn in Heq; lia].
Qed.

Lemma prefix_cancel (a b c : string) :
  String.prefix (a ++ b) (a ++ c) = String.prefix b c.
Proof.
  induction a as [| x a IH]; [reflexivity |].
  change (String x a ++ b)%string with (String x (a ++ b)%string).
  change (String x a ++ c)%string with (String x (a ++ c)%string).
  cbn [String.prefix]. destruct (ascii_dec x x); [exact IH | contradiction].
Qed.

Lemma app_assoc_string (a b c : string) : ((a ++ b) ++ c = a ++ (b ++ c))%string.
Proof.
  induction a as [| x a IH]; [reflexivity |].
  change (String x ((a ++ b) ++ c)%string = String x (a ++ (b ++ c))%string).
  now rewrite IH.
Qed.

Lemma tmpRoot_outside_job env : under (job_path env) (tmpRoot env) = false.
Proof.
  unfold under, job_path, path_join. apply orb_false_iff. split.
  - apply eqb_longer. discriminate.
  - rewrite app_assoc_string. apply prefix_longer. discriminate.
Qed.

Lemma uploads_outside_job env :
  under (job_path env) (path_join (tmpRoot env) "uploads") = false.
Proof.
  unfold under, job_path, path_join. apply orb_false_iff. split.
  - apply String.eqb_neq. intros Heq. apply append_cancel_l in Heq. discriminate.
  - rewrite app_assoc_string, prefix_cancel. reflexivity.
Qed.

End IsolationFacts.

(* ===================================================================== *)
(** ** Further properties: a job and the files of others *)
(* ===================================================================== *)

Section IsolationProperties.
Import Js Detector Render Protocol IsolationFacts Scenarios Incidents.

(** X23.  A job removes nothing but its own files.  Whatever fails and
    whatever the client does, a file that exists when the request arrives,
    lies outside the job's working directory and is not one of the
    request's uploads still exists when the handler is done, and after the
    events that follow it. *)
Theorem job_spares_foreign_files (env : Env) (fuel : nat) (req : Request)
    (w0 : World) (p : string) :
  listeners w0 = [] -> timer w0 = None ->
  p ∈ fs w0 ->
  under (job_path env) p = false ->
  ~ In p (map path (uploads_of req)) ->
  p ∈ fs (snd (render env fuel req w0))
  /\ p ∈ fs (settle env (snd (render env fuel req w0))).
Proof.
  intros Hl Ht Hp Hout Hup.
  assert (Hsp : spares p (job_data env req)).
  { split; [| exact Hup]. intros dir [= <-]. exact Hout. }
  pose proof (safe_render env p fuel req w0 Hsp
                (or_introl (safe_fresh p w0 (job_data env req) Hp Hl Ht Hsp))) as Hsafe.
  split; [apply Hsafe | now apply safe_settle].
Qed.

Lemma job_spares_foreign_files_witness :
  "/app/tmp/job_1758349793300/frame_00001.png"
    ∈ fs (settle small_env
            (snd (render small_env 20 full_request
                    (with_fs (fun s => s ∪ {["/app/tmp/job_1758349793300/frame_00001.png"]})
                             (initial full_request))))).
Proof.
  refine (proj2 (job_spares_foreign_files small_env 20 full_request
                   (with_fs (fun s => s ∪ {["/app/tmp/job_1758349793300/frame_00001.png"]})
                            (initial full_request))
                   "/app/tmp/job_1758349793300/frame_00001.png" eq_refl eq_refl _ eq_refl _)).
  - refine (bool_decide_eq_true_1 _ _). vm_compute. reflexivity.
  - cbn. intros [H | [H | []]]; discriminate H.
Defined.

(** X24.  The shared temporary directories survive every job: once
    [ensureTmp] has succeeded, [tmp] and [tmp/uploads] exist when the job is
    over, however it ended, provided no upload goes by their names. *)
Theorem tmp_directories_survive (env : Env) (fuel : nat) (req : Request) :
  failure env EnsureTmp = None ->
  ~ In (tmpRoot env) (map path (uploads_of req)) ->
  ~ In (path_join (tmpRoot env) "uploads") (map path (uploads_of req)) ->
  tmpRoot env ∈ fs (snd (run env fuel req))
  /\ path_join (tmpRoot env) "uploads" ∈ fs (snd (run env fuel req)).
Proof.
  intros Hf Hup1 Hup2.
  assert (Hgen : forall p,
            p ∈ fs (create (path_join (tmpRoot env) "uploads")
                           (create (tmpRoot env) (initial req))) ->
            under (job_path env) p = false ->
            ~ In p (map path (uploads_of req)) ->
            p ∈ fs (snd (run env fuel req))).
  { intros p Hp Hout Hup.
    assert (Hsp : spares p (job_data env req)).
    { split; [| exact Hup]. intros dir [= <-]. exact Hout. }
    assert (Hsafe : safe_for p (snd (render env fuel req (initial req)))).
    { apply safe_render; [exact Hsp |]. right. split; [exact Hf |].
      now apply (safe_fresh p _ (job_data env req)). }
    unfold run. destruct (render env fuel req (initial req)) as [[[] | | e |] w];
      cbn [snd] in *; try (apply safe_settle; exact Hsafe); apply Hsafe. }
  split; apply Hgen; try assumption.
  - cbn [fs create with_fs]. apply elem_of_union_l, elem_of_union_r. now apply elem_of_singleton.
  - apply tmpRoot_outside_job.
  - cbn [fs create with_fs]. apply elem_of_union_r. now apply elem_of_singleton.
  - apply uploads_outside_job.
Qed.

Lemma tmp_directories_survive_witness :
  "/app/tmp" ∈ fs (snd (run (failing small_env Encode "exit code 1") 20 full_request))
  /\ "/app/tmp/uploads"
       ∈ fs (snd (run (failing small_env Encode "exit code 1") 20 full_request)).
Proof.
  apply (tmp_directories_survive (failing small_env Encode "exit code 1") 20 full_request).
  - reflexivity.
  - cbn. intros [H | [H | []]]; discriminate H.
  - cbn. intros [H | [H | []]]; discriminate H.
Defined.

End IsolationProperties.

(* ===================================================================== *)
(** ** The scroll is monotone *)
(* ===================================================================== *)

Module ScrollFacts.
Import Js JsFacts NumberFacts Render.

Lemma step_of_nonneg maxScroll total : 0 <= maxScroll -> (0 <= step_of maxScroll total)%Q.
Proof.
  intros Hm. destruct total as [| | | t]; try apply Qle_refl. unfold step_of.
  destruct (1 <? t) eqn:Ht; [| apply Qle_refl].
  apply Z.ltb_lt in Ht. unfold fdiv. apply rnd_nonneg.
  apply Qle_shift_div_l.
  - change 0%Q with (inject_Z 0). rewrite <- Zlt_Qlt. lia.
  - rewrite Qmult_0_l. change 0%Q with (inject_Z 0). rewrite <- Zle_Qle. lia.
Qed.

(** Below [2^50] the products [step * i] keep their order after rounding:
    consecutive integers are further apart, relatively, than two rounding
    errors. *)
Lemma fmul_index_mono (step : Q) (i j : Z) :
  (0 <= step)%Q -> 0 <= i <= j -> i < 2 ^ 50 ->
  (fmul step (inject_Z i) <= fmul step (inject_Z j))%Q.
Proof.
  intros Hs [Hi Hij] Hbound. unfold fmul.
  destruct (Z.eq_dec i j) as [-> | Hne]; [apply Qle_refl |].
  assert (Ha : (0 <= inject_Z i)%Q).
  { change 0%Q with (inject_Z 0). rewrite <- Zle_Qle. lia. }
  assert (Hb : (0 <= inject_Z j)%Q).
  { change 0%Q with (inject_Z 0). rewrite <- Zle_Qle. lia. }
  assert (Hx : (0 <= step * inject_Z i)%Q) by now apply Qmult_le_0_compat.
  assert (Hy : (0 <= step * inject_Z j)%Q) by now apply Qmult_le_0_compat.
  eapply Qle_trans; [apply (rnd_upper _ Hx) |].
  eapply Qle_trans; [| apply (rnd_lower _ Hy)].
  assert (Hab : (inject_Z i * (4503599627370497 # 4503599627370496)
                 <= inject_Z j * (4503599627370496 # 4503599627370497))%Q).
  { unfold Qle, inject_Z. cbn [Qnum Qden Qmult].
    change (2 ^ 50) with 1125899906842624 in Hbound. lia. }
  rewrite <- !Qmult_assoc, !(Qmult_comm step).
  now apply Qmult_le_compat_r.
Qed.

Lemma round_fin_mono (p q : Q) : (p <= q)%Q -> round_fin p <= round_fin q.
Proof. intros H. unfold round_fin. apply Qfloor_resp_le. lra. Qed.

Lemma offset_of_mono (step : Q) (i j : Z) :
  (0 <= step)%Q -> 0 <= i <= j -> i < 2 ^ 50 ->
  offset_of step i <= offset_of step j.
Proof. intros Hs Hij Hb. unfold offset_of. now apply round_fin_mono, fmul_index_mono. Qed.

End ScrollFacts.

Section ScrollProperties.
Import Js Detector Render ScrollFacts Scenarios.

(** X25.  The page never scrolls backwards: for frame indices below
    [2^50], a later frame is cropped at the same offset or further down
    the page, in binary64 arithmetic. *)
Theorem scroll_never_moves_back (env : Env) (sessionDir : string) (cut : Rect.t)
    (pageHeight : Z) (duration fps : num) (i j : Z) :
  0 <= i <= j -> i < 2 ^ 50 ->
  crop_top (frame_at env sessionDir cut pageHeight duration fps i)
  <= crop_top (frame_at env sessionDir cut pageHeight duration fps j).
Proof.
  intros Hij Hb. cbn [crop_top frame_at].
  pose proof (offset_of_mono (step cut pageHeight duration fps) i j
                (step_of_nonneg _ _ (Z.le_max_l 0 _)) Hij Hb) as Hmono.
  lia.
Qed.

Lemma scroll_never_moves_back_witness :
  crop_top (frame_at readme_env job_dir (Rect.mk 19 20 780 1744) 3618 (Fin 2) (Fin 12) 7)
  <= crop_top (frame_at readme_env job_dir (Rect.mk 19 20 780 1744) 3618 (Fin 2) (Fin 12) 8).
Proof.
  apply (scroll_never_moves_back readme_env job_dir (Rect.mk 19 20 780 1744) 3618
           (Fin 2) (Fin 12) 7 8); lia.
Defined.

End ScrollProperties.

(* ===================================================================== *)
(** ** The sweep on an uncaught exception *)
(* ===================================================================== *)

Module EmergencyFacts.
Import Js Render Emergency NameFacts IsolationFacts.
Local Open Scope job_scope.

Lemma strip_prefix_app (a b : string) : strip_prefix a (a ++ b) = Some b.
Proof.
  induction a as [| c a IH]; [reflexivity |].
  change (String c a ++ b)%string with (String c (a ++ b)%string).
  cbn [strip_prefix]. now rewrite Ascii.eqb_refl.
Qed.

Lemma prefix_split (a s : string) :
  String.prefix a s = true -> exists b, s = (a ++ b)%string.
Proof.
  revert s. induction a as [| c a IH]; intros s H.
  - now exists s.
  - destruct s as [| d s]; [discriminate |]. cbn [String.prefix] in H.
    destruct (ascii_dec c d) as [<- |]; [| discriminate].
    destruct (IH s H) as [b ->]. now exists b.
Qed.

Lemma first_segment_plain (e more : string) :
  plain e = true -> first_segment (e ++ String "/" more) = e.
Proof.
  induction e as [| c e IH]; intros H; [reflexivity |].
  cbn [plain] in H. apply andb_true_iff in H as [Hc He].
  change (String c e ++ String "/" more)%string with (String c (e ++ String "/" more)%string).
  cbn [first_segment]. apply negb_true_iff in Hc. rewrite Hc. now rewrite IH.
Qed.

Lemma first_segment_whole (e : string) : plain e = true -> first_segment e = e.
Proof.
  induction e as [| c e IH]; intros H; [reflexivity |].
  cbn [plain] in H. apply andb_true_iff in H as [Hc He].
  cbn [first_segment]. apply negb_true_iff in Hc. rewrite Hc. now rewrite IH.
Qed.

(** A path at or below the entry [e] of [dir] is listed under [e]. *)
Lemma entry_of_under (dir e p : string) :
  plain e = true -> under (path_join dir e) p = true -> entry_of dir p = Some e.
Proof.
  intros He Hu. unfold under in Hu. apply orb_true_iff in Hu as [Hu | Hu].
  - apply String.eqb_eq in Hu as <-. unfold entry_of, path_join.
    change (dir ++ "/" ++ e)%string with (dir ++ ("/" ++ e))%string.
    rewrite <- app_assoc_string, strip_prefix_app. now rewrite first_segment_whole.
  - apply prefix_split in Hu as [more ->]. unfold entry_of, path_join.
    replace ((((dir ++ "/" ++ e) ++ "/") ++ more))%string
      with ((dir ++ "/") ++ (e ++ String "/" more))%string.
    + rewrite strip_prefix_app. now rewrite first_segment_plain.
    + rewrite !app_assoc_string. reflexivity.
Qed.

Lemma under_entry (dir e p : string) :
  under (path_join dir e) p = true -> under dir p = true.
Proof.
  intros Hu. unfold under in *. apply orb_true_iff. right.
  apply orb_true_iff in Hu as [Hu | Hu].
  - apply String.eqb_eq in Hu as <-. unfold path_join.
    change (dir ++ "/" ++ e)%string with (dir ++ ("/" ++ e))%string.
    rewrite <- app_assoc_string. apply prefix_append.
  - apply prefix_split in Hu as [more ->]. unfold path_join.
    replace ((((dir ++ "/" ++ e) ++ "/") ++ more))%string
      with ((dir ++ "/") ++ (e ++ String "/" more))%string.
    + apply prefix_append.
    + rewrite !app_assoc_string. reflexivity.
Qed.

Lemma in_readdir unreadable dir w p e :
  unreadable dir = false -> p ∈ fs w -> entry_of dir p = Some e ->
  In e (readdir unreadable dir w).
Proof.
  intros Hr Hp He. unfold readdir. rewrite Hr.
  apply list_elem_of_In, elem_of_elements, elem_of_set_omap. now exists p.
Qed.

Section WithEnv.
Variable env : Env.

Lemma rimraf_caught dir w :
  try_catch (rimraf env dir) (fun _ => ret tt) w
  = (Value tt,
     match rimraf_error env dir with
     | Some _ => with_op (RimrafOp dir) w
     | None => with_fs (filter (fun p => under dir p = false)) (with_op (RimrafOp dir) w)
     end).
Proof.
  unfold try_catch, rimraf, bind, modify, throw, ret.
  destruct (rimraf_error env dir); reflexivity.
Qed.

Lemma sweep_jobs_value entries w : fst (sweep_jobs env entries w) = Value tt.
Proof.
  revert w. induction entries as [| e entries IH]; intros w; [reflexivity |].
  cbn [sweep_jobs]. unfold bind at 1.
  destruct (String.prefix "job_" e); [rewrite rimraf_caught | unfold ret at 1]; apply IH.
Qed.

(** What the sweep of the job directories leaves. *)
Lemma elem_of_sweep_jobs entries w q :
  q ∈ fs (snd (sweep_jobs env entries w))
  <-> q ∈ fs w
      /\ forall e, In e entries -> String.prefix "job_" e = true ->
                   rimraf_error env (path_join (tmpRoot env) e) = None ->
                   under (path_join (tmpRoot env) e) q = false.
Proof.
  revert w. induction entries as [| e entries IH]; intros w.
  - cbn. split; [intros H; split; [exact H | intros e []] | tauto].
  - cbn [sweep_jobs]. unfold bind at 1.
    destruct (String.prefix "job_" e) eqn:Hjob.
    + rewrite rimraf_caught. rewrite IH.
      destruct (rimraf_error env (path_join (tmpRoot env) e)) eqn:Herr;
        cbn [fs with_fs with_op].
      * split; intros [Hq Hall]; (split; [exact Hq |]).
        -- intros e' [<- | Hin] Hj Hok; [congruence | now apply Hall].
        -- intros e' Hin. apply Hall. now right.
      * rewrite elem_of_filter. split.
        -- intros [[Hu Hq] Hall]. split; [exact Hq |].
           intros e' [<- | Hin] Hj Hok; [exact Hu | now apply Hall].
        -- intros [Hq Hall]. split; [split; [| exact Hq] |].
           ++ apply Hall; [now left | exact Hjob | exact Herr].
           ++ intros e' Hin. apply Hall. now right.
    + unfold ret at 1. rewrite IH. split; intros [Hq Hall]; (split; [exact Hq |]).
      * intros e' [<- | Hin] Hj Hok; [congruence | now apply Hall].
      * intros e' Hin. apply Hall. now right.
Qed.

Lemma sweep_uploads_value dir entries w : fst (sweep_uploads env dir entries w) = Value tt.
Proof.
  revert w. induction entries as [| e entries IH]; intros w; [reflexivity |].
  cbn [sweep_uploads]. unfold bind at 1. rewrite CleanupFacts.unlink_caught. apply IH.
Qed.

(** What the sweep of the uploads leaves. *)
Lemma elem_of_sweep_uploads dir entries w q :
  q ∈ fs (snd (sweep_uploads env dir entries w))
  <-> q ∈ fs w
      /\ ~ (exists e, In e entries /\ q = path_join dir e /\ unlink_error env q = None).
Proof.
  revert w. induction entries as [| e entries IH]; intros w.
  - cbn. split; [intros H; split; [exact H | intros (e & [] & _)] | tauto].
  - cbn [sweep_uploads]. unfold bind at 1. rewrite CleanupFacts.unlink_caught.
    rewrite IH, RemovalFacts.elem_of_after_unlink. split.
    + intros [[Hq Hno1] Hno2]. split; [exact Hq |].
      intros (e' & [<- | Hin] & Heq & Herr).
      * apply Hno1. split; [exact Heq | now rewrite <- Heq].
      * apply Hno2. now exists e'.
    + intros [Hq Hno]. split; [split; [exact Hq |] |].
      * intros [Heq Herr]. apply Hno. exists e. split; [now left |].
        split; [exact Heq | now rewrite Heq].
      * intros (e' & Hin & Heq & Herr). apply Hno. exists e'. split; [now right | now split].
Qed.

(** The sweep as a whole. *)
Lemma emergency_cleanup_eq unreadable w :
  emergency_cleanup env unreadable w
  = (Value tt,
     snd (sweep_uploads env (path_join (tmpRoot env) "uploads")
            (readdir unreadable (path_join (tmpRoot env) "uploads")
                     (snd (sweep_jobs env (readdir unreadable (tmpRoot env) w) w)))
            (snd (sweep_jobs env (readdir unreadable (tmpRoot env) w) w)))).
Proof.
  unfold emergency_cleanup, try_catch, bind, get. cbv zeta.
  pose proof (sweep_jobs_value (readdir unreadable (tmpRoot env) w) w) as H1.
  destruct (sweep_jobs env (readdir unreadable (tmpRoot env) w) w) as [o1 w1].
  cbn [fst snd] in *. subst o1.
  pose proof (sweep_uploads_value (path_join (tmpRoot env) "uploads")
                (readdir unreadable (path_join (tmpRoot env) "uploads") w1) w1) as H2.
  destruct (sweep_uploads env (path_join (tmpRoot env) "uploads")
              (readdir unreadable (path_join (tmpRoot env) "uploads") w1) w1) as [o2 w2].
  cbn [fst snd] in *. now subst o2.
Qed.

End WithEnv.
End EmergencyFacts.

(* ===================================================================== *)
(** ** Further properties: the sweep on an uncaught exception *)
(* ===================================================================== *)

Section EmergencyProperties.
Import Js Render Emergency EmergencyFacts NameFacts Scenarios Incidents.

(** X26.  The emergency sweep cannot fail, creates nothing, and touches
    nothing outside the temporary directory. *)
Theorem emergency_cleanup_is_contained (env : Env) (unreadable : string -> bool)
    (w : World) :
  fst (emergency_cleanup env unreadable w) = Value tt
  /\ fs (snd (emergency_cleanup env unreadable w)) ⊆ fs w
  /\ (forall p, p ∈ fs w -> under (tmpRoot env) p = false ->
                p ∈ fs (snd (emergency_cleanup env unreadable w))).
Proof.
  rewrite emergency_cleanup_eq. cbn [fst snd]. split; [reflexivity |]. split.
  - intros q Hq. apply elem_of_sweep_uploads in Hq as [Hq _].
    apply elem_of_sweep_jobs in Hq as [Hq _]. exact Hq.
  - intros p Hp Hout. apply elem_of_sweep_uploads. split.
    + apply elem_of_sweep_jobs. split; [exact Hp |].
      intros e _ _ _. destruct (under (path_join (tmpRoot env) e) p) eqn:Hu; [| reflexivity].
      apply under_entry in Hu. congruence.
    + intros (e & _ & -> & _).
      pose proof (under_path_join (path_join (tmpRoot env) "uploads") e) as Hu.
      apply under_entry in Hu. congruence.
Qed.

(** X27.  The sweep removes every job directory whose [rimraf] does not
    fail, with all that is in it. *)
Theorem emergency_cleanup_removes_job_directories (env : Env)
    (unreadable : string -> bool) (w : World) (entry p : string) :
  unreadable (tmpRoot env) = false ->
  entry_name entry ->
  String.prefix "job_" entry = true ->
  rimraf_error env (path_join (tmpRoot env) entry) = None ->
  under (path_join (tmpRoot env) entry) p = true ->
  p ∉ fs (snd (emergency_cleanup env unreadable w)).
Proof.
  intros Hr [_ Hplain] Hjob Hok Hu Hin.
  rewrite emergency_cleanup_eq in Hin. cbn [snd] in Hin.
  apply elem_of_sweep_uploads in Hin as [Hin _].
  apply elem_of_sweep_jobs in Hin as [Hp Hall].
  assert (He : In entry (readdir unreadable (tmpRoot env) w)).
  { apply (in_readdir unreadable (tmpRoot env) w p); [exact Hr | exact Hp |].
    now apply entry_of_under. }
  specialize (Hall entry He Hjob Hok). congruence.
Qed.

Lemma emergency_cleanup_removes_job_directories_witness :
  "/app/tmp/job_1758349793301/frame_00001.png"
    ∉ fs (snd (emergency_cleanup small_env (fun _ => false)
                 (with_fs (fun s => s ∪ {["/app/tmp/job_1758349793301/frame_00001.png"]})
                          job_world))).
Proof.
  apply (emergency_cleanup_removes_job_directories small_env (fun _ => false) _
           "job_1758349793301" "/app/tmp/job_1758349793301/frame_00001.png");
    try reflexivity.
  split; [discriminate | reflexivity].
Defined.

(** X28.  Unlike [performJobCleanup], the sweep goes on after a failing
    [rimraf]: whatever happens to the job directories, every file of the
    uploads directory whose [unlink] does not fail is removed. *)
Theorem emergency_cleanup_unlinks_uploads (env : Env) (unreadable : string -> bool)
    (w : World) (name : string) :
  unreadable (path_join (tmpRoot env) "uploads") = false ->
  entry_name name ->
  unlink_error env (path_join (path_join (tmpRoot env) "uploads") name) = None ->
  path_join (path_join (tmpRoot env) "uploads") name
    ∉ fs (snd (emergency_cleanup env unreadable w)).
Proof.
  intros Hr [_ Hplain] Hok Hin.
  rewrite emergency_cleanup_eq in Hin. cbn [snd] in Hin.
  apply elem_of_sweep_uploads in Hin as [Hp Hno]. apply Hno.
  exists name. split; [| split; [reflexivity | exact Hok]].
  apply (in_readdir unreadable _ _ (path_join (path_join (tmpRoot env) "uploads") name));
    [exact Hr | exact Hp |].
  apply entry_of_under; [exact Hplain | apply under_self].
Qed.

Lemma emergency_cleanup_unlinks_uploads_witness :
  page_upload ∉ fs (snd (emergency_cleanup busy_env (fun _ => false) job_world)).
Proof.
  apply (emergency_cleanup_unlinks_uploads busy_env (fun _ => false) job_world "3f9a1c");
    try reflexivity.
  split; [discriminate | reflexivity].
Defined.

End EmergencyProperties.
